(** * ceresa-manifest-mill: the manifest generator, embedded and verified

    A shallow embedding of [.github/scripts/generate_manifests.py]: the
    path parser, the document grouper, the service-id resolver, the
    dimension fetcher and the manifest assembler, followed by the
    properties the specification states about them.

    Conventions of the embedding.
    - A Python [str] is a [string]; its characters are the code points
      0..255.  Ordering of strings is the lexicographic ordering of code
      points ([String.le]), which is what Python's [sorted] uses.
    - A Python [dict] used as a map is a [gmap]; a list is a [list].
    - A raised exception is a value: functions that may raise return an
      [outcome], and mutations made before the raise are kept.
    - What lives outside the repository is a parameter: the HTTP
      session and the completion order of the thread pool are arguments
      of the functions that use them, the IIIF builder library and
      Python's [int] and [repr] are the classes [IiifBuilder] and
      [PyRuntime]. *)

From Stdlib Require Import Ascii String ZArith Lia.
From stdpp Require Import gmap strings list sorting pretty.

Set Warnings "-register-all".

(** ** Python string methods *)

Module PyStr.

(** [str.isspace] on one character, for the code points below 256. *)
Definition isspace (c : ascii) : bool :=
  let n := N_of_ascii c in
  ((9 <=? n) && (n <=? 13) || (28 <=? n) && (n <=? 32)
   || (n =? 133) || (n =? 160))%N.

Definition is_char (d : ascii) (c : ascii) : bool :=
  if decide (c = d) then true else false.

Definition is_empty (s : string) : bool :=
  match s with "" => true | _ => false end.

(** [s.lstrip(chars)]: drop the leading characters that satisfy [P]. *)
Fixpoint lstrip (P : ascii → bool) (s : string) : string :=
  match s with
  | "" => ""
  | String c s' => if P c then lstrip P s' else s
  end.

(** [s.rstrip(chars)]: drop the trailing characters that satisfy [P]. *)
Fixpoint rstrip (P : ascii → bool) (s : string) : string :=
  match s with
  | "" => ""
  | String c s' =>
      let r := rstrip P s' in
      if is_empty r && P c then "" else String c r
  end.

(** [s.strip()] and [s.strip('/')]. *)
Definition strip_with (P : ascii → bool) (s : string) : string :=
  rstrip P (lstrip P s).
Definition strip : string → string := strip_with isspace.

(** [s.startswith(pre)]. *)
Fixpoint startswith (pre s : string) : bool :=
  match pre, s with
  | "", _ => true
  | String a pre', String b s' =>
      if decide (a = b) then startswith pre' s' else false
  | String _ _, "" => false
  end.

(** [s.endswith(suf)]: some suffix of [s] is [suf]. *)
Fixpoint endswith (suf s : string) : bool :=
  if decide (s = suf) then true
  else match s with
       | "" => false
       | String _ s' => endswith suf s'
       end.

(** [s.replace(old, '')] for a non-empty [old]: the occurrences of
    [old] are found from left to right without overlap and deleted.
    [skip] counts the characters of a found occurrence that remain to
    be dropped. *)
Fixpoint remove_go (old : string) (skip : nat) (s : string) : string :=
  match s with
  | "" => ""
  | String c s' =>
      match skip with
      | S k => remove_go old k s'
      | O =>
          if startswith old s
          then remove_go old (String.length old - 1) s'
          else String c (remove_go old 0 s')
      end
  end.
Definition remove_all (old s : string) : string := remove_go old 0 s.

(** [s.split(sep)] for a one-character separator: never empty. *)
Fixpoint split (sep : ascii) (s : string) : list string :=
  match s with
  | "" => [""]
  | String c s' =>
      let r := split sep s' in
      if decide (c = sep) then "" :: r
      else match r with
           | h :: t => String c h :: t
           | [] => [String c ""]
           end
  end.

(** [str.lower] on one character (ASCII and Latin-1 capitals). *)
Definition lower_char (c : ascii) : ascii :=
  let n := N_of_ascii c in
  if ((65 <=? n) && (n <=? 90)
      || (192 <=? n) && (n <=? 222) && negb (n =? 215))%N
  then ascii_of_N (n + 32) else c.

Fixpoint lower (s : string) : string :=
  match s with
  | "" => ""
  | String c s' => String (lower_char c) (lower s')
  end.

(** [os.path.basename]: what follows the last slash. *)
Definition basename (p : string) : string :=
  List.last (split "/" p) "".

(** [str(n)] for a non-negative integer, and [s.zfill(width)]. *)
Definition of_nat (n : nat) : string := pretty n.

Fixpoint zeros (n : nat) : string :=
  match n with O => "" | S k => String "0" (zeros k) end.

Definition zfill (width : nat) (s : string) : string :=
  zeros (width - String.length s) +:+ s.

End PyStr.

(** ** Results that may be an exception *)

Inductive outcome (A : Type) : Type :=
| Returned (a : A)
| Raised (msg : string).
Arguments Returned {A} a.
Arguments Raised {A} msg.

(** ** Service-ID resolver *)

(** [build_service_id(iiif_base, project_segment, path)]; [Raised] is
    the [ValueError] for a relative path without a base. *)
Definition build_service_id (iiif_base project_segment path : string)
  : outcome string :=
  let path := PyStr.strip path in
  if PyStr.startswith "http://" path || PyStr.startswith "https://" path
  then Returned
         (PyStr.remove_all "/info.json" (PyStr.rstrip (PyStr.is_char "/") path))
  else if PyStr.is_empty iiif_base
  then Raised ("No IIIF_IMAGE_BASE provided and path is not a URL: " +:+ path)
  else
    let filename := PyStr.basename path in
    let iiif_base := PyStr.rstrip (PyStr.is_char "/") iiif_base in
    let project_segment :=
      PyStr.strip_with (PyStr.is_char "/") project_segment in
    let service :=
      if negb (PyStr.is_empty project_segment)
      then iiif_base +:+ "/" +:+ project_segment +:+ "/" +:+ filename
      else iiif_base +:+ "/" +:+ filename in
    Returned (PyStr.rstrip (PyStr.is_char "/") service).

(** ** Document grouper *)

(** [doc_and_filename_from_path(p)].  [split] never returns an empty
    list, so the source's last branch is unreachable; it is kept. *)
Definition doc_and_filename_from_path (p : string) : string * string :=
  let parts := PyStr.split "/" (PyStr.strip p) in
  match reverse parts with
  | [only] => ("root", only)
  | last :: before :: _ => (before, last)
  | [] => ("root", p)
  end.

(** ** Path parser *)

(** The fragment of Python's [re] that [line_re] needs: a sequence of
    quantified character classes, some of them capturing, closed by
    [$].  Matching is by backtracking in the engine's order of
    preference: a greedy item tries its longest run first, a lazy item
    its shortest. *)
Module Re.

Inductive quant := Greedy | Lazy.

Record item := Item {
  cls : ascii → bool;     (* the character class *)
  at_least : nat;         (* 0 for a star, 1 for a plus *)
  how : quant;
  capturing : bool
}.

Fixpoint span (P : ascii → bool) (s : string) : nat :=
  match s with
  | String c s' => if P c then S (span P s') else 0
  | "" => 0
  end.

Fixpoint take (n : nat) (s : string) : string :=
  match n, s with
  | S k, String c s' => String c (take k s')
  | _, _ => ""
  end.

Fixpoint drop (n : nat) (s : string) : string :=
  match n, s with
  | S k, String _ s' => drop k s'
  | _, _ => s
  end.

(** The repetition counts an item may take, in order of preference,
    when at most [n] characters of its class are available. *)
Definition counts (it : item) (n : nat) : list nat :=
  let up := seq (at_least it) (S n - at_least it) in
  match how it with
  | Lazy => up
  | Greedy => reverse up
  end.

Fixpoint first_some {A B} (f : A → option B) (l : list A) : option B :=
  match l with
  | [] => None
  | x :: l' => match f x with Some y => Some y | None => first_some f l' end
  end.

(** [$] without [re.MULTILINE]: at the end, or before a final newline. *)
Definition at_end (s : string) : bool :=
  if decide (s = "") then true
  else if decide (s = String "010" "") then true else false.

(** The captured groups of the first successful match, if any. *)
Fixpoint match_items (its : list item) (s : string) : option (list string) :=
  match its with
  | [] => if at_end s then Some [] else None
  | it :: rest =>
      first_some
        (λ k, match match_items rest (drop k s) with
              | Some gs => Some (if capturing it then take k s :: gs else gs)
              | None => None
              end)
        (counts it (span (cls it) s))
  end.

Definition space : ascii → bool := PyStr.isspace.

Definition hexdigit (c : ascii) : bool :=
  let n := N_of_ascii c in
  ((48 <=? n) && (n <=? 57) || (97 <=? n) && (n <=? 102)
   || (65 <=? n) && (n <=? 70))%N.

(** [.] without [re.DOTALL]: anything but a newline. *)
Definition dot (c : ascii) : bool := negb (PyStr.is_char "010" c).

End Re.

(** [line_re = re.compile(r'^\s*([0-9a-fA-F]+)\s+(.+?)\s*$')] *)
Definition line_re : list Re.item :=
  [ Re.Item Re.space 0 Re.Greedy false;
    Re.Item Re.hexdigit 1 Re.Greedy true;
    Re.Item Re.space 1 Re.Greedy false;
    Re.Item Re.dot 1 Re.Lazy true;
    Re.Item Re.space 0 Re.Greedy false ].

(** One turn of the loop of [parse_all_manifests]: [ln] is a line as the
    file iterator yields it, [paths] the list built so far. *)
Definition parse_line (paths : list string) (ln : string) : list string :=
  let ln := PyStr.rstrip (PyStr.is_char "010") ln in
  if PyStr.is_empty (PyStr.strip ln) then paths
  else match Re.match_items line_re ln with
       | Some [_; group2] => paths ++ [group2]
       | _ => paths ++ [PyStr.strip ln]
       end.

(** [parse_all_manifests], on the lines of the opened file. *)
Definition parse_all_manifests (lines : list string) : list string :=
  fold_left parse_line lines [].

(** ** Parsed JSON values *)

(** A Python [float]: the code only asks whether it is zero and what
    [int] makes of it, so a finite float is kept as [m * 2^e]. *)
Inductive pyfloat :=
| Finite (m e : Z)
| Infinite (negative : bool)
| NaN.

(** What [r.json()] returns.  A [JDict] lists the items of a parsed
    object, whose keys are distinct. *)
Inductive json :=
| JNull
| JBool (b : bool)
| JInt (z : Z)
| JFloat (x : pyfloat)
| JStr (s : string)
| JList (l : list json)
| JDict (kvs : list (string * json)).

Module Py.

(** [bool(v)]. *)
Definition truthy (v : json) : bool :=
  match v with
  | JNull => false
  | JBool b => b
  | JInt z => negb (z =? 0)%Z
  | JFloat (Finite m _) => negb (m =? 0)%Z
  | JFloat _ => true
  | JStr s => negb (PyStr.is_empty s)
  | JList l => match l with [] => false | _ => true end
  | JDict kvs => match kvs with [] => false | _ => true end
  end.

(** [d.get(k)] on the items of a dict: [None] when [k] is absent. *)
Fixpoint get (kvs : list (string * json)) (k : string) : option json :=
  match kvs with
  | [] => None
  | (k', v) :: rest => if decide (k' = k) then Some v else get rest k
  end.

(** [d.get(k, dflt)] and [d.get(k)] as values. *)
Definition get_or (kvs : list (string * json)) (k : string) (dflt : json)
  : json := default dflt (get kvs k).
Definition get_none (kvs : list (string * json)) (k : string) : json :=
  get_or kvs k JNull.

(** [type(v).__name__] *)
Definition type_name (v : json) : string :=
  match v with
  | JNull => "NoneType"
  | JBool _ => "bool"
  | JInt _ => "int"
  | JFloat _ => "float"
  | JStr _ => "str"
  | JList _ => "list"
  | JDict _ => "dict"
  end.

(** [int(x)] for a float: truncation towards zero; [None] is the
    [ValueError] or [OverflowError] for NaN and the infinities. *)
Definition int_of_float (x : pyfloat) : option Z :=
  match x with
  | Finite m e =>
      Some (if (0 <=? e)%Z then m * 2 ^ e else Z.quot m (2 ^ (- e)))%Z
  | _ => None
  end.

End Py.

(** ** Dimension fetcher *)

(** What [session.get], [raise_for_status] and [r.json()] come to for
    one request: the parsed body, or an exception [e], of which the code
    reads [str(e)] and the value of
    [getattr(e, 'response', None) and e.response.status_code or None]. *)
Inductive response :=
| Body (v : json)
| Failed (str_e : string) (status : json).

(** [fetch_info_json(service_id, session)]; [get] stands for
    [session.get] followed by [raise_for_status] and [json]. *)
Definition fetch_info_json (get : string → response) (service_id : string)
  : json :=
  let info_url := PyStr.rstrip (PyStr.is_char "/") service_id +:+ "/info.json" in
  match get info_url with
  | Body v => v
  | Failed e status =>
      JDict [("error", JStr e); ("status_code", status);
             ("info_url", JStr info_url)]
  end.

(** ** The IIIF builder, seen from its callers *)

(** The builder library is outside the repository.  An object built with
    it is modelled by the calls that were made on it and did not raise. *)
Inductive obj := Manifest | Canvas | AnnotationPage | Annotation | ImageBody
               | Service.

Inductive id_arg :=
| ExtendBase (ext : string)              (* set_id(extendbase_url=ext) *)
| ObjId (objid : string).                (* set_id(objid) *)

Inductive call :=
| set_id (o : obj) (a : id_arg)
| add_label (o : obj) (language text : string)
| add_behavior (behavior : string)
| add_canvas_to_items
| set_width (o : obj) (w : Z)
| set_height (o : obj) (h : Z)
| add_annotationpage_to_items
| add_annotation_to_items (target : string)
| set_motivation (motivation : string)
| set_type (o : obj) (t : string)
| set_format (format : string)
| add_service
| set_profile (profile : json).

(** A canvas of the manifest: [c_src] is a ghost field, the path in
    whose loop turn [add_canvas_to_items] created the canvas; [c_calls]
    are the calls made on the canvas and on the objects below it. *)
Record canvas := { c_src : string; c_calls : list call }.

(** The manifest under construction, with the process-wide
    [iiifpapi3.BASE_URL] it is built against. *)
Record manifest := {
  m_base : string;
  m_calls : list call;
  m_items : list canvas
}.

(** What the loop of [make_manifest_for_doc] carries. *)
Record assembly := {
  failures : list (string * string);
  canvases_created : nat;
  the_manifest : manifest
}.

(** What [main] accumulates; [files] are the manifest files written, in
    order, as (path, content). *)
Record run := {
  files : list (string * string);
  created_manifests : list (string * string * nat);
  report_lines : list string;
  total_failures : list (string * string * string)
}.

Definition MAX_WORKERS : nat := 8.

(** Line 117: the size of the thread pool for the items of a document. *)
Definition max_workers (items : list string) : nat :=
  MAX_WORKERS `min` (2 `max` length items).

(** ** Manifest assembler and driver *)

(** Python's [int] on a string, and the text an f-string gives a value
    that is not a string. *)
Class PyRuntime := {
  int_of_str : string → option Z;
  py_repr : json → string
}.

(** The builder library: how [set_id(extendbase_url=...)] joins
    [BASE_URL] and its argument; whether a call raises, and with which
    [str(e)], given [BASE_URL]; and [manifest.json_dumps()]. *)
Class IiifBuilder := {
  extendbase_url : string → string → string;
  raises : string → call → option string;
  json_dumps : manifest → outcome string
}.

Declare Scope builder_scope.

Section Generator.

Context `{PyRuntime} `{IiifBuilder}.

(** [int(v)]; [None] when it raises. *)
Definition py_int (v : json) : option Z :=
  match v with
  | JBool b => Some (if b then 1 else 0)%Z
  | JInt z => Some z
  | JFloat x => Py.int_of_float x
  | JStr s => int_of_str s
  | JNull | JList _ | JDict _ => None
  end.

(** [safe_int(v, default)] *)
Definition safe_int (v : json) (dflt : Z) : Z :=
  match py_int v with
  | Some z => z
  | None => dflt
  end.

(** [f"{v}"] *)
Definition fmt_value (v : json) : string :=
  match v with
  | JStr s => s
  | _ => py_repr v
  end.

(** *** Calls on the builder's objects

    A computation on the manifest keeps what it has changed when it
    raises. *)
Definition builder (A : Type) : Type := manifest → manifest * outcome A.

Definition ret {A} (a : A) : builder A := λ m, (m, Returned a).

Definition bind {A B} (x : builder A) (f : A → builder B) : builder B :=
  λ m, match x m with
       | (m', Returned a) => f a m'
       | (m', Raised e) => (m', Raised e)
       end.

Notation "x ;; y" := (bind x (λ _, y))
  (at level 100, y at level 200, right associativity) : builder_scope.
Local Open Scope builder_scope.

(** A call on the manifest object itself. *)
Definition on_manifest (c : call) : builder unit :=
  λ m, match raises (m_base m) c with
       | Some e => (m, Raised e)
       | None =>
           ({| m_base := m_base m; m_calls := m_calls m ++ [c];
               m_items := m_items m |}, Returned ())
       end.

(** [manifest.add_canvas_to_items()]: the new canvas is in
    [manifest.items] from this call on. *)
Definition new_canvas (p : string) : builder unit :=
  λ m, match raises (m_base m) add_canvas_to_items with
       | Some e => (m, Raised e)
       | None =>
           ({| m_base := m_base m; m_calls := m_calls m;
               m_items := m_items m ++ [{| c_src := p; c_calls := [] |}] |},
            Returned ())
       end.

(** The call [c] recorded on the last canvas of [items]. *)
Definition record_call (c : call) (items : list canvas) : list canvas :=
  match reverse items with
  | [] => []
  | cv :: before =>
      reverse before
        ++ [{| c_src := c_src cv; c_calls := c_calls cv ++ [c] |}]
  end.

(** A call on the canvas being built (the last of [manifest.items])
    or on an object below it. *)
Definition on_canvas (c : call) : builder unit :=
  λ m, match raises (m_base m) c with
       | Some e => (m, Raised e)
       | None =>
           ({| m_base := m_base m; m_calls := m_calls m;
               m_items := record_call c (m_items m) |}, Returned ())
       end.

(** *** [make_manifest_for_doc] *)

(** Lines 104-107: the value given to [iiifpapi3.BASE_URL]. *)
Definition base_url (iiif_presentation_base : string) : string :=
  if negb (PyStr.is_empty iiif_presentation_base)
  then PyStr.rstrip (PyStr.is_char "/") iiif_presentation_base +:+ "/"
  else "https://example.org/iiif/".

(** Lines 109-113. *)
Definition init_manifest (doc : string) : builder unit :=
  on_manifest (set_id Manifest (ExtendBase (doc +:+ ".json"))) ;;
  on_manifest (add_label Manifest "en" doc) ;;
  on_manifest (add_behavior "paged").

(** Lines 118-124: the futures submitted, as (path, service id), and
    the failures of [build_service_id]. *)
Definition submit (iiif_image_base project_segment : string)
    (acc : list (string * string) * list (string * string)) (p : string)
  : list (string * string) * list (string * string) :=
  let '(failures, jobs) := acc in
  match build_service_id iiif_image_base project_segment p with
  | Raised e => (failures ++ [(p, "service id build failed: " +:+ e)], jobs)
  | Returned service_id => (failures, jobs ++ [(p, service_id)])
  end.

(** The futures with their results: the [i]-th submitted request is
    answered by [net i]. *)
Definition run_jobs (net : nat → string → response)
    (jobs : list (string * string)) : list (string * string * json) :=
  imap (λ i '(p, service_id),
          (p, service_id, fetch_info_json (net i) service_id)) jobs.

(** Lines 127-131: [results[p] = (info, service_id)] for each future,
    in the order in which they complete. *)
Definition collect (completed : list (string * string * json))
  : gmap string (json * string) :=
  fold_left (λ results '(p, service_id, info),
               <[p := (info, service_id)]> results) completed ∅.

(** Lines 165-172. *)
Definition infer_format (info : list (string * json)) (p : string) : string :=
  let fmt :=
    match Py.get info "formats" with
    | Some (JList (_ :: _)) => Some "image/jpeg"
    | _ => None
    end in
  match fmt with
  | Some f => f
  | None =>
      if PyStr.endswith ".tif" (PyStr.lower p)
         || PyStr.endswith ".tiff" (PyStr.lower p)
      then "image/tiff" else "image/jpeg"
  end.

(** Lines 180-184. *)
Definition infer_profile (info : list (string * json)) : json :=
  match Py.get_none info "profile" with
  | JStr s => JStr s
  | JList (first :: _) => first
  | _ => JStr "level1"
  end.

(** Lines 150-185: the calls that follow [add_canvas_to_items] in the
    body of the [try], with their arguments, in order.  [n] is the
    counter after its increment. *)
Definition canvas_calls (base : string) (n : nat) (p service_id : string)
    (info : list (string * json)) (width height : Z) : list call :=
  [ set_id Canvas (ExtendBase ("canvas/p" +:+ PyStr.of_nat n));
    set_width Canvas width;
    set_height Canvas height;
    add_label Canvas "en" (PyStr.basename p);
    add_annotationpage_to_items;
    set_id AnnotationPage (ExtendBase ("page/p" +:+ PyStr.of_nat n +:+ "/1"));
    add_annotation_to_items
      (extendbase_url base ("canvas/p" +:+ PyStr.of_nat n));
    set_id Annotation
      (ExtendBase
         ("annotation/p" +:+ PyStr.zfill 4 (PyStr.of_nat n) +:+ "-image"));
    set_motivation "painting";
    set_id ImageBody (ObjId service_id);
    set_type ImageBody "Image";
    set_format (infer_format info p);
    set_width ImageBody width;
    set_height ImageBody height;
    add_service;
    set_id Service (ObjId service_id);
    set_type Service "ImageService3";
    set_profile (infer_profile info) ].

Fixpoint on_canvas_all (cs : list call) : builder unit :=
  match cs with
  | [] => ret ()
  | c :: rest => (on_canvas c ;; on_canvas_all rest)
  end.

(** Lines 149-185, the body of the [try] after the increment. *)
Definition build_canvas (n : nat) (p service_id : string)
    (info : list (string * json)) (width height : Z) : builder unit :=
  λ m,
    (new_canvas p ;;
     on_canvas_all
       (canvas_calls (m_base m) n p service_id info width height)) m.

(** Lines 135-190: one turn of the second loop.  For a value that is
    not a dict the test of line 140 is false, and [info.get] on line
    144 raises the [AttributeError] that is [Raised] here, which no
    handler of the function catches. *)
Definition process_item (results : gmap string (json * string))
    (st : assembly) (p : string) : outcome assembly :=
  match results !! p with
  | None => Returned st
  | Some (info, service_id) =>
      match info with
      | JDict kvs =>
          if Py.truthy (Py.get_none kvs "error")
          then
            Returned
              {| failures :=
                   failures st
                     ++ [(p, "info.json fetch failed for "
                             +:+ fmt_value
                                   (Py.get_or kvs "info_url"
                                      (JStr (service_id +:+ "/info.json")))
                             +:+ ": " +:+ fmt_value (Py.get_none kvs "error"))];
                 canvases_created := canvases_created st;
                 the_manifest := the_manifest st |}
          else
            let width := safe_int (Py.get_or kvs "width" (JInt 0)) 0 in
            let height := safe_int (Py.get_or kvs "height" (JInt 0)) 0 in
            let n := canvases_created st + 1 in
            match build_canvas n p service_id kvs width height
                    (the_manifest st) with
            | (m, Returned _) =>
                Returned {| failures := failures st;
                            canvases_created := n;
                            the_manifest := m |}
            | (m, Raised e) =>
                Returned
                  {| failures :=
                       failures st
                         ++ [(p, "manifest/canvas creation error: " +:+ e)];
                     canvases_created := n - 1;
                     the_manifest := m |}
            end
      | _ =>
          Raised ("'" +:+ Py.type_name info
                  +:+ "' object has no attribute 'get'")
      end
  end.

(** The second loop: an exception of a turn ends the function. *)
Fixpoint process_all (results : gmap string (json * string))
    (st : assembly) (items : list string) : outcome assembly :=
  match items with
  | [] => Returned st
  | p :: rest =>
      match process_item results st p with
      | Returned st' => process_all results st' rest
      | Raised e => Raised e
      end
  end.

(** [sorted(items)] *)
Definition sorted (items : list string) : list string :=
  merge_sort String.le items.

(** Lines 97-190: everything before [json_dumps].  [as_completed]
    gives the order in which the futures complete. *)
Definition assemble (net : nat → string → response)
    (as_completed : list (string * string * json)
                    → list (string * string * json))
    (doc : string) (items : list string)
    (iiif_image_base project_segment iiif_presentation_base : string)
  : outcome assembly :=
  let items := sorted items in
  let m0 := {| m_base := base_url iiif_presentation_base;
               m_calls := []; m_items := [] |} in
  match init_manifest doc m0 with
  | (_, Raised e) => Raised e
  | (m, Returned _) =>
      let '(failures, jobs) :=
        fold_left (submit iiif_image_base project_segment) items ([], []) in
      let results := collect (as_completed (run_jobs net jobs)) in
      process_all results
        {| failures := failures; canvases_created := 0; the_manifest := m |}
        items
  end.

(** [make_manifest_for_doc]: (manifest_json, created_count, failures),
    or the exception that leaves the function. *)
Definition make_manifest_for_doc (net : nat → string → response)
    (as_completed : list (string * string * json)
                    → list (string * string * json))
    (doc : string) (items : list string)
    (iiif_image_base project_segment iiif_presentation_base : string)
  : outcome (option string * nat * list (string * string)) :=
  match assemble net as_completed doc items iiif_image_base project_segment
          iiif_presentation_base with
  | Raised e => Raised e
  | Returned st =>
      match json_dumps (the_manifest st) with
      | Returned manifest_json =>
          Returned (Some manifest_json, canvases_created st, failures st)
      | Raised e =>
          Returned (None, canvases_created st,
                    failures st
                      ++ [("manifest_dumps", "json_dumps failed: " +:+ e)])
      end
  end.

(** *** [main] *)

(** Lines 215-218: [grouped[doc].append(p)]. *)
Definition group_path (grouped : gmap string (list string)) (p : string)
  : gmap string (list string) :=
  let '(doc, fname) := doc_and_filename_from_path p in
  <[doc := default [] (grouped !! doc) ++ [p]]> grouped.

Definition group_paths (paths : list string) : gmap string (list string) :=
  fold_left group_path paths ∅.

(** [sorted(grouped.items())]: the keys of a dict are distinct, so the
    comparison of two items is decided by their keys. *)
Definition sorted_items (grouped : gmap string (list string))
  : list (string * list string) :=
  merge_sort (λ a b, String.le a.1 b.1) (map_to_list grouped).

(** [os.path.join(a, b)] *)
Definition path_join (a b : string) : string :=
  if PyStr.startswith "/" b then b
  else if PyStr.is_empty a || PyStr.endswith "/" a then a +:+ b
  else a +:+ "/" +:+ b.

(** Lines 230-248: one document. *)
Definition process_doc (net : string → nat → string → response)
    (as_completed : string → list (string * string * json)
                    → list (string * string * json))
    (output_dir iiif_image_base project_segment iiif_presentation_base
       : string)
    (r : run) (item : string * list string) : outcome run :=
  let '(doc, items) := item in
  match make_manifest_for_doc (net doc) (as_completed doc) doc items
          iiif_image_base project_segment iiif_presentation_base with
  | Raised e => Raised e
  | Returned (manifest_json, created_count, failures) =>
      let extended :=
        total_failures r ++ map (λ '(p, msg), (doc, p, msg)) failures in
      match manifest_json with
      | Some (String c s) =>
          let out_path := path_join output_dir (doc +:+ ".json") in
          Returned
            {| files := files r ++ [(out_path, String c s)];
               created_manifests :=
                 created_manifests r ++ [(doc, out_path, created_count)];
               report_lines :=
                 report_lines r
                   ++ ["- " +:+ doc +:+ ": created "
                       +:+ PyStr.of_nat created_count
                       +:+ " canvases -> " +:+ out_path];
               total_failures := extended |}
      | _ =>
          Returned
            {| files := files r;
               created_manifests := created_manifests r;
               report_lines :=
                 report_lines r
                   ++ ["- " +:+ doc
                       +:+ ": FAILED to create manifest (no json produced)"];
               total_failures := extended |}
      end
  end.

Fixpoint process_docs (net : string → nat → string → response)
    (as_completed : string → list (string * string * json)
                    → list (string * string * json))
    (output_dir iiif_image_base project_segment iiif_presentation_base
       : string)
    (r : run) (docs : list (string * list string)) : outcome run :=
  match docs with
  | [] => Returned r
  | d :: rest =>
      match process_doc net as_completed output_dir iiif_image_base
              project_segment iiif_presentation_base r d with
      | Returned r' =>
          process_docs net as_completed output_dir iiif_image_base
            project_segment iiif_presentation_base r' rest
      | Raised e => Raised e
      end
  end.

(** [main], from the lines of the input file to what the report is
    written from.  An exception ends the run before the report. *)
Definition main (net : string → nat → string → response)
    (as_completed : string → list (string * string * json)
                    → list (string * string * json))
    (lines : list string)
    (output_dir iiif_image_base project_segment iiif_presentation_base
       : string) : outcome run :=
  let paths := parse_all_manifests lines in
  let grouped := group_paths paths in
  process_docs net as_completed output_dir iiif_image_base project_segment
    iiif_presentation_base
    {| files := []; created_manifests := []; report_lines := [];
       total_failures := [] |}
    (sorted_items grouped).

(** The report file, by section, and the two counts of the summary
    printed at the end (lines 250-268). *)
Definition report_created (r : run) : list (string * nat * string) :=
  map (λ '(doc, path, cnt), (doc, cnt, path)) (created_manifests r).
Definition report_failures (r : run) : list (string * string * string) :=
  total_failures r.
Definition summary (r : run) : nat * nat :=
  (length (created_manifests r), length (total_failures r)).

End Generator.

(** ** Notions used to state the properties *)

(** The path begins with http:// or https://. *)
Definition is_url (path : string) : Prop :=
  PyStr.startswith "http://" path = true
  ∨ PyStr.startswith "https://" path = true.

(** The document key [main] groups a path under. *)
Definition doc_key (p : string) : string := (doc_and_filename_from_path p).1.

(** Every character of [s] satisfies [P]. *)
Fixpoint all_chars (P : ascii → bool) (s : string) : bool :=
  match s with
  | "" => true
  | String c s' => P c && all_chars P s'
  end.

(** What a successful match of [its] against [s] may capture: each item
    takes [k] characters of its class, at least [at_least], and [$]
    holds of what is left. *)
Fixpoint captures (its : list Re.item) (s : string) (gs : list string) : Prop :=
  match its with
  | [] => Re.at_end s = true ∧ gs = []
  | it :: rest =>
      ∃ k gs', Re.at_least it ≤ k ≤ Re.span (Re.cls it) s
               ∧ captures rest (Re.drop k s) gs'
               ∧ gs = if Re.capturing it then Re.take k s :: gs' else gs'
  end.

(** The lines [line_re] matches, with the two groups. *)
Definition checksum_line (s hex path : string) : Prop :=
  ∃ ws0 ws1 ws2,
    s = ws0 +:+ hex +:+ ws1 +:+ path +:+ ws2
    ∧ all_chars Re.space ws0 = true
    ∧ all_chars Re.hexdigit hex = true ∧ hex ≠ ""
    ∧ all_chars Re.space ws1 = true ∧ ws1 ≠ ""
    ∧ all_chars Re.dot path = true ∧ path ≠ ""
    ∧ all_chars Re.space ws2 = true.

(** The first call of [cs] that raises, with its position. *)
Fixpoint first_raise `{IiifBuilder} (base : string) (cs : list call)
  : option (nat * string) :=
  match cs with
  | [] => None
  | c :: rest =>
      match raises base c with
      | Some e => Some (0, e)
      | None =>
          match first_raise base rest with
          | Some (k, e) => Some (S k, e)
          | None => None
          end
      end
  end.

(** The manifest with one more canvas. *)
Definition with_canvas (m : manifest) (cv : canvas) : manifest :=
  {| m_base := m_base m; m_calls := m_calls m; m_items := m_items m ++ [cv] |}.

(** Whether a loop turn adds a canvas to the manifest, by what
    [results] holds for its path: there is a result, it is a dict
    without a truthy "error", and [add_canvas_to_items] does not
    raise. *)
Definition adds_canvas `{IiifBuilder} (base : string)
    (result : option (json * string)) : bool :=
  match result with
  | Some (JDict kvs, _) =>
      negb (Py.truthy (Py.get_none kvs "error"))
      && match raises base add_canvas_to_items with
         | None => true
         | Some _ => false
         end
  | _ => false
  end.

(** What [submit] makes of a path: a future, or a failure. *)
Definition job_of (iiif_image_base project_segment p : string)
  : option (string * string) :=
  match build_service_id iiif_image_base project_segment p with
  | Returned service_id => Some (p, service_id)
  | Raised _ => None
  end.

(** The failure [submit] records for a path that does not resolve. *)
Definition resolution_failure (iiif_image_base project_segment p : string)
  : option (string * string) :=
  match build_service_id iiif_image_base project_segment p with
  | Returned _ => None
  | Raised e => Some (p, "service id build failed: " +:+ e)
  end.

(** The result of a path when the answer to a request depends on its
    URL alone: [get] answers for the session. *)
Definition result_of (get : string → response)
    (iiif_image_base project_segment p : string) : option (json * string) :=
  match build_service_id iiif_image_base project_segment p with
  | Returned service_id => Some (fetch_info_json get service_id, service_id)
  | Raised _ => None
  end.

(** A canvas as some turn of the loop leaves it: a prefix of the calls
    of the [try] body, made for the path [c_src] and its result. *)
Definition built_from `{IiifBuilder} (results : gmap string (json * string))
    (base : string) (cv : canvas) : Prop :=
  ∃ n kvs service_id width height k,
    results !! c_src cv = Some (JDict kvs, service_id)
    ∧ c_calls cv
      = take k (canvas_calls base n (c_src cv) service_id kvs width height).

(** The argument of the first [set_id] made on a canvas. *)
Definition canvas_id_arg (cv : canvas) : option id_arg :=
  head (omap (λ c, match c with set_id Canvas a => Some a | _ => None end)
          (c_calls cv)).

(** The id the loop gives the [n]-th canvas. *)
Definition nth_canvas_id (n : nat) : option id_arg :=
  Some (ExtendBase ("canvas/p" +:+ PyStr.of_nat n)).

(** *** Concrete collaborators, for running the generator *)

(** A Python whose [int] refuses every string. *)
Definition plain_python : PyRuntime :=
  {| int_of_str := λ _, None; py_repr := λ _, "<value>" |}.

(** A builder that joins ids by concatenation, accepts every call and
    serializes to a fixed text. *)
Definition lenient_builder : IiifBuilder :=
  {| extendbase_url := String.append;
     raises := λ _ _, None;
     json_dumps := λ _, Returned "{}" |}.

(** A builder that refuses an object id that does not begin with
    "http". *)
Definition strict_builder : IiifBuilder :=
  {| extendbase_url := String.append;
     raises := λ _ c,
       match c with
       | set_id _ (ObjId i) =>
           if PyStr.startswith "http" i then None
           else Some "ID must start with http or https"
       | _ => None
       end;
     json_dumps := λ _, Returned "{}" |}.

(** A builder whose serialization fails. *)
Definition failing_dumps_builder : IiifBuilder :=
  {| extendbase_url := String.append;
     raises := λ _ _, None;
     json_dumps := λ _, Raised "not serializable" |}.

(** An image service that answers every request with the same
    dimensions. *)
Definition good_info : json :=
  JDict [("width", JInt 1000); ("height", JInt 2000)].
Definition net_good : nat → string → response := λ _ _, Body good_info.

(** An image service that fails for [img1.jpg]. *)
Definition net_img1_down : string → nat → string → response :=
  λ _ _ url,
    if PyStr.endswith "/img1.jpg/info.json" url
    then Failed "404 Client Error" JNull
    else Body good_info.

(** An image service whose answer for [img1.jpg] is a JSON array. *)
Definition net_array : string → nat → string → response :=
  λ _ _ url,
    if PyStr.endswith "/img1.jpg/info.json" url then Body (JList [])
    else Body good_info.

(** A builder that refuses a width that is not positive, with the
    message [e]. *)
Definition width_checking_builder (e : string) : IiifBuilder :=
  {| extendbase_url := String.append;
     raises := λ _ c,
       match c with
       | set_width _ w => if (w <=? 0)%Z then Some e else None
       | _ => None
       end;
     json_dumps := λ _, Returned "{}" |}.

(** An image service whose answer for [img1.jpg] has no width. *)
Definition net_no_width : string → nat → string → response :=
  λ _ _ url,
    if PyStr.endswith "/img1.jpg/info.json" url
    then Body (JDict [("height", JInt 2000)])
    else Body good_info.

(** The canvas ids of the manifest are p1, p2, ..., pn for the counter
    n. *)
Definition indices_contiguous (st : assembly) : Prop :=
  canvas_id_arg <$> m_items (the_manifest st)
  = nth_canvas_id <$> seq 1 (canvases_created st).



(** The dict by which [fetch_info_json] reports a failed request. *)
Definition error_dict (info_url str_e : string) (status : json) : json :=
  JDict [("error", JStr str_e); ("status_code", status);
         ("info_url", JStr info_url)].

(** The URL [fetch_info_json] requests for a service id. *)
Definition info_url_of (service_id : string) : string :=
  PyStr.rstrip (PyStr.is_char "/") service_id +:+ "/info.json".

(** The message of the failure recorded for a result with an error. *)
Definition fetch_failure_message `{PyRuntime} (kvs : list (string * json))
    (service_id : string) : string :=
  "info.json fetch failed for "
  +:+ fmt_value (Py.get_or kvs "info_url" (JStr (service_id +:+ "/info.json")))
  +:+ ": " +:+ fmt_value (Py.get_none kvs "error").

(** The id the builder gives an object for an argument of [set_id]. *)
Definition resolved_id `{IiifBuilder} (base : string) (a : id_arg) : string :=
  match a with
  | ExtendBase ext => extendbase_url base ext
  | ObjId objid => objid
  end.

(** A run of [k] slashes. *)
Fixpoint slashes (k : nat) : string :=
  match k with O => "" | S k' => String "/" (slashes k') end.

(** A line feed, as a string. *)
Definition nl : string := String "010" "".

(** ** Notions used to state the further properties *)

(** [sep.join(l)] *)
Fixpoint join (sep : string) (l : list string) : string :=
  match l with
  | [] => ""
  | x :: rest =>
      match rest with
      | [] => x
      | _ :: _ => x +:+ sep +:+ join sep rest
      end
  end.

(** The character [c] occurs in [s]. *)
Fixpoint has_char (c : ascii) (s : string) : bool :=
  match s with
  | "" => false
  | String d s' => PyStr.is_char c d || has_char c s'
  end.

(** The canvas went through the whole body of the [try]: the last call
    made on it is [set_profile]. *)
Definition complete (cv : canvas) : bool :=
  match last (c_calls cv) with
  | Some (set_profile _) => true
  | _ => false
  end.

(** The line has a character that is not whitespace: the parser does
    not skip it. *)
Definition nonblank (ln : string) : bool :=
  negb (all_chars PyStr.isspace ln).

(** The documents of a run, in the order in which [main] processes
    them. *)
Definition documents (lines : list string) : list string :=
  (sorted_items (group_paths (parse_all_manifests lines))).*1.

(** A check that [old] occurs in [s] nowhere but as its suffix. *)
Fixpoint only_suffix (old s : string) : bool :=
  match s with
  | "" => true
  | String _ s' =>
      (if PyStr.startswith old s
       then Nat.eqb (String.length s) (String.length old)
       else true)
      && only_suffix old s'
  end.

(** The counter is the number of complete canvases of the manifest. *)
Definition counts_complete (st : assembly) : Prop :=
  canvases_created st
  = length (filter (λ cv, complete cv = true) (m_items (the_manifest st))).

(** * Properties *)

(** ** The embedding on concrete inputs *)

Example resolve_relative_path :
  build_service_id "https://iiif.ub.unibe.ch/image/v3/" "ceresa" "A/img1.jpg"
  = Returned "https://iiif.ub.unibe.ch/image/v3/ceresa/img1.jpg".
Proof. vm_compute. reflexivity. Qed.

Example resolve_without_base :
  build_service_id "" "ceresa" "A/img1.jpg"
  = Raised "No IIIF_IMAGE_BASE provided and path is not a URL: A/img1.jpg".
Proof. vm_compute. reflexivity. Qed.

Example key_of_nested_path :
  doc_and_filename_from_path "x/A/img1.jpg" = ("A", "img1.jpg").
Proof. vm_compute. reflexivity. Qed.

Example key_of_bare_name :
  doc_and_filename_from_path " img1.jpg " = ("root", "img1.jpg").
Proof. vm_compute. reflexivity. Qed.

Example annotation_number : PyStr.zfill 4 (PyStr.of_nat 12) = "0012".
Proof. vm_compute. reflexivity. Qed.

Example split_keeps_empty_segments :
  PyStr.split "/" "a//b/" = ["a"; ""; "b"; ""].
Proof. vm_compute. reflexivity. Qed.

Example parse_mixed_lines :
  parse_all_manifests
    [ "d41d8cd9  A/img1.jpg" +:+ nl; nl; "   " +:+ nl; "B/img 2.jpg  " +:+ nl;
      " cafe latte.jpg" +:+ nl; "abc   " +:+ nl; "abc " +:+ nl; "deadbeef";
      "0a1 https://h/x/info.json" ]
  = [ "A/img1.jpg"; "B/img 2.jpg"; "latte.jpg"; " "; "abc"; "deadbeef";
      "https://h/x/info.json" ].
Proof. vm_compute. reflexivity. Qed.

(** The scenarios of the specification: two documents, all fetches
    succeed; one document, the fetch for the first image fails. *)
Example two_documents :
  @main plain_python lenient_builder (λ _, net_good) (λ _, id)
    ["A/img1.jpg"; "A/img2.jpg"; "B/img1.jpg"] "out"
    "https://iiif.ub.unibe.ch/image/v3/" "ceresa" ""
  = Returned
      {| files := [("out/A.json", "{}"); ("out/B.json", "{}")];
         created_manifests := [("A", "out/A.json", 2); ("B", "out/B.json", 1)];
         report_lines := ["- A: created 2 canvases -> out/A.json";
                          "- B: created 1 canvases -> out/B.json"];
         total_failures := [] |}.
Proof. vm_compute. reflexivity. Qed.

Example first_fetch_fails :
  @main plain_python lenient_builder net_img1_down (λ _, id)
    ["A/img1.jpg"; "A/img2.jpg"] "out"
    "https://iiif.ub.unibe.ch/image/v3/" "ceresa" ""
  = Returned
      {| files := [("out/A.json", "{}")];
         created_manifests := [("A", "out/A.json", 1)];
         report_lines := ["- A: created 1 canvases -> out/A.json"];
         total_failures :=
           [("A", "A/img1.jpg",
             "info.json fetch failed for "
             +:+ "https://iiif.ub.unibe.ch/image/v3/ceresa/img1.jpg/info.json"
             +:+ ": 404 Client Error")] |}.
Proof. vm_compute. reflexivity. Qed.

(** ** Facts about the string methods *)

Module PyStrFacts.
Import PyStr.

Lemma app_cons c a b : String c a +:+ b = String c (a +:+ b).
Proof. reflexivity. Qed.

Lemma app_empty_l s : "" +:+ s = s.
Proof. reflexivity. Qed.

Lemma app_empty_r s : s +:+ "" = s.
Proof. induction s as [|c s IH]; [done|]. by rewrite app_cons, IH. Qed.

Lemma app_assoc a b c : (a +:+ b) +:+ c = a +:+ b +:+ c.
Proof. induction a as [|x a IH]; [done|]. by rewrite !app_cons, IH. Qed.

Lemma app_length a b :
  String.length (a +:+ b) = String.length a + String.length b.
Proof. induction a as [|x a IH]; [done|]. rewrite app_cons. simpl. lia. Qed.

Lemma is_empty_true s : is_empty s = true ↔ s = "".
Proof. by destruct s. Qed.

Lemma startswith_spec pre s :
  startswith pre s = true ↔ ∃ t, s = pre +:+ t.
Proof.
  revert s. induction pre as [|a pre IH]; intros s; simpl.
  - split; [eauto|done].
  - destruct s as [|b s]; [split; [done|by intros [? ?]]|].
    case_decide as Hab.
    + subst b. rewrite IH. split.
      * intros [t ->]. by exists t.
      * intros [t Ht]. rewrite app_cons in Ht. injection Ht as ->. eauto.
    + split; [done|]. intros [t Ht]. rewrite app_cons in Ht. congruence.
Qed.

Lemma rstrip_keep P c s :
  P c = false → rstrip P (String c s) = String c (rstrip P s).
Proof. intros H. simpl. rewrite H. by rewrite andb_false_r. Qed.

Lemma lstrip_keep P c s :
  P c = false → lstrip P (String c s) = String c s.
Proof. intros H. simpl. by rewrite H. Qed.

(** Stripping a subclass of characters first changes nothing. *)
Lemma rstrip_rstrip (P Q : ascii → bool) s :
  (∀ c, Q c = true → P c = true) →
  rstrip P (rstrip Q s) = rstrip P s.
Proof.
  intros HQP. induction s as [|c s IH]; [done|].
  simpl. destruct (is_empty (rstrip Q s) && Q c) eqn:E.
  - apply andb_true_iff in E as [E1 E2]. apply is_empty_true in E1.
    rewrite E1 in IH. simpl in IH. rewrite <- IH. simpl.
    by rewrite (HQP _ E2).
  - simpl. by rewrite IH.
Qed.

Lemma lstrip_rstrip (P Q : ascii → bool) s :
  (∀ c, Q c = true → P c = true) →
  lstrip P (rstrip Q s) = rstrip Q (lstrip P s).
Proof.
  intros HQP. induction s as [|c s IH]; [done|].
  simpl. destruct (P c) eqn:HP.
  - destruct (is_empty (rstrip Q s) && Q c) eqn:E.
    + apply andb_true_iff in E as [E1 E2]. apply is_empty_true in E1.
      rewrite <- IH, E1. done.
    + simpl. by rewrite HP.
  - assert (Q c = false) as HQ.
    { destruct (Q c) eqn:HQ; [|done]. apply HQP in HQ. congruence. }
    rewrite HQ, andb_false_r. simpl. by rewrite HP, HQ, andb_false_r.
Qed.

Lemma strip_rstrip (Q : ascii → bool) s :
  (∀ c, Q c = true → isspace c = true) →
  strip (rstrip Q s) = strip s.
Proof.
  intros H. unfold strip, strip_with.
  by rewrite lstrip_rstrip, rstrip_rstrip.
Qed.

Lemma rstrip_app_keep P a b :
  rstrip P a = a → a ≠ "" → rstrip P (a +:+ b) = a +:+ rstrip P b.
Proof.
  induction a as [|c a IH]; [done|]. intros H _.
  rewrite !app_cons. simpl in *.
  destruct (is_empty (rstrip P a) && P c) eqn:E; [done|].
  injection H as H. destruct a as [|d a].
  - simpl in E. rewrite !app_empty_l. by rewrite E, andb_false_r.
  - rewrite IH by done. rewrite app_cons. simpl.
    done.
Qed.

(** Deleting the occurrences of [old] where there is none. *)
Lemma remove_all_absent old s :
  (∀ a b, s ≠ a +:+ old +:+ b) → remove_all old s = s.
Proof.
  unfold remove_all. induction s as [|c s IH]; [done|]. intros H.
  cbn [remove_go].
  destruct (startswith old (String c s)) eqn:E.
  - apply startswith_spec in E as [t Ht]. by destruct (H "" t).
  - f_equal. apply IH. intros a b ->. by apply (H (String c a) b).
Qed.

Lemma remove_go_skip old s t :
  remove_go old (String.length s) (s +:+ t) = remove_go old 0 t.
Proof.
  induction s as [|c s IH]; [done|]. rewrite app_cons. simpl.
  apply IH.
Qed.

(** Deleting [old] where it occurs once, as the suffix. *)
Lemma remove_all_suffix old u :
  old ≠ "" →
  (∀ a b, u +:+ old = a +:+ old +:+ b → b = "") →
  remove_all old (u +:+ old) = u.
Proof.
  intros Hold. unfold remove_all. induction u as [|c u IH]; intros H.
  - rewrite app_empty_l. destruct old as [|d old]; [done|].
    cbn [remove_go].
    assert (startswith (String d old) (String d old) = true) as ->.
    { apply startswith_spec. exists "". by rewrite app_empty_r. }
    simpl. rewrite Nat.sub_0_r.
    rewrite <- (app_empty_r old) at 3. by rewrite remove_go_skip.
  - rewrite app_cons. cbn [remove_go].
    destruct (startswith old (String c (u +:+ old))) eqn:E.
    + apply startswith_spec in E as [t Ht].
      specialize (H "" t). rewrite app_cons, app_empty_l in H.
      specialize (H Ht). subst t. rewrite app_empty_r in Ht.
      apply (f_equal String.length) in Ht. simpl in Ht.
      rewrite app_length in Ht. lia.
    + f_equal. apply IH. intros a b Hab.
      apply (H (String c a) b). by rewrite !app_cons, Hab.
Qed.

End PyStrFacts.

(** ** Service-ID resolver *)

Import PyStrFacts.

Lemma strip_keeps_scheme path : is_url path → is_url (PyStr.strip path).
Proof.
  unfold is_url, PyStr.strip, PyStr.strip_with.
  intros [H|H]; apply startswith_spec in H as [t ->]; [left|right];
    apply startswith_spec; exists (PyStr.rstrip PyStr.isspace t);
    rewrite !app_cons, !app_empty_l; rewrite lstrip_keep by reflexivity;
    repeat (rewrite rstrip_keep by reflexivity); done.
Qed.

Lemma build_service_id_url iiif_base project_segment path :
  is_url path →
  build_service_id iiif_base project_segment path
  = Returned
      (PyStr.remove_all "/info.json"
         (PyStr.rstrip (PyStr.is_char "/") (PyStr.strip path))).
Proof.
  intros H%strip_keeps_scheme. unfold build_service_id.
  destruct H as [-> | ->]; [done|]. by rewrite orb_true_r.
Qed.

(** What line 64 computes.  For a path that begins with http:// or
    https://, the result is the whitespace-trimmed path with its
    trailing slashes stripped and then every occurrence of /info.json
    deleted; the base URL and the project segment play no part.  Where
    /info.json occurs only as the suffix, exactly that suffix is
    stripped; where it does not occur, nothing is. *)
Theorem url_service_id (iiif_base project_segment path : string) :
  is_url path →
  let url := PyStr.rstrip (PyStr.is_char "/") (PyStr.strip path) in
  build_service_id iiif_base project_segment path
  = Returned (PyStr.remove_all "/info.json" url)
  ∧ build_service_id iiif_base project_segment path
    = build_service_id "" "" path
  ∧ (∀ u, url = u +:+ "/info.json" →
          (∀ a b, url = a +:+ "/info.json" +:+ b → b = "") →
          build_service_id iiif_base project_segment path = Returned u)
  ∧ ((∀ a b, url ≠ a +:+ "/info.json" +:+ b) →
     build_service_id iiif_base project_segment path = Returned url).
Proof.
  intros Hurl url. rewrite !(build_service_id_url _ _ _ Hurl). fold url.
  repeat split.
  - intros u Hu Honce. f_equal. rewrite Hu. apply remove_all_suffix; [done|].
    by rewrite <- Hu.
  - intros Habsent. f_equal. by apply remove_all_absent.
Qed.

Lemma url_service_id_witness :
  is_url "https://h/a/info.json/"
  ∧ build_service_id "https://iiif.ub.unibe.ch/image/v3/" "ceresa"
      "https://h/a/info.json/"
    = Returned "https://h/a".
Proof.
  assert (is_url "https://h/a/info.json/") as Hurl by (right; reflexivity).
  split; [exact Hurl|].
  exact (proj1 (url_service_id "https://iiif.ub.unibe.ch/image/v3/" "ceresa"
                  "https://h/a/info.json/" Hurl)).
Defined.

(** C5 at a failing input.  A URL that has /info.json in the middle
    and neither a trailing slash nor the suffix is not used as it is:
    [replace] deletes the inner /info.json.  A doubled suffix is
    deleted twice, not once. *)
Theorem url_service_id_not_suffix_only :
  is_url "https://h/info.json/b"
  ∧ PyStr.endswith "/" "https://h/info.json/b" = false
  ∧ PyStr.endswith "/info.json" "https://h/info.json/b" = false
  ∧ build_service_id "" "" "https://h/info.json/b" = Returned "https://h/b"
  ∧ build_service_id "" "" "https://h/a/info.json/info.json"
    = Returned "https://h/a".
Proof. unfold is_url. vm_compute. auto. Qed.

(** ** Document grouper *)

Lemma split_nonempty sep s : PyStr.split sep s ≠ [].
Proof.
  destruct s as [|c s]; [done|]. simpl.
  case_decide; [done|]. by destruct (PyStr.split sep s).
Qed.

Lemma doc_key_segments p :
  let parts := PyStr.split "/" (PyStr.strip p) in
  (length parts = 1 → doc_key p = "root")
  ∧ (2 ≤ length parts → parts !! (length parts - 2) = Some (doc_key p)).
Proof.
  intros parts. unfold doc_key, doc_and_filename_from_path. fold parts.
  rewrite <- (length_reverse parts).
  destruct (reverse parts) as [|l [|b r]] eqn:E; simpl; split; try lia; try done.
  intros _.
  assert (reverse parts !! 1 = Some b) as H by by rewrite E.
  rewrite reverse_lookup in H by (rewrite <- (length_reverse parts), E; simpl; lia).
  rewrite <- H. f_equal. rewrite <- (length_reverse parts), E. simpl. lia.
Qed.

Lemma group_fold (paths : list string) (g : gmap string (list string)) d :
  fold_left group_path paths g !! d
  = match filter (λ p, doc_key p = d) paths with
    | [] => g !! d
    | f => Some (default [] (g !! d) ++ f)
    end.
Proof.
  revert g. induction paths as [|p ps IH]; intros g; [done|].
  cbn [fold_left]. rewrite IH. unfold group_path.
  pose proof (eq_refl : doc_key p = (doc_and_filename_from_path p).1) as Hk.
  destruct (doc_and_filename_from_path p) as [k fname]. simpl in Hk.
  rewrite filter_cons. destruct (decide (doc_key p = d)) as [Hd|Hd].
  - rewrite Hk in Hd. subst d. rewrite lookup_insert_eq. simpl.
    destruct (filter _ ps); [done|]. by rewrite <- (assoc_L (++)).
  - rewrite Hk in Hd. by rewrite lookup_insert_ne.
Qed.

Lemma group_paths_lookup (paths : list string) d :
  group_paths paths !! d
  = match filter (λ p, doc_key p = d) paths with
    | [] => None
    | f => Some f
    end.
Proof.
  unfold group_paths. rewrite group_fold, lookup_empty. done.
Qed.

(** C6. The document key of a path is the second-to-last segment of
    the split path when there are at least two segments, and "root"
    when there is one; the group of a key holds exactly the input paths
    with that key, so two paths with the same parent segment are in the
    same group, in whatever order the input lists them. *)
Theorem grouping_by_parent_segment (paths : list string) (p1 p2 : string) :
  p1 ∈ paths → p2 ∈ paths → doc_key p1 = doc_key p2 →
  let parts := PyStr.split "/" (PyStr.strip p1) in
  (length parts = 1 → doc_key p1 = "root")
  ∧ (2 ≤ length parts → parts !! (length parts - 2) = Some (doc_key p1))
  ∧ ∃ g, group_paths paths !! doc_key p1 = Some g
         ∧ g = filter (λ p, doc_key p = doc_key p1) paths
         ∧ p1 ∈ g ∧ p2 ∈ g
         ∧ ∀ paths', paths' ≡ₚ paths →
             ∃ g', group_paths paths' !! doc_key p1 = Some g' ∧ g' ≡ₚ g.
Proof.
  intros H1 H2 Hk parts.
  destruct (doc_key_segments p1) as [Hone Htwo]. fold parts in Hone, Htwo.
  split; [done|]. split; [done|].
  set (P := λ p, doc_key p = doc_key p1).
  assert (p1 ∈ filter P paths) as Hin1 by (apply list_elem_of_filter; done).
  assert (p2 ∈ filter P paths) as Hin2 by (apply list_elem_of_filter; done).
  exists (filter P paths). rewrite group_paths_lookup. fold P.
  repeat split; try done.
  - destruct (filter P paths); [by apply elem_of_nil in Hin1|done].
  - intros paths' Hperm. exists (filter P paths').
    rewrite group_paths_lookup. fold P. split; [|by rewrite Hperm].
    assert (p1 ∈ filter P paths') as Hin' by by rewrite Hperm.
    destruct (filter P paths'); [by apply elem_of_nil in Hin'|done].
Qed.

Lemma grouping_by_parent_segment_witness :
  ∃ g, group_paths ["A/img2.jpg"; "B/img1.jpg"; "A/img1.jpg"] !! "A" = Some g
       ∧ "A/img2.jpg" ∈ g ∧ "A/img1.jpg" ∈ g.
Proof.
  destruct (grouping_by_parent_segment
              ["A/img2.jpg"; "B/img1.jpg"; "A/img1.jpg"]
              "A/img2.jpg" "A/img1.jpg") as (_ & _ & g & Hg & _ & Hin1 & Hin2 & _).
  - apply list_elem_of_In. simpl. auto.
  - apply list_elem_of_In. simpl. auto.
  - reflexivity.
  - exists g. split; [exact Hg|]. split; assumption.
Defined.

(** ** The pattern of a checksum line *)

Module ReFacts.
Import Re.

Lemma all_chars_app P a b :
  all_chars P (a +:+ b) = all_chars P a && all_chars P b.
Proof.
  induction a as [|c a IH]; [done|]. rewrite app_cons. simpl.
  by rewrite IH, andb_assoc.
Qed.

Lemma take_drop k s : take k s +:+ drop k s = s.
Proof.
  revert s. induction k as [|k IH]; intros [|c s]; try done.
  simpl. by rewrite app_cons, IH.
Qed.

Lemma take_app_length a b : take (String.length a) (a +:+ b) = a.
Proof. induction a as [|c a IH]; [by destruct b|]. simpl. by rewrite IH. Qed.

Lemma drop_app_length a b : drop (String.length a) (a +:+ b) = b.
Proof. induction a as [|c a IH]; [by destruct b|]. done. Qed.

Lemma span_app P a b :
  all_chars P a = true →
  span P (a +:+ b) = String.length a + span P b.
Proof.
  induction a as [|c a IH]; [done|]. simpl.
  intros [Hc Ha]%andb_true_iff. rewrite Hc. by rewrite IH.
Qed.

Lemma span_all P a : all_chars P a = true → span P a = String.length a.
Proof.
  intros H. rewrite <- (app_empty_r a) at 1. rewrite span_app by done.
  simpl. lia.
Qed.

Lemma drop_length a : drop (String.length a) a = "".
Proof. rewrite <- (app_empty_r a) at 2. apply drop_app_length. Qed.

Lemma span_take P k s : k ≤ span P s → all_chars P (take k s) = true.
Proof.
  revert s. induction k as [|k IH]; intros [|c s]; try done.
  simpl. destruct (P c); [|lia]. intros H. apply IH. lia.
Qed.

Lemma take_length P k s : k ≤ span P s → String.length (take k s) = k.
Proof.
  revert s. induction k as [|k IH]; intros [|c s]; simpl; try done; try lia.
  destruct (P c); [|lia]. intros H. f_equal. apply IH. lia.
Qed.

Lemma span_drop_all P k s :
  k ≤ span P s → all_chars P (drop k s) = all_chars P s.
Proof.
  revert s. induction k as [|k IH]; intros [|c s]; try done.
  simpl. destruct (P c); [|lia]. intros H. apply IH. lia.
Qed.

Lemma at_end_space s : at_end s = true → all_chars space s = true.
Proof.
  unfold at_end. repeat case_decide; subst; try done.
Qed.

Lemma elem_of_counts it n k :
  k ∈ counts it n ↔ at_least it ≤ k ≤ n.
Proof.
  unfold counts. destruct (how it); rewrite ?elem_of_reverse, elem_of_seq; lia.
Qed.

Lemma first_some_Some {A B} (f : A → option B) l y :
  first_some f l = Some y → ∃ x, x ∈ l ∧ f x = Some y.
Proof.
  induction l as [|x l IH]; [done|]. simpl.
  destruct (f x) eqn:E.
  - intros [= <-]. exists x. split; [left|done].
  - intros (x' & ? & ?)%IH. exists x'. split; [by right|done].
Qed.

Lemma first_some_None {A B} (f : A → option B) l :
  first_some f l = None ↔ ∀ x, x ∈ l → f x = None.
Proof.
  induction l as [|x l IH]; simpl.
  - split; [|done]. intros _ x Hx. by apply elem_of_nil in Hx.
  - destruct (f x) eqn:E.
    + split; [done|]. intros H. rewrite <- E. apply H. left.
    + rewrite IH. split.
      * intros H x' [->|Hx']%elem_of_cons; auto.
      * intros H x' Hx'. apply H. by right.
Qed.

Lemma first_some_app {A B} (f : A → option B) l1 l2 :
  (∀ x, x ∈ l1 → f x = None) →
  first_some f (l1 ++ l2) = first_some f l2.
Proof.
  induction l1 as [|x l1 IH]; [done|]. intros H. simpl.
  rewrite (H x) by left. apply IH. intros x' ?. apply H. by right.
Qed.

(** The matcher is sound and complete for [captures]. *)
Lemma match_items_sound its s gs :
  match_items its s = Some gs → captures its s gs.
Proof.
  revert s gs. induction its as [|it rest IH]; intros s gs; simpl.
  - destruct (at_end s); [|done]. by intros [= <-].
  - intros (k & Hk & Hf)%first_some_Some.
    apply elem_of_counts in Hk.
    destruct (match_items rest (drop k s)) as [gs'|] eqn:E; [|done].
    injection Hf as <-. exists k, gs'. split; [done|]. split; [by apply IH|done].
Qed.

Lemma match_items_complete its s gs :
  captures its s gs → ∃ gs', match_items its s = Some gs'.
Proof.
  revert s gs. induction its as [|it rest IH]; intros s gs; simpl.
  - intros [-> _]. eauto.
  - intros (k & gs' & Hk & Hrest & _).
    destruct (first_some _ _) eqn:E; [eauto|].
    rewrite first_some_None in E. specialize (E k).
    rewrite elem_of_counts in E. specialize (E Hk).
    apply IH in Hrest as [gs'' Hrest]. by rewrite Hrest in E.
Qed.

(** [captures] for [line_re] is [checksum_line]. *)
Lemma captures_line_re s gs :
  captures line_re s gs →
  ∃ hex path, gs = [hex; path] ∧ checksum_line s hex path.
Proof.
  unfold line_re. simpl.
  intros (k0 & g0 & [_ H0] & (k1 & g1 & [L1 H1] & (k2 & g2 & [L2 H2]
           & (k3 & g3 & [L3 H3] & (k4 & g4 & [_ H4] & [Hend ->] & ->)
           & ->) & ->) & ->) & ->).
  set (s1 := drop k0 s) in *. set (s2 := drop k1 s1) in *.
  set (s3 := drop k2 s2) in *. set (s4 := drop k3 s3) in *.
  exists (take k1 s1), (take k3 s3). split; [done|].
  exists (take k0 s), (take k2 s2), s4.
  assert (∀ P k t, 1 ≤ k → k ≤ span P t → take k t ≠ "") as Hne.
  { intros P k t ? Hk E. apply (take_length P) in Hk. rewrite E in Hk.
    simpl in Hk. lia. }
  repeat split; eauto using span_take.
  - unfold s4. rewrite take_drop. unfold s3. rewrite take_drop.
    unfold s2. rewrite take_drop. unfold s1. by rewrite take_drop.
  - rewrite <- (span_drop_all space k4 s4) by done.
    by apply at_end_space.
Qed.

Lemma checksum_line_captures s hex path :
  checksum_line s hex path → ∃ gs, captures line_re s gs.
Proof.
  intros (ws0 & ws1 & ws2 & -> & H0 & H1 & N1 & H2 & N2 & H3 & N3 & H4).
  assert (∀ a, a ≠ "" → 1 ≤ String.length a) as Hlen.
  { intros [|??] ?; [done|simpl; lia]. }
  eexists. unfold line_re. simpl.
  exists (String.length ws0); eexists. split; [rewrite span_app by done; lia|].
  rewrite drop_app_length. split; [|reflexivity].
  exists (String.length hex); eexists.
  split; [rewrite span_app by done; split; [auto|lia]|].
  rewrite drop_app_length. split; [|reflexivity].
  exists (String.length ws1); eexists.
  split; [rewrite span_app by done; split; [auto|lia]|].
  rewrite drop_app_length. split; [|reflexivity].
  exists (String.length path); eexists.
  split; [rewrite span_app by done; split; [auto|lia]|].
  rewrite drop_app_length. split; [|reflexivity].
  exists (String.length ws2); eexists.
  split; [rewrite span_all by done; lia|].
  rewrite drop_length. done.
Qed.

End ReFacts.

(** ** Path parser *)

Module ParserFacts.
Import Re ReFacts.

Lemma hexdigit_not_space c : hexdigit c = true → space c = false.
Proof. destruct c as [[] [] [] [] [] [] [] []]; vm_compute; congruence. Qed.

Lemma newline_is_space c : PyStr.is_char "010" c = true → space c = true.
Proof. unfold PyStr.is_char. case_decide; [by subst|done]. Qed.

Lemma dot_not_newline c : dot c = true → PyStr.is_char "010" c = false.
Proof. unfold dot. by destruct (PyStr.is_char _ c). Qed.

Lemma all_chars_impl (P Q : ascii → bool) s :
  (∀ c, P c = true → Q c = true) →
  all_chars P s = true → all_chars Q s = true.
Proof.
  intros H. induction s as [|c s IH]; [done|]. simpl.
  intros [?%H ?%IH]%andb_true_iff. by apply andb_true_iff.
Qed.

Lemma span_first (P Q : ascii → bool) a b :
  (∀ c, Q c = true → P c = false) →
  all_chars Q a = true → a ≠ "" → span P (a +:+ b) = 0.
Proof.
  intros H. destruct a as [|c a]; [done|]. simpl.
  intros [Hc%H _]%andb_true_iff _. by rewrite Hc.
Qed.

Lemma lstrip_length P s :
  String.length (PyStr.lstrip P s) ≤ String.length s.
Proof.
  induction s as [|c s IH]; [done|]. simpl.
  destruct (P c); simpl; lia.
Qed.

Lemma span_lstripped P a b :
  PyStr.lstrip P a = a → a ≠ "" → span P (a +:+ b) = 0.
Proof.
  destruct a as [|c a]; [done|]. simpl. intros H _.
  destruct (P c); [|done].
  pose proof (lstrip_length P a) as Hl. rewrite H in Hl. simpl in Hl. lia.
Qed.

Lemma rstripped_drop P a b j :
  PyStr.rstrip P a = a → j < String.length a →
  all_chars P (drop j (a +:+ b)) = false.
Proof.
  revert j. induction a as [|c a IH]; intros j; simpl; [lia|].
  destruct (PyStr.is_empty (PyStr.rstrip P a) && P c) eqn:E; [done|].
  intros [= Ha] Hj. destruct j as [|j].
  - simpl. destruct a as [|d a].
    + simpl in E. by rewrite E.
    + pose proof (IH 0 Ha ltac:(simpl; lia)) as H0. simpl in H0.
      rewrite app_cons. cbn [all_chars]. by rewrite H0, andb_false_r.
  - simpl. apply IH; [done|lia].
Qed.

Lemma counts_greedy it n :
  how it = Greedy → at_least it ≤ n →
  ∃ l, counts it n = n :: l.
Proof.
  intros Hg Hn. unfold counts. rewrite Hg.
  replace (S n - at_least it) with (S (n - at_least it)) by lia.
  rewrite seq_S, reverse_snoc.
  replace (at_least it + (n - at_least it)) with n by lia. eauto.
Qed.

Lemma counts_lazy it n k :
  how it = Lazy → at_least it ≤ k ≤ n →
  ∃ l, counts it n = seq (at_least it) (k - at_least it) ++ k :: l.
Proof.
  intros Hl Hk. unfold counts. rewrite Hl.
  replace (S n - at_least it) with ((k - at_least it) + S (n - k)) by lia.
  rewrite seq_app. simpl.
  replace (at_least it + (k - at_least it)) with k by lia. eauto.
Qed.

(** A greedy item takes the whole run when the rest then matches. *)
Lemma greedy_step it rest a b gs :
  how it = Greedy → all_chars (cls it) a = true → span (cls it) b = 0 →
  at_least it ≤ String.length a →
  match_items rest b = Some gs →
  match_items (it :: rest) (a +:+ b)
  = Some (if capturing it then a :: gs else gs).
Proof.
  intros Hg Ha Hb Hn Hrest. cbn [match_items].
  rewrite span_app, Hb, Nat.add_0_r by done.
  destruct (counts_greedy it (String.length a)) as [l ->]; [done..|].
  cbn [first_some]. by rewrite drop_app_length, take_app_length, Hrest.
Qed.

(** A lazy item stops at the first count after which the rest
    matches. *)
Lemma lazy_step it rest a b gs :
  how it = Lazy → all_chars (cls it) a = true →
  at_least it ≤ String.length a →
  match_items rest b = Some gs →
  (∀ j, j < String.length a → match_items rest (drop j (a +:+ b)) = None) →
  match_items (it :: rest) (a +:+ b)
  = Some (if capturing it then a :: gs else gs).
Proof.
  intros Hl Ha Hn Hrest Hnone. cbn [match_items].
  destruct (counts_lazy it (span (cls it) (a +:+ b)) (String.length a))
    as [l ->]; [done| |].
  { rewrite span_app by done. lia. }
  rewrite first_some_app.
  - cbn [first_some]. by rewrite drop_app_length, take_app_length, Hrest.
  - intros j [_ Hj]%elem_of_seq. rewrite Hnone; [done|lia].
Qed.

Lemma trailing_space_none t :
  all_chars space t = false →
  match_items [Item space 0 Greedy false] t = None.
Proof.
  intros H. cbn [match_items]. apply first_some_None.
  intros k [_ Hk]%elem_of_counts.
  destruct (at_end (drop k t)) eqn:E; [|done].
  apply at_end_space in E. rewrite span_drop_all in E by done. congruence.
Qed.

Lemma trailing_space_some t :
  all_chars space t = true →
  match_items [Item space 0 Greedy false] t = Some [].
Proof.
  intros H. rewrite <- (app_empty_r t).
  by apply (greedy_step (Item space 0 Greedy false) [] t "" []);
    simpl; try lia.
Qed.

(** The groups of a checksum line whose path is trimmed. *)
Lemma line_re_trimmed ws0 hex ws1 path ws2 :
  all_chars space ws0 = true →
  all_chars hexdigit hex = true → hex ≠ "" →
  all_chars space ws1 = true → ws1 ≠ "" →
  all_chars dot path = true → path ≠ "" →
  PyStr.lstrip space path = path → PyStr.rstrip space path = path →
  all_chars space ws2 = true →
  match_items line_re (ws0 +:+ hex +:+ ws1 +:+ path +:+ ws2)
  = Some [hex; path].
Proof.
  intros H0 H1 N1 H2 N2 H3 N3 L3 R3 H4.
  assert (∀ a, a ≠ "" → 1 ≤ String.length a) as Hlen.
  { intros [|??] ?; [done|simpl; lia]. }
  unfold line_re.
  apply (greedy_step (Item space 0 Greedy false) _ ws0 _ [hex; path]);
    [done|done| |simpl; lia|].
  { by apply (span_first _ hexdigit); [apply hexdigit_not_space|..]. }
  apply (greedy_step (Item hexdigit 1 Greedy true) _ hex _ [path]);
    [done|done| |simpl; auto|].
  { apply (span_first _ space); [|done..].
    intros c Hc. destruct (hexdigit c) eqn:E; [|done].
    apply hexdigit_not_space in E. unfold space in *. congruence. }
  apply (greedy_step (Item space 1 Greedy false) _ ws1 _ [path]);
    [done|done| |simpl; auto|].
  { by apply span_lstripped. }
  apply (lazy_step (Item dot 1 Lazy true) _ path _ []);
    [done|done|simpl; auto| |].
  { by apply trailing_space_some. }
  intros j Hj. apply trailing_space_none. by apply rstripped_drop.
Qed.

Lemma rstrip_length P s :
  String.length (PyStr.rstrip P s) ≤ String.length s.
Proof.
  induction s as [|c s IH]; [done|]. simpl.
  destruct (_ && _); simpl; lia.
Qed.

Lemma strip_fixed s :
  PyStr.strip s = s →
  PyStr.lstrip space s = s ∧ PyStr.rstrip space s = s.
Proof.
  unfold PyStr.strip, PyStr.strip_with, space. intros H.
  assert (PyStr.lstrip PyStr.isspace s = s) as L; [|by rewrite L in H].
  pose proof (rstrip_length PyStr.isspace (PyStr.lstrip PyStr.isspace s)) as H1.
  rewrite H in H1. destruct s as [|c s]; [done|]. simpl in *.
  destruct (PyStr.isspace c); [|done].
  pose proof (lstrip_length PyStr.isspace s). lia.
Qed.

Lemma rstrip_app_r P x y :
  PyStr.rstrip P y = y → y ≠ "" → PyStr.rstrip P (x +:+ y) = x +:+ y.
Proof.
  intros Hy Hne. induction x as [|c x IH]; [done|].
  rewrite app_cons. simpl. rewrite IH.
  destruct (x +:+ y) eqn:E; [|done].
  destruct x; [|done]. by rewrite app_empty_l in E.
Qed.

Lemma rstrip_all_not (P Q : ascii → bool) s :
  (∀ c, Q c = true → P c = false) →
  all_chars Q s = true → PyStr.rstrip P s = s.
Proof.
  intros H. induction s as [|c s IH]; [done|]. simpl.
  intros [Hc%H Hs%IH]%andb_true_iff. by rewrite Hc, Hs, andb_false_r.
Qed.

Lemma all_rstrip_sub (P Q : ascii → bool) s :
  all_chars P s = true → all_chars P (PyStr.rstrip Q s) = true.
Proof.
  induction s as [|c s IH]; [done|]. simpl.
  intros [Hc Hs%IH]%andb_true_iff.
  destruct (_ && _); [done|]. simpl. by rewrite Hc, Hs.
Qed.

Lemma all_lstrip P s :
  all_chars P (PyStr.lstrip P s) = all_chars P s.
Proof. induction s as [|c s IH]; [done|]. simpl. by destruct (P c) eqn:E; simpl; rewrite ?E. Qed.

Lemma rstrip_empty_all P s : PyStr.rstrip P s = "" → all_chars P s = true.
Proof.
  induction s as [|c s IH]; [done|]. simpl.
  destruct (PyStr.is_empty (PyStr.rstrip P s) && P c) eqn:E; [|done].
  apply andb_true_iff in E as [E1%is_empty_true E2]. intros _.
  by rewrite E2, IH.
Qed.

Lemma all_rstrip_empty P s : all_chars P s = true → PyStr.rstrip P s = "".
Proof.
  induction s as [|c s IH]; [done|]. simpl.
  intros [Hc Hs]%andb_true_iff. by rewrite IH, Hc.
Qed.

Lemma strip_empty_iff s :
  PyStr.is_empty (PyStr.strip s) = true ↔ all_chars PyStr.isspace s = true.
Proof.
  rewrite is_empty_true. unfold PyStr.strip, PyStr.strip_with. split.
  - intros H%rstrip_empty_all. by rewrite all_lstrip in H.
  - intros H. apply all_rstrip_empty. by rewrite all_lstrip.
Qed.

Lemma blank_body ln :
  PyStr.is_empty (PyStr.strip (PyStr.rstrip (PyStr.is_char "010") ln))
  = PyStr.is_empty (PyStr.strip ln).
Proof. by rewrite strip_rstrip by apply newline_is_space. Qed.

Lemma checksum_line_not_blank s hex path :
  checksum_line s hex path → all_chars space s = false.
Proof.
  intros (ws0 & ws1 & ws2 & -> & _ & H1 & N1 & _).
  rewrite !all_chars_app. destruct hex as [|c hex]; [done|].
  simpl in *. apply andb_true_iff in H1 as [Hc%hexdigit_not_space _].
  rewrite Hc. simpl. by rewrite andb_false_r.
Qed.

Lemma parse_line_acc acc ln : parse_line acc ln = acc ++ parse_line [] ln.
Proof.
  unfold parse_line. destruct (PyStr.is_empty _); [by rewrite app_nil_r|].
  destruct (match_items _ _) as [[|? [|? [|? ?]]]|]; done.
Qed.

Lemma parse_fold lines acc :
  fold_left parse_line lines acc = acc ++ parse_all_manifests lines.
Proof.
  unfold parse_all_manifests. revert acc.
  induction lines as [|ln lines IH]; intros acc; simpl.
  - by rewrite app_nil_r.
  - rewrite IH, (IH (parse_line [] ln)), (parse_line_acc acc).
    by rewrite <- (assoc_L (++)).
Qed.

Lemma parse_app l1 l2 :
  parse_all_manifests (l1 ++ l2)
  = parse_all_manifests l1 ++ parse_all_manifests l2.
Proof.
  unfold parse_all_manifests at 1. rewrite fold_left_app.
  by rewrite parse_fold.
Qed.

End ParserFacts.

Section ParserContract.

Import Re ReFacts ParserFacts.

(** C7. The parser keeps the order of the lines; a blank line gives
    nothing; a line that matches checksum, whitespace, path gives the
    path group of such a reading, which is the path itself when the
    path is trimmed; any other line that is not blank gives the whole
    line, trimmed.  The parser is a total function: no line makes it
    raise. *)
Theorem parser_contract (before after : list string) (ln : string) :
  let body := PyStr.rstrip (PyStr.is_char "010") ln in
  parse_all_manifests (before ++ ln :: after)
  = parse_all_manifests before ++ parse_all_manifests [ln]
      ++ parse_all_manifests after
  ∧ (all_chars PyStr.isspace ln = true → parse_all_manifests [ln] = [])
  ∧ (∀ hex path, checksum_line body hex path →
       ∃ hex' path', checksum_line body hex' path'
                     ∧ parse_all_manifests [ln] = [path'])
  ∧ (∀ ws0 hex ws1 path ws2,
       ln = ws0 +:+ hex +:+ ws1 +:+ path +:+ ws2 →
       all_chars Re.space ws0 = true →
       all_chars Re.hexdigit hex = true → hex ≠ "" →
       all_chars Re.space ws1 = true → ws1 ≠ "" →
       all_chars Re.dot path = true → path ≠ "" →
       PyStr.strip path = path →
       all_chars Re.space ws2 = true →
       parse_all_manifests [ln] = [path])
  ∧ (all_chars PyStr.isspace ln = false →
     (∀ hex path, ¬ checksum_line body hex path) →
     parse_all_manifests [ln] = [PyStr.strip ln]).
Proof.
  intros body. split; [|split; [|split; [|split]]].
  - change (ln :: after) with ([ln] ++ after). by rewrite !parse_app.
  - intros Hblank. unfold parse_all_manifests. simpl. unfold parse_line.
    rewrite blank_body. apply strip_empty_iff in Hblank. by rewrite Hblank.
  - intros hex path Hline.
    pose proof (checksum_line_not_blank _ _ _ Hline) as Hnb.
    destruct (checksum_line_captures _ _ _ Hline) as [gs Hgs].
    destruct (match_items_complete _ _ _ Hgs) as [gs' Hm].
    destruct (captures_line_re _ _ (match_items_sound _ _ _ Hm))
      as (hex' & path' & -> & Hline').
    exists hex', path'. split; [done|].
    unfold parse_all_manifests. simpl. unfold parse_line. fold body.
    destruct (PyStr.is_empty (PyStr.strip body)) eqn:E.
    { apply strip_empty_iff in E. unfold space in Hnb. congruence. }
    by rewrite Hm.
  - intros ws0 hex ws1 path ws2 -> H0 H1 N1 H2 N2 H3 N3 Hstrip H4.
    apply strip_fixed in Hstrip as [L3 R3].
    unfold parse_all_manifests. simpl. unfold parse_line.
    assert (PyStr.rstrip (PyStr.is_char "010")
              (ws0 +:+ hex +:+ ws1 +:+ path +:+ ws2)
            = ws0 +:+ hex +:+ ws1 +:+ path
                +:+ PyStr.rstrip (PyStr.is_char "010") ws2) as ->.
    { rewrite <- !(app_assoc _ _ ws2), <- !(app_assoc _ _ path).
      rewrite rstrip_app_keep; [by rewrite !app_assoc| |].
      - apply rstrip_app_r; [|done].
        apply (rstrip_all_not _ dot); [apply dot_not_newline|done].
      - intros E%(f_equal String.length). rewrite !app_length in E.
        destruct path; [done|simpl in E; lia]. }
    rewrite line_re_trimmed; auto using all_rstrip_sub.
    destruct (PyStr.is_empty _) eqn:E; [|done].
    apply strip_empty_iff in E. rewrite !all_chars_app in E.
    destruct hex as [|c hex]; [done|]. simpl in *.
    apply andb_true_iff in H1 as [Hc%hexdigit_not_space _].
    unfold space in Hc. rewrite Hc in E. simpl in E.
    by rewrite andb_false_r in E.
  - intros Hnb Hno. unfold parse_all_manifests. simpl. unfold parse_line.
    rewrite blank_body. fold body.
    destruct (PyStr.is_empty (PyStr.strip ln)) eqn:E.
    { apply strip_empty_iff in E. congruence. }
    destruct (match_items line_re body) as [gs|] eqn:Hm.
    + destruct (captures_line_re _ _ (match_items_sound _ _ _ Hm))
        as (hex & path & _ & Hline). by destruct (Hno hex path).
    + unfold body. by rewrite strip_rstrip by apply newline_is_space.
Qed.

End ParserContract.

(** ** The builder calls of one canvas *)

Section GeneratorFacts.

Context `{PyRuntime} `{IiifBuilder}.

Lemma record_call_last c its cv :
  record_call c (its ++ [cv])
  = its ++ [{| c_src := c_src cv; c_calls := c_calls cv ++ [c] |}].
Proof.
  unfold record_call. by rewrite reverse_snoc, reverse_involutive.
Qed.

(** The calls on the canvas under construction, up to the first that
    raises, are recorded on it. *)
Lemma on_canvas_all_run cs base mc its src done_ :
  on_canvas_all cs
    {| m_base := base; m_calls := mc;
       m_items := its ++ [{| c_src := src; c_calls := done_ |}] |}
  = match first_raise base cs with
    | None =>
        ({| m_base := base; m_calls := mc;
            m_items := its ++ [{| c_src := src; c_calls := done_ ++ cs |}] |},
         Returned ())
    | Some (k, e) =>
        ({| m_base := base; m_calls := mc;
            m_items :=
              its ++ [{| c_src := src; c_calls := done_ ++ take k cs |}] |},
         Raised e)
    end.
Proof.
  revert done_. induction cs as [|c cs IH]; intros done_.
  - simpl. by rewrite app_nil_r.
  - cbn [on_canvas_all first_raise].
    unfold bind, on_canvas at 1. cbn [m_base m_items m_calls].
    destruct (raises base c) as [e|].
    + by rewrite take_0, app_nil_r.
    + rewrite record_call_last. cbn [c_src c_calls]. rewrite IH.
      destruct (first_raise base cs) as [[k e]|];
        by rewrite <- (assoc_L (++)).
Qed.

Lemma build_canvas_run n p service_id info width height m :
  build_canvas n p service_id info width height m
  = match raises (m_base m) add_canvas_to_items with
    | Some e => (m, Raised e)
    | None =>
        let cs := canvas_calls (m_base m) n p service_id info width height in
        match first_raise (m_base m) cs with
        | None =>
            (with_canvas m {| c_src := p; c_calls := cs |}, Returned ())
        | Some (k, e) =>
            (with_canvas m {| c_src := p; c_calls := take k cs |}, Raised e)
        end
    end.
Proof.
  unfold build_canvas, bind, new_canvas.
  destruct (raises (m_base m) add_canvas_to_items) as [e|]; [done|].
  cbv zeta. destruct m as [base mc its]. cbn [m_base m_calls m_items].
  by rewrite on_canvas_all_run.
Qed.

End GeneratorFacts.

(** ** The loop over the sorted paths *)

Section LoopFacts.

Context `{PyRuntime} `{IiifBuilder}.

Lemma process_item_shape results st p st' :
  process_item results st p = Returned st' →
  m_base (the_manifest st') = m_base (the_manifest st)
  ∧ m_calls (the_manifest st') = m_calls (the_manifest st)
  ∧ ∃ new,
      m_items (the_manifest st') = m_items (the_manifest st) ++ new
      ∧ c_src <$> new
        = (if adds_canvas (m_base (the_manifest st)) (results !! p)
           then [p] else [])
      ∧ Forall (built_from results (m_base (the_manifest st))) new.
Proof.
  unfold process_item, adds_canvas.
  destruct (results !! p) as [[info service_id]|] eqn:Hres.
  2:{ intros [= <-]. repeat split. exists []. by rewrite app_nil_r. }
  destruct info as [| | | | | |kvs]; try done.
  destruct (Py.truthy (Py.get_none kvs "error")).
  { intros [= <-]. repeat split. exists []. by rewrite app_nil_r. }
  rewrite build_canvas_run.
  destruct (raises (m_base (the_manifest st)) add_canvas_to_items).
  { intros [= <-]. repeat split. exists []. by rewrite app_nil_r. }
  cbv zeta.
  set (cs := canvas_calls _ _ _ _ _ _ _).
  assert (∀ k, built_from results (m_base (the_manifest st))
                 {| c_src := p; c_calls := take k cs |}) as Hb.
  { intros k. unfold built_from. cbn [c_src c_calls]. by repeat eexists. }
  destruct (first_raise _ cs) as [[k e]|]; intros [= <-];
    cbn [the_manifest with_canvas m_base m_calls m_items];
    repeat split; eexists [_]; (split; [done|]); (split; [done|]);
    apply Forall_singleton; [apply Hb|].
  rewrite <- (firstn_all cs). apply Hb.
Qed.

Lemma process_all_shape results st items st' :
  process_all results st items = Returned st' →
  m_base (the_manifest st') = m_base (the_manifest st)
  ∧ m_calls (the_manifest st') = m_calls (the_manifest st)
  ∧ ∃ new,
      m_items (the_manifest st') = m_items (the_manifest st) ++ new
      ∧ c_src <$> new
        = filter (λ p, adds_canvas (m_base (the_manifest st)) (results !! p) = true)
            items
      ∧ Forall (built_from results (m_base (the_manifest st))) new.
Proof.
  revert st. induction items as [|p items IH]; intros st; simpl.
  - intros [= <-]. repeat split. exists []. by rewrite app_nil_r.
  - destruct (process_item results st p) as [st1|] eqn:E1; [|done].
    apply process_item_shape in E1 as (Hb1 & Hc1 & new1 & Hi1 & Hs1 & Hf1).
    intros (Hb & Hc & new & Hi & Hs & Hf)%IH.
    rewrite Hb1 in Hb, Hs, Hf. rewrite Hc1 in Hc. rewrite Hi1 in Hi.
    split; [done|]. split; [done|]. exists (new1 ++ new).
    split; [by rewrite Hi, (assoc_L (++))|].
    split; [|by apply Forall_app].
    rewrite fmap_app, Hs1, Hs, filter_cons.
    destruct (adds_canvas _ (results !! p)); by case_decide.
Qed.

Lemma init_manifest_run doc m0 m :
  init_manifest doc m0 = (m, Returned ()) →
  m_base m = m_base m0 ∧ m_items m = m_items m0
  ∧ m_calls m
    = m_calls m0 ++ [set_id Manifest (ExtendBase (doc +:+ ".json"));
                     add_label Manifest "en" doc; add_behavior "paged"].
Proof.
  unfold init_manifest, bind, on_manifest. destruct m0 as [base mc its].
  cbn [m_base m_calls m_items].
  repeat (destruct (raises base _); [done|]; cbn [m_base m_calls m_items]).
  intros [= <-]. cbn [m_base m_calls m_items].
  by rewrite <- !(assoc_L (++)).
Qed.

(** *** The futures and the [results] dict *)

Lemma submit_fold iiif_image_base project_segment items fs js :
  fold_left (submit iiif_image_base project_segment) items (fs, js)
  = (fs ++ omap (resolution_failure iiif_image_base project_segment) items,
     js ++ omap (job_of iiif_image_base project_segment) items).
Proof.
  revert fs js. induction items as [|p items IH]; intros fs js; simpl.
  - by rewrite !app_nil_r.
  - unfold submit at 1, resolution_failure at 1, job_of at 1.
    destruct (build_service_id _ _ p); rewrite IH;
      by rewrite <- (assoc_L (++)).
Qed.

Lemma run_jobs_per_path net jobs :
  (∀ i url, net i url = net 0 url) →
  run_jobs net jobs
  = (λ '(p, service_id),
       (p, service_id, fetch_info_json (net 0) service_id)) <$> jobs.
Proof.
  intros Hnet. unfold run_jobs. rewrite <- imap_const. apply imap_ext.
  intros i [p sid] _. simpl. unfold fetch_info_json. by rewrite Hnet.
Qed.

Lemma collect_fold (f : string → json * string) completed
    (results : gmap string (json * string)) p :
  (∀ q sid info, (q, sid, info) ∈ completed → f q = (info, sid)) →
  fold_left (λ results '(p, service_id, info),
               <[p := (info, service_id)]> results) completed results !! p
  = if decide (p ∈ (λ x, x.1.1) <$> completed) then Some (f p)
    else results !! p.
Proof.
  revert results. induction completed as [|[[q sid] info] l IH];
    intros results Hf; [done|].
  cbn [fold_left]. rewrite IH by (intros; apply Hf; by right).
  rewrite fmap_cons. cbn [fst].
  destruct (decide (p ∈ _ <$> l)) as [Hin|Hin].
  - rewrite decide_True; [done|by right].
  - destruct (decide (p = q)) as [->|Hne].
    + rewrite lookup_insert_eq, decide_True by left.
      by rewrite (Hf q sid info) by left.
    + rewrite lookup_insert_ne by done.
      rewrite decide_False; [done|].
      by intros [?|?]%elem_of_cons.
Qed.

Lemma elem_of_futures get iiif_image_base project_segment
    (items : list string) q sid info :
  (q, sid, info)
    ∈ (λ '(p, service_id), (p, service_id, fetch_info_json get service_id))
        <$> omap (job_of iiif_image_base project_segment) items
  ↔ q ∈ items
    ∧ build_service_id iiif_image_base project_segment q = Returned sid
    ∧ info = fetch_info_json get sid.
Proof.
  rewrite list_elem_of_fmap. split.
  - intros ([q' sid'] & Heq & (q'' & Hin & Hj)%list_elem_of_omap).
    unfold job_of in Hj.
    destruct (build_service_id _ _ q'') eqn:E; [|done].
    simplify_eq. done.
  - intros (Hin & Hb & ->). exists (q, sid). split; [done|].
    apply list_elem_of_omap. exists q. unfold job_of. by rewrite Hb.
Qed.

(** With one answer per URL, [results] holds for each path its own
    result, in whatever order the futures complete. *)
Lemma results_lookup net as_completed iiif_image_base project_segment
    (items : list string) p :
  (∀ i url, net i url = net 0 url) →
  (∀ l, as_completed l ≡ₚ l) →
  p ∈ items →
  collect (as_completed
             (run_jobs net
                (omap (job_of iiif_image_base project_segment) items))) !! p
  = result_of (net 0) iiif_image_base project_segment p.
Proof.
  intros Hnet Hperm Hp. unfold collect.
  rewrite (collect_fold
             (λ q, match result_of (net 0) iiif_image_base project_segment q
                   with Some r => r | None => (JNull, "") end)).
  - rewrite lookup_empty. unfold result_of.
    destruct (build_service_id iiif_image_base project_segment p)
      as [sid|e] eqn:E.
    + rewrite decide_True; [done|].
      rewrite Hperm, run_jobs_per_path by done.
      apply list_elem_of_fmap. exists (p, sid, fetch_info_json (net 0) sid).
      split; [done|]. by apply elem_of_futures.
    + rewrite decide_False; [done|].
      rewrite Hperm, run_jobs_per_path by done.
      intros ([[q sid] info] & Hq & (_ & Hb & _)%elem_of_futures)%list_elem_of_fmap.
      simpl in Hq. subst q. congruence.
  - intros q sid info. rewrite Hperm, run_jobs_per_path by done.
    intros (_ & Hb & ->)%elem_of_futures.
    unfold result_of. by rewrite Hb.
Qed.

End LoopFacts.

(** ** Canvas order *)

Section OrderFacts.

Context `{PyRuntime} `{IiifBuilder}.

Lemma process_all_ext (results results' : gmap string (json * string))
    st (items : list string) :
  (∀ p, p ∈ items → results !! p = results' !! p) →
  process_all results st items = process_all results' st items.
Proof.
  revert st. induction items as [|p items IH]; intros st Hext; [done|].
  simpl.
  assert (process_item results st p = process_item results' st p) as ->.
  { unfold process_item. by rewrite (Hext p) by left. }
  destruct (process_item results' st p); [|done].
  apply IH. intros q Hq. apply Hext. by right.
Qed.

Lemma filter_ext_in {A} (P Q : A → Prop) `{∀ x, Decision (P x)}
    `{∀ x, Decision (Q x)} (l : list A) :
  (∀ x, x ∈ l → P x ↔ Q x) → filter P l = filter Q l.
Proof.
  induction l as [|x l IH]; intros Hext; [done|].
  rewrite !filter_cons, IH by (intros; apply Hext; by right).
  destruct (decide (P x)) as [HP|HP], (decide (Q x)) as [HQ|HQ];
    try done; exfalso; apply (Hext x) in HP || apply HP, (Hext x);
    done || left.
Qed.

Lemma StronglySorted_filter {A} (R : relation A) (P : A → Prop)
    `{∀ x, Decision (P x)} (l : list A) :
  StronglySorted R l → StronglySorted R (filter P l).
Proof.
  induction 1 as [|x l Hl IH Hx]; [constructor|].
  rewrite filter_cons. case_decide; [|done].
  constructor; [done|]. apply Forall_forall.
  intros y [_ Hy]%list_elem_of_filter. rewrite Forall_forall in Hx. auto.
Qed.

Lemma sorted_spec items :
  StronglySorted String.le (sorted items) ∧ sorted items ≡ₚ items.
Proof.
  split; [apply StronglySorted_merge_sort; apply _|].
  apply merge_sort_Permutation.
Qed.

(** [sorted] is the only sorted rearrangement of the items. *)
Lemma sorted_unique items l :
  Sorted String.le l → l ≡ₚ items → l = sorted items.
Proof.
  intros Hs Hp. apply (Sorted_unique String.le); [done| |].
  - apply Sorted_merge_sort. apply _.
  - unfold sorted. by rewrite merge_sort_Permutation.
Qed.

Lemma assemble_per_path net as_completed doc items iiif_image_base
    project_segment iiif_presentation_base :
  (∀ i url, net i url = net 0 url) →
  (∀ l, as_completed l ≡ₚ l) →
  assemble net as_completed doc items iiif_image_base project_segment
    iiif_presentation_base
  = assemble net id doc items iiif_image_base project_segment
      iiif_presentation_base.
Proof.
  intros Hnet Hperm. unfold assemble.
  destruct (init_manifest doc _) as [m [[]|e]]; [|done].
  rewrite submit_fold. cbn [app].
  apply process_all_ext. intros p Hp.
  by rewrite !results_lookup.
Qed.

End OrderFacts.

(** C1. With one answer per URL, what the assembler produces does not
    depend on the order in which the futures complete; the canvases of
    the manifest come from the paths that get a canvas, in the order of
    the sorted path list, which is the lexicographic order of the path
    strings. *)
Theorem canvas_order_is_sorted_path_order `{PyRuntime} `{IiifBuilder}
    (net : nat → string → response)
    (as_completed as_completed' :
       list (string * string * json) → list (string * string * json))
    (doc : string) (items : list string)
    (iiif_image_base project_segment iiif_presentation_base : string) :
  (∀ i url, net i url = net 0 url) →
  (∀ l, as_completed l ≡ₚ l) →
  (∀ l, as_completed' l ≡ₚ l) →
  make_manifest_for_doc net as_completed doc items iiif_image_base
    project_segment iiif_presentation_base
  = make_manifest_for_doc net as_completed' doc items iiif_image_base
      project_segment iiif_presentation_base
  ∧ ∀ st,
      assemble net as_completed doc items iiif_image_base project_segment
        iiif_presentation_base = Returned st →
      c_src <$> m_items (the_manifest st)
      = filter
          (λ p, adds_canvas (base_url iiif_presentation_base)
                  (result_of (net 0) iiif_image_base project_segment p) = true)
          (sorted items)
      ∧ StronglySorted String.le (c_src <$> m_items (the_manifest st))
      ∧ StronglySorted String.le (sorted items)
      ∧ sorted items ≡ₚ items.
Proof.
  intros Hnet Hperm Hperm'. split.
  - unfold make_manifest_for_doc.
    by rewrite (assemble_per_path net as_completed),
               (assemble_per_path net as_completed').
  - intros st Hst.
    destruct (sorted_spec items) as [Hsorted Hp].
    assert (c_src <$> m_items (the_manifest st)
            = filter
                (λ p, adds_canvas (base_url iiif_presentation_base)
                        (result_of (net 0) iiif_image_base project_segment p)
                      = true)
                (sorted items)) as Hsrc.
    { unfold assemble in Hst.
      destruct (init_manifest doc _) as [m [[]|e]] eqn:Hinit; [|done].
      apply init_manifest_run in Hinit as (Hb & Hi & _).
      cbn [m_base m_items] in Hb, Hi.
      rewrite submit_fold in Hst. cbn [app] in Hst.
      apply process_all_shape in Hst as (_ & _ & new & Hnew & Hsrc & _).
      cbn [the_manifest] in Hnew, Hsrc. rewrite Hi in Hnew. rewrite Hb in Hsrc.
      rewrite Hnew. cbn [app]. rewrite Hsrc.
      apply filter_ext_in. intros p Hp'.
      by rewrite results_lookup. }
    split; [done|]. split; [|done].
    rewrite Hsrc. by apply StronglySorted_filter.
Qed.

(** ** Canvas indices *)

Section IndexFacts.

Context `{PyRuntime} `{IiifBuilder}.

Lemma first_raise_none base cs :
  (∀ c, c ∈ cs → raises base c = None) → first_raise base cs = None.
Proof.
  induction cs as [|c cs IH]; intros Hcs; [done|]. simpl.
  rewrite (Hcs c) by left. rewrite IH; [done|].
  intros c' ?. apply Hcs. by right.
Qed.

Lemma canvas_calls_not_add base n p sid info w h c :
  c ∈ canvas_calls base n p sid info w h → c ≠ add_canvas_to_items.
Proof.
  unfold canvas_calls. rewrite !elem_of_cons, elem_of_nil.
  intros Hc ->. intuition discriminate.
Qed.

Lemma process_item_contiguous results st p st' :
  (∀ base c, c ≠ add_canvas_to_items → raises base c = None) →
  process_item results st p = Returned st' →
  indices_contiguous st → indices_contiguous st'.
Proof.
  intros Hq. unfold process_item, indices_contiguous.
  destruct (results !! p) as [[info sid]|]; [|by intros [= <-]].
  destruct info as [| | | | | |kvs]; try done.
  destruct (Py.truthy _); [by intros [= <-]|].
  rewrite build_canvas_run.
  destruct (raises _ add_canvas_to_items).
  { intros [= <-]. cbn [the_manifest canvases_created].
    by rewrite Nat.add_sub. }
  cbv zeta. rewrite first_raise_none
    by (intros c Hc%canvas_calls_not_add; by apply Hq).
  intros [= <-] Hst. cbn [the_manifest canvases_created with_canvas m_items].
  rewrite fmap_app, Hst, Nat.add_1_r, seq_S, fmap_app. done.
Qed.

(** Where no call on a canvas raises once the canvas is in the
    manifest, the canvas ids are p1, p2, ..., pn, whatever fetches and
    resolutions fail. *)
Lemma indices_contiguous_without_setter_failure net as_completed doc items
    iiif_image_base project_segment iiif_presentation_base st :
  (∀ base c, c ≠ add_canvas_to_items → raises base c = None) →
  assemble net as_completed doc items iiif_image_base project_segment
    iiif_presentation_base = Returned st →
  canvas_id_arg <$> m_items (the_manifest st)
  = nth_canvas_id <$> seq 1 (canvases_created st)
  ∧ length (m_items (the_manifest st)) = canvases_created st.
Proof.
  intros Hq Hst.
  assert (indices_contiguous st) as Hc.
  { unfold assemble in Hst.
    destruct (init_manifest doc _) as [m [[]|e]] eqn:Hinit; [|done].
    apply init_manifest_run in Hinit as (_ & Hi & _). cbn [m_items] in Hi.
    destruct (fold_left _ _ _) as [fs js].
    set (results := collect _) in Hst. clearbody results.
    assert (indices_contiguous
              {| failures := fs; canvases_created := 0; the_manifest := m |})
      as Hinv by (unfold indices_contiguous; cbn; by rewrite Hi).
    revert Hst Hinv. generalize (sorted items) as l.
    generalize {| failures := fs; canvases_created := 0; the_manifest := m |}.
    intros st0 l. revert st0. induction l as [|p l IH]; intros st0; simpl.
    - by intros [= <-].
    - destruct (process_item results st0 p) as [st1|] eqn:E; [|done].
      intros Hl Hinv. apply (IH st1); [done|].
      by apply (process_item_contiguous results st0 p). }
  split; [done|]. apply (f_equal length) in Hc.
  by rewrite !length_fmap, length_seq in Hc.
Qed.

End IndexFacts.

(** C2 at a failing input. One document with two relative paths under
    an https image base; the answer for the first has no width, so its
    width is 0 and the builder refuses [canvas.set_width(0)] when the
    canvas is already in the manifest.  The counter is rolled back but
    the canvas stays: the manifest holds two canvases with the id of
    index 1, and one canvas is counted. *)
Theorem rollback_leaves_canvas (e : string) :
  ∃ st,
    @assemble plain_python (width_checking_builder e) (net_no_width "A") id
      "A" ["A/img1.jpg"; "A/img2.jpg"] "https://iiif.example.org" "ceresa" ""
    = Returned st
    ∧ failures st
      = [("A/img1.jpg", "manifest/canvas creation error: " +:+ e)]
    ∧ canvases_created st = 1
    ∧ c_src <$> m_items (the_manifest st) = ["A/img1.jpg"; "A/img2.jpg"]
    ∧ c_calls <$> head (m_items (the_manifest st))
      = Some [set_id Canvas (ExtendBase "canvas/p1")]
    ∧ canvas_id_arg <$> m_items (the_manifest st)
      = [nth_canvas_id 1; nth_canvas_id 1].
Proof. eexists. split; [vm_compute; reflexivity|]. vm_compute. auto. Qed.

Lemma non_dict_result_raises `{PyRuntime} `{IiifBuilder}
    (results : gmap string (json * string)) st p v service_id :
  results !! p = Some (v, service_id) →
  (∀ kvs, v ≠ JDict kvs) →
  process_item results st p
  = Raised ("'" +:+ Py.type_name v +:+ "' object has no attribute 'get'").
Proof.
  intros Hres Hv. unfold process_item. rewrite Hres.
  destruct v; try done. by destruct (Hv kvs).
Qed.

(** C3 at a failing input. The capability data of one item of document A is a
    JSON array: the run ends with the exception, before the sibling
    item, document B and the report. *)
Theorem array_result_aborts_run :
  @main plain_python lenient_builder net_array (λ _, id)
    ["A/img1.jpg"; "A/img2.jpg"; "B/img2.jpg"] "out"
    "https://iiif.ub.unibe.ch/image/v3/" "ceresa" ""
  = Raised "'list' object has no attribute 'get'"
  ∧ @process_item plain_python lenient_builder
      {["A/img1.jpg" := (JList [], "https://i/img1.jpg")]}
      {| failures := []; canvases_created := 0;
         the_manifest := {| m_base := ""; m_calls := []; m_items := [] |} |}
      "A/img1.jpg"
    = Raised "'list' object has no attribute 'get'".
Proof. split; vm_compute; reflexivity. Qed.

(** ** Media type *)



Section MediaTypeFacts.

Context `{PyRuntime} `{IiifBuilder}.


End MediaTypeFacts.


(** ** Fetch failures *)

(** C9. A result that is a dict with a truthy "error" is recorded as a
    fetch failure and gets no canvas, whether the dict is the parsed
    body of a 2xx answer or the dict the fetcher builds for a failed
    request; the fetcher's dict has a truthy "error" whenever the
    exception has a text, and a 2xx body equal to it is the same value
    to all that follows. *)
Theorem error_body_is_fetch_failure `{PyRuntime} `{IiifBuilder}
    (get : string → response) (results : gmap string (json * string))
    (st : assembly) (p service_id : string) (kvs : list (string * json)) :
  get (info_url_of service_id) = Body (JDict kvs) →
  Py.truthy (Py.get_none kvs "error") = true →
  results !! p = Some (fetch_info_json get service_id, service_id) →
  process_item results st p
  = Returned {| failures :=
                  failures st ++ [(p, fetch_failure_message kvs service_id)];
                canvases_created := canvases_created st;
                the_manifest := the_manifest st |}
  ∧ adds_canvas (m_base (the_manifest st)) (results !! p) = false
  ∧ (∀ get' str_e status,
       get' (info_url_of service_id) = Failed str_e status →
       JDict kvs = error_dict (info_url_of service_id) str_e status →
       fetch_info_json get' service_id = fetch_info_json get service_id)
  ∧ (∀ get' str_e status,
       get' (info_url_of service_id) = Failed str_e status →
       str_e ≠ "" →
       ∃ kvs',
         fetch_info_json get' service_id = JDict kvs'
         ∧ Py.truthy (Py.get_none kvs' "error") = true
         ∧ ∀ results',
             results' !! p = Some (fetch_info_json get' service_id, service_id) →
             process_item results' st p
             = Returned
                 {| failures :=
                      failures st
                        ++ [(p, fetch_failure_message kvs' service_id)];
                    canvases_created := canvases_created st;
                    the_manifest := the_manifest st |}).
Proof.
  intros Hget Herr Hres.
  assert (fetch_info_json get service_id = JDict kvs) as Hinfo.
  { unfold fetch_info_json. fold (info_url_of service_id). by rewrite Hget. }
  rewrite Hinfo in Hres.
  split; [|split; [|split]].
  - unfold process_item. by rewrite Hres, Herr.
  - unfold adds_canvas. by rewrite Hres, Herr.
  - intros get' e status Hget' Hdict. rewrite Hinfo, Hdict.
    unfold fetch_info_json. fold (info_url_of service_id). by rewrite Hget'.
  - intros get' e status Hget' Hne. eexists.
    assert (fetch_info_json get' service_id
            = error_dict (info_url_of service_id) e status) as ->.
    { unfold fetch_info_json. fold (info_url_of service_id). by rewrite Hget'. }
    split; [done|]. split; [by destruct e|].
    intros results' Hres'. unfold process_item. rewrite Hres'.
    by destruct e.
Qed.

(** ** The counter and the canvases of the manifest *)

Section CounterFacts.

Context `{PyRuntime} `{IiifBuilder}.

Lemma first_raise_bound base cs k e :
  first_raise base cs = Some (k, e) → k < length cs.
Proof.
  revert k e. induction cs as [|c cs IH]; intros k e; [done|]. simpl.
  destruct (raises base c); [intros [= <- _]; lia|].
  destruct (first_raise base cs) as [[k' e']|]; [|done].
  intros [= <- _]. specialize (IH k' e' eq_refl). lia.
Qed.

Lemma whole_body_complete base n p sid info w h :
  complete {| c_src := p; c_calls := canvas_calls base n p sid info w h |}
  = true.
Proof. reflexivity. Qed.

Lemma part_of_body_incomplete base n p sid info w h k :
  k < length (canvas_calls base n p sid info w h) →
  complete {| c_src := p;
              c_calls := take k (canvas_calls base n p sid info w h) |}
  = false.
Proof.
  intros Hk. do 18 (destruct k as [|k]; [reflexivity|]).
  simpl in Hk. lia.
Qed.

Lemma process_item_counts results st p st' :
  process_item results st p = Returned st' →
  counts_complete st → counts_complete st'.
Proof.
  unfold process_item, counts_complete.
  destruct (results !! p) as [[info sid]|]; [|by intros [= <-]].
  destruct info as [| | | | | |kvs]; try done.
  destruct (Py.truthy _); [by intros [= <-]|].
  rewrite build_canvas_run.
  destruct (raises _ add_canvas_to_items).
  { intros [= <-]. cbn. by rewrite Nat.add_sub. }
  cbv zeta. destruct (first_raise _ _) as [[k e]|] eqn:E; intros [= <-] Hst;
    cbn [the_manifest canvases_created with_canvas m_items];
    rewrite filter_app, length_app, filter_cons, filter_nil.
  - apply first_raise_bound in E.
    rewrite part_of_body_incomplete by done.
    rewrite decide_False by done. simpl. lia.
  - rewrite whole_body_complete, decide_True by done. simpl. lia.
Qed.

Lemma assemble_counts net as_completed doc items iiif_image_base
    project_segment iiif_presentation_base st :
  assemble net as_completed doc items iiif_image_base project_segment
    iiif_presentation_base = Returned st →
  counts_complete st.
Proof.
  unfold assemble.
  destruct (init_manifest doc _) as [m [[]|e]] eqn:Hinit; [|done].
  apply init_manifest_run in Hinit as (_ & Hi & _). cbn [m_items] in Hi.
  destruct (fold_left _ _ _) as [fs js].
  set (results := collect _). clearbody results.
  assert (counts_complete
            {| failures := fs; canvases_created := 0; the_manifest := m |})
    as Hinv by (unfold counts_complete; cbn; by rewrite Hi).
  revert Hinv. generalize (sorted items) as l.
  generalize {| failures := fs; canvases_created := 0; the_manifest := m |}.
  intros st0 l. revert st0. induction l as [|p l IH]; intros st0 Hinv; simpl.
  - by intros [= <-].
  - destruct (process_item results st0 p) as [st1|] eqn:E; [|done].
    apply IH. by apply (process_item_counts results st0 p).
Qed.

End CounterFacts.

(** ** Presentation base *)

Module BaseFacts.
Import ReFacts.

Lemma rstrip_no_trailing c s :
  PyStr.endswith (String c "") (PyStr.rstrip (PyStr.is_char c) s) = false.
Proof.
  induction s as [|d s IH]; [done|]. simpl.
  destruct (PyStr.is_empty _ && _) eqn:E; [done|].
  simpl. rewrite IH. case_decide as Heq; [|done].
  injection Heq as -> Hs. rewrite Hs in E. simpl in E.
  unfold PyStr.is_char in E. by rewrite decide_True in E.
Qed.

Lemma rstrip_slashes s :
  ∃ k, s = PyStr.rstrip (PyStr.is_char "/") s +:+ slashes k.
Proof.
  induction s as [|d s [k IH]]; [by exists 0|]. simpl.
  destruct (PyStr.is_empty _ && _) eqn:E.
  - apply andb_true_iff in E as [E1%is_empty_true E2].
    unfold PyStr.is_char in E2. case_decide; [subst d|done].
    rewrite E1, app_empty_l in IH. exists (S k). rewrite app_empty_l.
    simpl. by rewrite <- IH.
  - exists k. rewrite app_cons. by rewrite <- IH.
Qed.

End BaseFacts.

Section BaseUrlFacts.

Context `{PyRuntime} `{IiifBuilder}.

Lemma assemble_base net as_completed doc items iiif_image_base
    project_segment iiif_presentation_base st :
  assemble net as_completed doc items iiif_image_base project_segment
    iiif_presentation_base = Returned st →
  m_base (the_manifest st) = base_url iiif_presentation_base
  ∧ m_calls (the_manifest st)
    = [set_id Manifest (ExtendBase (doc +:+ ".json"));
       add_label Manifest "en" doc; add_behavior "paged"]
  ∧ Forall (λ cv, ∃ results,
              built_from results (base_url iiif_presentation_base) cv)
      (m_items (the_manifest st)).
Proof.
  unfold assemble.
  destruct (init_manifest doc _) as [m [[]|e]] eqn:Hinit; [|done].
  apply init_manifest_run in Hinit as (Hb & Hi & Hc).
  cbn [m_base m_items m_calls app] in Hb, Hi, Hc.
  destruct (fold_left _ _ _) as [fs js].
  intros (Hb' & Hc' & new & Hnew & _ & Hbuilt)%process_all_shape.
  cbn [the_manifest] in *.
  rewrite Hb', Hb, Hc', Hc, Hnew, Hi. cbn [app].
  repeat split. rewrite Hb in Hbuilt.
  eapply Forall_impl; [exact Hbuilt|]. intros cv ?. eauto.
Qed.

Lemma built_from_ids results base cv c :
  built_from results base cv → c ∈ c_calls cv →
  match c with
  | set_id (Canvas | AnnotationPage | Annotation) a => ∃ ext, a = ExtendBase ext
  | add_annotation_to_items target => ∃ ext, target = extendbase_url base ext
  | _ => True
  end.
Proof.
  intros (n & kvs & sid & w & h & k & _ & Hcalls) Hin.
  rewrite Hcalls in Hin. apply elem_of_take in Hin as (i & Hi & _).
  apply list_elem_of_lookup_2 in Hi. unfold canvas_calls in Hi.
  rewrite !elem_of_cons, elem_of_nil in Hi.
  repeat (destruct Hi as [->|Hi]; [by eauto|]). done.
Qed.

(** A canvas that went through the whole [try] body carries the id
    calls of its index. *)
Lemma complete_canvas_ids results base cv :
  built_from results base cv → complete cv = true →
  ∃ n,
    set_id Canvas (ExtendBase ("canvas/p" +:+ PyStr.of_nat n)) ∈ c_calls cv
    ∧ set_id AnnotationPage
        (ExtendBase ("page/p" +:+ PyStr.of_nat n +:+ "/1")) ∈ c_calls cv
    ∧ add_annotation_to_items
        (extendbase_url base ("canvas/p" +:+ PyStr.of_nat n)) ∈ c_calls cv
    ∧ set_id Annotation
        (ExtendBase
           ("annotation/p" +:+ PyStr.zfill 4 (PyStr.of_nat n) +:+ "-image"))
      ∈ c_calls cv.
Proof.
  intros (n & kvs & sid & w & h & k & _ & Hcalls) Hcomplete.
  destruct cv as [src calls]. cbn [c_src c_calls] in *. subst calls.
  destruct (decide (k < length (canvas_calls base n src sid kvs w h)))
    as [Hk|Hk].
  { by rewrite part_of_body_incomplete in Hcomplete. }
  rewrite take_ge by lia. exists n. unfold canvas_calls.
  rewrite !elem_of_cons. split_and!; auto 20.
Qed.

End BaseUrlFacts.

(** C10. An empty presentation base is not an error: the assembler then
    works exactly as if the placeholder https://example.org/iiif/ had
    been configured, so it returns the same manifest, count and
    failures.  A base that is not empty is used with its trailing
    slashes replaced by one slash.  The manifest is given its id by
    extending that base with the document key and .json, and this is
    the only id set on the manifest.  Every canvas that is counted went
    through the whole try body, and such a canvas has its own id, the
    id of its page, the target of its annotation and the id of its
    annotation all made by extending that base; on no canvas is an id
    of a canvas, a page or an annotation made in another way. *)
Theorem presentation_base_fallback `{PyRuntime} `{IiifBuilder}
    (net : nat → string → response)
    (as_completed : list (string * string * json)
                    → list (string * string * json))
    (doc : string) (items : list string)
    (iiif_image_base project_segment iiif_presentation_base : string) :
  base_url "" = "https://example.org/iiif/"
  ∧ make_manifest_for_doc net as_completed doc items iiif_image_base
      project_segment ""
    = make_manifest_for_doc net as_completed doc items iiif_image_base
        project_segment "https://example.org/iiif/"
  ∧ (iiif_presentation_base ≠ "" →
     ∃ stem k,
       base_url iiif_presentation_base = stem +:+ "/"
       ∧ iiif_presentation_base = stem +:+ slashes k
       ∧ PyStr.endswith "/" stem = false)
  ∧ ∀ st,
      assemble net as_completed doc items iiif_image_base project_segment
        iiif_presentation_base = Returned st →
      m_base (the_manifest st) = base_url iiif_presentation_base
      ∧ m_calls (the_manifest st)
        = [set_id Manifest (ExtendBase (doc +:+ ".json"));
           add_label Manifest "en" doc; add_behavior "paged"]
      ∧ resolved_id (m_base (the_manifest st))
          (ExtendBase (doc +:+ ".json"))
        = extendbase_url (base_url iiif_presentation_base) (doc +:+ ".json")
      ∧ (∀ o a, set_id o a ∈ m_calls (the_manifest st) →
           o = Manifest ∧ a = ExtendBase (doc +:+ ".json"))
      ∧ canvases_created st
        = length (filter (λ cv, complete cv = true)
                    (m_items (the_manifest st)))
      ∧ ∀ cv, cv ∈ m_items (the_manifest st) →
          (∀ o a, set_id o a ∈ c_calls cv →
             o = Canvas ∨ o = AnnotationPage ∨ o = Annotation →
             ∃ ext,
               a = ExtendBase ext
               ∧ resolved_id (m_base (the_manifest st)) a
                 = extendbase_url (base_url iiif_presentation_base) ext)
          ∧ (∀ target, add_annotation_to_items target ∈ c_calls cv →
               ∃ ext,
                 target = extendbase_url (base_url iiif_presentation_base) ext)
          ∧ (complete cv = true →
             ∃ n,
               set_id Canvas (ExtendBase ("canvas/p" +:+ PyStr.of_nat n))
               ∈ c_calls cv
               ∧ set_id AnnotationPage
                   (ExtendBase ("page/p" +:+ PyStr.of_nat n +:+ "/1"))
                 ∈ c_calls cv
               ∧ add_annotation_to_items
                   (extendbase_url (base_url iiif_presentation_base)
                      ("canvas/p" +:+ PyStr.of_nat n))
                 ∈ c_calls cv
               ∧ set_id Annotation
                   (ExtendBase
                      ("annotation/p" +:+ PyStr.zfill 4 (PyStr.of_nat n)
                       +:+ "-image"))
                 ∈ c_calls cv).
Proof.
  split; [done|]. split; [done|]. split.
  - intros Hne. destruct (BaseFacts.rstrip_slashes iiif_presentation_base)
      as [k Hk].
    exists (PyStr.rstrip (PyStr.is_char "/") iiif_presentation_base), k.
    split; [|split; [done|apply BaseFacts.rstrip_no_trailing]].
    unfold base_url. by destruct iiif_presentation_base.
  - intros st Hst. pose proof (assemble_counts _ _ _ _ _ _ _ _ Hst) as Hcount.
    apply assemble_base in Hst as (Hb & Hc & Hbuilt).
    split; [done|]. split; [done|]. split; [by rewrite Hb|]. split; [|split].
    + intros o a. rewrite Hc, !elem_of_cons, elem_of_nil.
      intros [[= -> ->]|[?|[?|?]]]; done.
    + exact Hcount.
    + intros cv Hcv. rewrite Forall_forall in Hbuilt.
      destruct (Hbuilt cv Hcv) as [results Hcvb]. split; [|split].
      * intros o a Hin Ho.
        pose proof (built_from_ids _ _ _ _ Hcvb Hin) as Hid. cbn in Hid.
        destruct Ho as [->|[->| ->]]; destruct Hid as [ext ->];
          exists ext; by rewrite Hb.
      * intros target Hin. apply (built_from_ids _ _ _ _ Hcvb Hin).
      * intros Hcomplete. by apply (complete_canvas_ids results).
Qed.

(** ** Serialization failure *)

(** C4, amended. When json_dumps raises for a document,
    make_manifest_for_doc returns no JSON, the count of the canvases
    built, and the failures with one more record; main then writes no
    file for the document and records the failures, and it leaves the
    document out of the created manifests, from which the report and
    the summary are written, so the count is reported nowhere. *)
Theorem serialization_failure `{PyRuntime} `{IiifBuilder}
    (net : string → nat → string → response)
    (as_completed : string → list (string * string * json)
                    → list (string * string * json))
    (output_dir iiif_image_base project_segment iiif_presentation_base
       : string)
    (r : run) (doc : string) (items : list string) (st : assembly)
    (e : string) :
  assemble (net doc) (as_completed doc) doc items iiif_image_base
    project_segment iiif_presentation_base = Returned st →
  json_dumps (the_manifest st) = Raised e →
  make_manifest_for_doc (net doc) (as_completed doc) doc items
    iiif_image_base project_segment iiif_presentation_base
  = Returned (None, canvases_created st,
              failures st ++ [("manifest_dumps", "json_dumps failed: " +:+ e)])
  ∧ ∃ r',
      process_doc net as_completed output_dir iiif_image_base project_segment
        iiif_presentation_base r (doc, items) = Returned r'
      ∧ files r' = files r
      ∧ created_manifests r' = created_manifests r
      ∧ report_created r' = report_created r
      ∧ total_failures r'
        = total_failures r
            ++ map (λ '(p, msg), (doc, p, msg)) (failures st)
            ++ [(doc, "manifest_dumps", "json_dumps failed: " +:+ e)]
      ∧ summary r'
        = ((summary r).1, (summary r).2 + length (failures st) + 1).
Proof.
  intros Hst Hdumps.
  assert (make_manifest_for_doc (net doc) (as_completed doc) doc items
            iiif_image_base project_segment iiif_presentation_base
          = Returned (None, canvases_created st,
                      failures st
                        ++ [("manifest_dumps", "json_dumps failed: " +:+ e)]))
    as Hmake.
  { unfold make_manifest_for_doc. by rewrite Hst, Hdumps. }
  split; [done|]. eexists. unfold process_doc. rewrite Hmake.
  split; [reflexivity|]. cbn [files created_manifests total_failures].
  repeat split.
  - by rewrite map_app.
  - unfold summary. cbn [created_manifests total_failures fst snd].
    f_equal. rewrite !length_app, length_map, length_app. simpl. lia.
Qed.

(** C4 as stated fails: one document, one image, a builder whose
    serialization fails.  A canvas is counted, but the created
    manifests of the run are empty: the report and the summary show no
    count for the document. *)
Lemma serialization_failure_count_unreported :
  ∃ r,
    @main plain_python failing_dumps_builder (λ _, net_good) (λ _, id)
      ["A/img1.jpg"] "out" "https://iiif.ub.unibe.ch/image/v3/" "ceresa" ""
    = Returned r
    ∧ @make_manifest_for_doc plain_python failing_dumps_builder net_good id
        "A" ["A/img1.jpg"] "https://iiif.ub.unibe.ch/image/v3/" "ceresa" ""
      = Returned (None, 1,
                  [("manifest_dumps", "json_dumps failed: not serializable")])
    ∧ files r = []
    ∧ report_created r = []
    ∧ summary r = (0, 1)
    ∧ ¬ ∃ path, ("A", path, 1) ∈ created_manifests r.
Proof.
  eexists. split; [vm_compute; reflexivity|].
  split; [vm_compute; reflexivity|]. cbn.
  repeat split. intros [path Hin]. by apply elem_of_nil in Hin.
Qed.

(** ** The theorems at concrete inputs *)

Lemma canvas_order_is_sorted_path_order_witness :
  @make_manifest_for_doc plain_python lenient_builder net_good id "A"
    ["A/img2.jpg"; "A/img1.jpg"] "https://iiif.ub.unibe.ch/image/v3/"
    "ceresa" ""
  = @make_manifest_for_doc plain_python lenient_builder net_good reverse "A"
      ["A/img2.jpg"; "A/img1.jpg"] "https://iiif.ub.unibe.ch/image/v3/"
      "ceresa" "".
Proof.
  apply (@canvas_order_is_sorted_path_order plain_python lenient_builder
           net_good id reverse "A" ["A/img2.jpg"; "A/img1.jpg"]
           "https://iiif.ub.unibe.ch/image/v3/" "ceresa" "").
  - intros i url. reflexivity.
  - intros l. reflexivity.
  - intros l. apply reverse_Permutation.
Defined.

(** Without one answer per URL the premise of the order theorem is not
    met: a path listed twice is fetched twice, and [results] keeps the
    answer of the request that completes last. *)
Remark duplicate_path_keeps_last_answer :
  let net := λ (i : nat) (_ : string),
               if decide (i = 0) then Body good_info
               else Failed "timed out" JNull in
  ∃ n1 f1 n2 f2,
    @make_manifest_for_doc plain_python lenient_builder net id "A"
      ["A/img1.jpg"; "A/img1.jpg"] "https://i/" "" ""
    = Returned (Some "{}", n1, f1)
    ∧ @make_manifest_for_doc plain_python lenient_builder net reverse "A"
        ["A/img1.jpg"; "A/img1.jpg"] "https://i/" "" ""
      = Returned (Some "{}", n2, f2)
    ∧ n1 = 0 ∧ n2 = 2.
Proof. do 4 eexists. split; [vm_compute; reflexivity|]. split; [vm_compute; reflexivity|]. done. Qed.

Lemma parser_contract_witness :
  parse_all_manifests ["d41d8cd9  A/img1.jpg" +:+ nl] = ["A/img1.jpg"].
Proof.
  destruct (parser_contract [] [] ("d41d8cd9  A/img1.jpg" +:+ nl))
    as (_ & _ & _ & Hline & _).
  apply (Hline "" "d41d8cd9" "  " "A/img1.jpg" nl); reflexivity || discriminate.
Defined.


Lemma error_body_is_fetch_failure_witness :
  let get := λ _ : string, Body (JDict [("error", JStr "not found")]) in
  @adds_canvas lenient_builder ""
    (({["A/img1.jpg" := (fetch_info_json get "https://i/img1.jpg",
                         "https://i/img1.jpg")]}
        : gmap string (json * string)) !! "A/img1.jpg")
  = false.
Proof.
  intros get.
  apply (@error_body_is_fetch_failure plain_python lenient_builder get
           {["A/img1.jpg" := (fetch_info_json get "https://i/img1.jpg",
                              "https://i/img1.jpg")]}
           {| failures := []; canvases_created := 0;
              the_manifest :=
                {| m_base := ""; m_calls := []; m_items := [] |} |}
           "A/img1.jpg" "https://i/img1.jpg" [("error", JStr "not found")]).
  - reflexivity.
  - reflexivity.
  - vm_compute. reflexivity.
Defined.

Lemma presentation_base_fallback_witness :
  (∃ stem k,
     base_url "https://iiif.example.org//" = stem +:+ "/"
     ∧ "https://iiif.example.org//" = stem +:+ slashes k
     ∧ PyStr.endswith "/" stem = false)
  ∧ ∃ st,
      @assemble plain_python lenient_builder net_good id "A" ["A/img1.jpg"]
        "https://i/" "" "" = Returned st
      ∧ m_base (the_manifest st) = "https://example.org/iiif/"
      ∧ m_calls (the_manifest st)
        = [set_id Manifest (ExtendBase "A.json");
           add_label Manifest "en" "A"; add_behavior "paged"]
      ∧ canvases_created st = 1
      ∧ ∀ cv, cv ∈ m_items (the_manifest st) →
          complete cv = true →
          ∃ n,
            set_id Canvas (ExtendBase ("canvas/p" +:+ PyStr.of_nat n))
            ∈ c_calls cv
            ∧ add_annotation_to_items
                ("https://example.org/iiif/" +:+ "canvas/p"
                 +:+ PyStr.of_nat n)
              ∈ c_calls cv.
Proof.
  split.
  - apply (@presentation_base_fallback plain_python lenient_builder net_good
             id "A" ["A/img1.jpg"] "https://i/" ""
             "https://iiif.example.org//").
    discriminate.
  - assert (∃ st,
              @assemble plain_python lenient_builder net_good id "A"
                ["A/img1.jpg"] "https://i/" "" "" = Returned st
              ∧ canvases_created st = 1) as (st & Hst & Hn)
      by (eexists; split; vm_compute; reflexivity).
    destruct (@presentation_base_fallback plain_python lenient_builder
                net_good id "A" ["A/img1.jpg"] "https://i/" "" "")
      as (_ & _ & _ & Hids).
    destruct (Hids st Hst) as (Hb & Hc & _ & _ & _ & Hcv).
    exists st. split; [exact Hst|]. split; [exact Hb|]. split; [exact Hc|].
    split; [exact Hn|].
    intros cv Hin Hcomplete.
    destruct (Hcv cv Hin) as (_ & _ & Hthree).
    destruct (Hthree Hcomplete) as (n & H1 & _ & H3 & _).
    exists n. split; [exact H1|exact H3].
Defined.

Lemma serialization_failure_witness :
  @make_manifest_for_doc plain_python failing_dumps_builder net_good id "A"
    ["A/img1.jpg"] "https://iiif.ub.unibe.ch/image/v3/" "ceresa" ""
  = Returned (None, 1,
              [] ++ [("manifest_dumps",
                      "json_dumps failed: " +:+ "not serializable")]).
Proof.
  eapply (@serialization_failure plain_python failing_dumps_builder
            (λ _, net_good) (λ _, id) "out"
            "https://iiif.ub.unibe.ch/image/v3/" "ceresa" ""
            {| files := []; created_manifests := []; report_lines := [];
               total_failures := [] |}
            "A" ["A/img1.jpg"]
            {| failures := []; canvases_created := 1; the_manifest := _ |}
            "not serializable").
  - vm_compute. reflexivity.
  - reflexivity.
Defined.

(** * Further properties *)

(** ** More facts about the string methods *)

Module PyStrMore.
Import PyStr.

Lemma app_inj_r a b c : a +:+ c = b +:+ c → a = b.
Proof.
  revert b. induction a as [|x a IH]; intros [|y b] Heq; [done| | |].
  - rewrite app_empty_l in Heq. apply (f_equal String.length) in Heq.
    rewrite app_length in Heq. simpl in Heq. lia.
  - rewrite app_empty_l in Heq. apply (f_equal String.length) in Heq.
    rewrite app_length in Heq. simpl in Heq. lia.
  - rewrite !app_cons in Heq. injection Heq as -> Heq. f_equal. by apply IH.
Qed.

Lemma endswith_spec suf s : endswith suf s = true ↔ ∃ pre, s = pre +:+ suf.
Proof.
  induction s as [|c s IH]; simpl.
  - case_decide as E.
    + subst suf. split; [by exists ""|done].
    + split; [done|]. intros [[|??] Hpre]; [by rewrite app_empty_l in Hpre|].
      by rewrite app_cons in Hpre.
  - case_decide as E.
    + subst suf. split; [by exists ""|done].
    + rewrite IH. split.
      * intros [pre ->]. by exists (String c pre).
      * intros [[|d pre] Hpre]; [by rewrite app_empty_l in Hpre|].
        rewrite app_cons in Hpre. injection Hpre as -> ->. by exists pre.
Qed.

Lemma rstrip_snoc P s c :
  P c = true → rstrip P (s +:+ String c "") = rstrip P s.
Proof.
  intros Hc. induction s as [|d s IH].
  - rewrite app_empty_l. simpl. by rewrite Hc.
  - rewrite app_cons. simpl. by rewrite IH.
Qed.

Lemma rstrip_fixed_all_not (P : ascii → bool) s :
  all_chars (λ c, negb (P c)) s = true → rstrip P s = s.
Proof.
  induction s as [|c s IH]; [done|]. simpl.
  intros [Hc Hs]%andb_true_iff. rewrite IH by done.
  apply negb_true_iff in Hc. by rewrite Hc, andb_false_r.
Qed.

Lemma rstrip_app_fixed P x y :
  rstrip P y = y → y ≠ "" → rstrip P (x +:+ y) = x +:+ y.
Proof.
  intros Hy Hne. induction x as [|c x IH]; [done|].
  rewrite app_cons. simpl. rewrite IH.
  destruct (x +:+ y) eqn:E; [|done].
  destruct x; [|done]. by rewrite app_empty_l in E.
Qed.

(** The segments of a split have no separator in them. *)
Lemma split_segments sep s :
  Forall (λ x, has_char sep x = false) (split sep s).
Proof.
  induction s as [|c s IH]; simpl; [by repeat constructor|].
  case_decide as E; [by constructor|].
  destruct (split sep s) as [|h t]; [repeat constructor|].
  - simpl. unfold is_char. by rewrite decide_False, orb_false_r by done.
  - inversion_clear IH as [|?? Hh Ht]. constructor; [|done].
    simpl. unfold is_char. by rewrite decide_False by done.
Qed.

Lemma join_cons sep x y l :
  join sep (x :: y :: l) = x +:+ sep +:+ join sep (y :: l).
Proof. reflexivity. Qed.

Lemma split_join sep s : join (String sep "") (split sep s) = s.
Proof.
  induction s as [|c s IH]; [done|]. simpl.
  pose proof (split_nonempty sep s) as Hne.
  destruct (split sep s) as [|h t]; [done|].
  case_decide as E.
  - subst c. by rewrite join_cons, IH.
  - destruct t as [|h' t]; [simpl in *; by rewrite IH|].
    rewrite join_cons in *. by rewrite app_cons, IH.
Qed.

Lemma basename_no_slash p : has_char "/" (basename p) = false.
Proof.
  unfold basename. pose proof (split_segments "/" p) as Hall.
  pose proof (split_nonempty "/" p) as Hne.
  induction (split "/" p) as [|x [|y l] IH]; [done|by inversion Hall|].
  inversion_clear Hall. apply IH; done.
Qed.

Lemma no_char_all_not c s :
  has_char c s = false → all_chars (λ d, negb (is_char c d)) s = true.
Proof.
  induction s as [|d s IH]; [done|]. simpl.
  intros [Hd Hs]%orb_false_iff. by rewrite Hd, IH.
Qed.

End PyStrMore.

(** ** Service ids of relative paths, and the URL that is fetched *)

Section ResolverFacts.

Import PyStrMore.

Lemma not_url_branches path :
  ¬ is_url path →
  PyStr.startswith "http://" path || PyStr.startswith "https://" path = false.
Proof.
  unfold is_url. intros Hn.
  destruct (PyStr.startswith "http://" path) eqn:E1; [destruct Hn; by left|].
  destruct (PyStr.startswith "https://" path) eqn:E2; [destruct Hn; by right|].
  done.
Qed.

Lemma info_url_of_stripped service_id :
  PyStr.endswith "/" service_id = false →
  info_url_of service_id = service_id +:+ "/info.json".
Proof.
  intros Hend. unfold info_url_of. f_equal.
  induction service_id as [|c s IH]; [done|]. simpl in *.
  case_decide as E; [done|].
  rewrite IH by done. destruct s as [|d s]; [|done]. simpl.
  unfold PyStr.is_char. case_decide; [by subst c|done].
Qed.

(** X1. A relative path resolves whenever the image base is not empty.
    The id has no trailing slash, so the URL fetched for it is the id
    followed by /info.json; when the path has a file name, the id is
    the base without its trailing slashes, the project segment without
    its outer slashes (if any is left), and the file name, joined by
    single slashes. *)
Theorem relative_service_id (iiif_base project_segment path : string) :
  ¬ is_url (PyStr.strip path) →
  iiif_base ≠ "" →
  ∃ service_id,
    build_service_id iiif_base project_segment path = Returned service_id
    ∧ PyStr.endswith "/" service_id = false
    ∧ info_url_of service_id = service_id +:+ "/info.json"
    ∧ (PyStr.basename (PyStr.strip path) ≠ "" →
       let base := PyStr.rstrip (PyStr.is_char "/") iiif_base in
       let segment := PyStr.strip_with (PyStr.is_char "/") project_segment in
       service_id
       = if PyStr.is_empty segment
         then base +:+ "/" +:+ PyStr.basename (PyStr.strip path)
         else base +:+ "/" +:+ segment +:+ "/"
              +:+ PyStr.basename (PyStr.strip path)).
Proof.
  intros Hrel Hbase. unfold build_service_id.
  rewrite (not_url_branches _ Hrel).
  destruct iiif_base as [|b0 b]; [done|]. cbn [PyStr.is_empty].
  eexists. split; [reflexivity|].
  split; [apply BaseFacts.rstrip_no_trailing|].
  split; [apply info_url_of_stripped, BaseFacts.rstrip_no_trailing|].
  intros Hname.
  assert (∀ x y, PyStr.rstrip (PyStr.is_char "/") y = y ∧ y ≠ "" →
                 PyStr.rstrip (PyStr.is_char "/") (x +:+ y) = x +:+ y
                 ∧ x +:+ y ≠ "") as Hstep.
  { intros x y [Hy Hne]. split; [by apply rstrip_app_fixed|].
    intros E%(f_equal String.length). rewrite app_length in E.
    destruct y; [done|simpl in E; lia]. }
  assert (PyStr.rstrip (PyStr.is_char "/") (PyStr.basename (PyStr.strip path))
          = PyStr.basename (PyStr.strip path)
          ∧ PyStr.basename (PyStr.strip path) ≠ "") as Hfix.
  { split; [|done].
    apply rstrip_fixed_all_not, no_char_all_not, basename_no_slash. }
  destruct (PyStr.is_empty _); cbn [negb]; repeat apply Hstep; done.
Qed.

Lemma relative_service_id_witness :
  ∃ service_id,
    build_service_id "https://iiif.ub.unibe.ch/image/v3//" "/ceresa/"
      "scans/A/img1.jpg" = Returned service_id
    ∧ service_id = "https://iiif.ub.unibe.ch/image/v3/ceresa/img1.jpg".
Proof.
  destruct (relative_service_id "https://iiif.ub.unibe.ch/image/v3//"
              "/ceresa/" "scans/A/img1.jpg")
    as (sid & Hsid & _ & _ & Hform).
  - intros [H|H]; discriminate H.
  - discriminate.
  - exists sid. split; [exact Hsid|]. apply Hform. discriminate.
Defined.

Lemma url_with_suffix_fixed (P : ascii → bool) u x :
  is_url u → u = x +:+ "/info.json" →
  PyStr.rstrip P "/info.json" = "/info.json" →
  PyStr.rstrip P u = u.
Proof. intros _ -> HP. by apply rstrip_app_fixed. Qed.

Lemma url_lstrip u : is_url u → PyStr.lstrip PyStr.isspace u = u.
Proof.
  intros [H|H]; apply startswith_spec in H as [t ->];
    rewrite app_cons; by rewrite lstrip_keep.
Qed.

Lemma only_suffix_sound old s :
  only_suffix old s = true → ∀ a b, s = a +:+ old +:+ b → b = "".
Proof.
  induction s as [|c s IH]; intros Hs a b Hab.
  - apply (f_equal String.length) in Hab. rewrite !app_length in Hab.
    destruct b; [done|simpl in Hab; lia].
  - cbn [only_suffix] in Hs. apply andb_true_iff in Hs as [Hhere Hrest].
    destruct a as [|d a].
    + rewrite app_empty_l in Hab.
      assert (PyStr.startswith old (String c s) = true) as Hsw
        by (apply startswith_spec; eauto).
      rewrite Hsw in Hhere. apply Nat.eqb_eq in Hhere.
      rewrite Hab, app_length in Hhere. destruct b; [done|simpl in Hhere; lia].
    + rewrite app_cons in Hab. injection Hab as -> Hab. by apply (IH Hrest a).
Qed.

(** X2. Round trip through the fetcher: the URL that is fetched for a
    service id, given back as an input path, resolves to that service
    id without its trailing slashes, whatever the base and the project
    segment, provided the URL begins with http:// or https:// and
    contains /info.json only as its suffix. *)
Theorem info_url_resolves_back (iiif_base project_segment service_id : string) :
  is_url (info_url_of service_id) →
  (∀ a b, info_url_of service_id = a +:+ "/info.json" +:+ b → b = "") →
  build_service_id iiif_base project_segment (info_url_of service_id)
  = Returned (PyStr.rstrip (PyStr.is_char "/") service_id).
Proof.
  intros Hurl Honce. rewrite build_service_id_url by done.
  assert (PyStr.strip (info_url_of service_id) = info_url_of service_id)
    as ->.
  { unfold PyStr.strip, PyStr.strip_with. rewrite url_lstrip by done.
    by apply (url_with_suffix_fixed _ _
                (PyStr.rstrip (PyStr.is_char "/") service_id)). }
  assert (PyStr.rstrip (PyStr.is_char "/") (info_url_of service_id)
          = info_url_of service_id) as ->.
  { by apply (url_with_suffix_fixed _ _
                (PyStr.rstrip (PyStr.is_char "/") service_id)). }
  f_equal. apply remove_all_suffix; done.
Qed.

Lemma info_url_resolves_back_witness :
  build_service_id "" "" (info_url_of "https://h/ceresa/img1.jpg/")
  = Returned "https://h/ceresa/img1.jpg".
Proof.
  apply (info_url_resolves_back "" "" "https://h/ceresa/img1.jpg/").
  - right. reflexivity.
  - apply only_suffix_sound. reflexivity.
Defined.

End ResolverFacts.

(** X3. The fetcher asks for one URL and its result depends on the
    answer to that URL alone; the URL is the service id without its
    trailing slashes followed by /info.json, so a trailing slash on the
    service id changes nothing and the URL never has two slashes before
    info.json. *)
Theorem fetch_asks_one_url (get get' : string → response) (service_id : string) :
  get (info_url_of service_id) = get' (info_url_of service_id) →
  fetch_info_json get service_id = fetch_info_json get' service_id
  ∧ fetch_info_json get (service_id +:+ "/") = fetch_info_json get service_id
  ∧ ∃ stem, info_url_of service_id = stem +:+ "/info.json"
            ∧ PyStr.endswith "/" stem = false.
Proof.
  intros Hsame.
  assert (info_url_of (service_id +:+ "/") = info_url_of service_id) as Hslash.
  { unfold info_url_of. by rewrite PyStrMore.rstrip_snoc. }
  split; [|split].
  - unfold fetch_info_json. fold (info_url_of service_id). by rewrite Hsame.
  - unfold fetch_info_json. fold (info_url_of (service_id +:+ "/")).
    fold (info_url_of service_id). by rewrite Hslash.
  - eexists. split; [reflexivity|]. apply BaseFacts.rstrip_no_trailing.
Qed.

Lemma fetch_asks_one_url_witness :
  fetch_info_json (λ _, Body good_info) "https://h/img1.jpg/"
  = fetch_info_json (λ url, if decide (url = "https://h/img1.jpg/info.json")
                            then Body good_info else Failed "down" JNull)
      "https://h/img1.jpg/".
Proof.
  apply (fetch_asks_one_url (λ _, Body good_info)
           (λ url, if decide (url = "https://h/img1.jpg/info.json")
                   then Body good_info else Failed "down" JNull)
           "https://h/img1.jpg/").
  reflexivity.
Defined.

(** ** Document key and file name *)

Module KeyFacts.
Import PyStr PyStrMore.

Lemma join_app sep (l l' : list string) :
  l ≠ [] → l' ≠ [] →
  join sep (l ++ l') = join sep l +:+ sep +:+ join sep l'.
Proof.
  induction l as [|x [|y l] IH]; intros Hl Hl'; [done| |].
  - destruct l'; [done|]. reflexivity.
  - change ((x :: y :: l) ++ l') with (x :: y :: (l ++ l')).
    rewrite !join_cons, !app_assoc. do 2 f_equal.
    by apply (IH ltac:(done) Hl').
Qed.

Lemma split_without_sep sep s : has_char sep s = false → split sep s = [s].
Proof.
  induction s as [|c s IH]; [done|]. simpl.
  intros [Hc Hs]%orb_false_iff. unfold is_char in Hc.
  destruct (decide (c = sep)); [done|]. by rewrite IH.
Qed.

Lemma split_with_sep sep s :
  has_char sep s = true → 2 ≤ length (split sep s).
Proof.
  induction s as [|c s IH]; [done|]. simpl.
  pose proof (split_nonempty sep s) as Hne.
  unfold is_char. destruct (decide (c = sep)).
  - intros _. destruct (split sep s); [done|simpl; lia].
  - simpl. intros Hs%IH.
    destruct (split sep s); [done|simpl in *; lia].
Qed.

Lemma last_of_reverse {A} (l r : list A) x d :
  reverse l = x :: r → List.last l d = x.
Proof.
  intros Hr. apply (f_equal reverse) in Hr.
  rewrite reverse_involutive, reverse_cons in Hr. subst l.
  apply last_last.
Qed.

End KeyFacts.

Lemma key_and_file_name_parts (p : string) :
  has_char "/" (doc_and_filename_from_path p).1 = false
  ∧ has_char "/" (doc_and_filename_from_path p).2 = false.
Proof.
  unfold doc_and_filename_from_path.
  pose proof (PyStrMore.split_segments "/" (PyStr.strip p)) as Hseg.
  destruct (reverse (PyStr.split "/" (PyStr.strip p))) as [|l [|b r]] eqn:E.
  - apply (f_equal reverse) in E. rewrite reverse_involutive in E.
    by destruct (split_nonempty "/" (PyStr.strip p)).
  - apply (f_equal reverse) in E. rewrite reverse_involutive in E.
    rewrite E in Hseg. by inversion_clear Hseg.
  - apply (f_equal reverse) in E. rewrite reverse_involutive in E.
    rewrite !reverse_cons, <- (assoc_L (++)) in E. rewrite E in Hseg.
    apply Forall_app in Hseg as [_ Hbl].
    inversion_clear Hbl as [|?? Hb Hl']. by inversion_clear Hl'.
Qed.

(** X4. The document key and the file name of a path have no slash in
    them; the file name is the base name of the stripped path.  A
    stripped path without a slash is its own file name, under the key
    "root"; a stripped path with a slash ends in key, slash, file name,
    and what precedes the key is empty or ends with a slash. *)
Theorem key_and_file_name (p : string) :
  let s := PyStr.strip p in
  let doc := (doc_and_filename_from_path p).1 in
  let fname := (doc_and_filename_from_path p).2 in
  has_char "/" doc = false
  ∧ has_char "/" fname = false
  ∧ fname = PyStr.basename s
  ∧ (has_char "/" s = false → doc = "root" ∧ fname = s)
  ∧ (has_char "/" s = true →
     ∃ pre, s = pre +:+ doc +:+ "/" +:+ fname
            ∧ (pre = "" ∨ PyStr.endswith "/" pre = true)).
Proof.
  intros s doc fname. subst doc fname.
  unfold doc_and_filename_from_path. fold s.
  pose proof (PyStrMore.split_segments "/" s) as Hseg.
  pose proof (PyStrMore.split_join "/" s) as Hjoin.
  pose proof (KeyFacts.split_without_sep "/" s) as Hnone.
  pose proof (KeyFacts.split_with_sep "/" s) as Hsome.
  unfold PyStr.basename.
  destruct (reverse (PyStr.split "/" s)) as [|l [|b r]] eqn:E.
  - apply (f_equal reverse) in E. rewrite reverse_involutive in E.
    by destruct (split_nonempty "/" s).
  - pose proof (KeyFacts.last_of_reverse _ _ _ "" E) as Hlast.
    apply (f_equal reverse) in E. rewrite reverse_involutive in E.
    change (reverse [l]) with [l] in E. rewrite E in *. cbn [fst snd].
    inversion_clear Hseg. cbn [join] in Hjoin. subst l.
    repeat split; try done.
    intros Hs%Hsome. simpl in Hs. lia.
  - pose proof (KeyFacts.last_of_reverse _ _ _ "" E) as Hlast.
    apply (f_equal reverse) in E. rewrite reverse_involutive in E.
    rewrite !reverse_cons, <- (assoc_L (++)) in E. cbn [app] in E.
    rewrite E in *. cbn [fst snd].
    apply Forall_app in Hseg as [Hr Hbl].
    inversion_clear Hbl as [|?? Hb Hl']. inversion_clear Hl' as [|?? Hl _].
    split; [done|]. split; [done|]. split; [done|]. split.
    + intros Hs%Hnone. apply (f_equal length) in Hs.
      rewrite length_app in Hs. simpl in Hs. lia.
    + intros _. destruct (reverse r) as [|x rr] eqn:Er.
      * exists "". split; [|by left]. by rewrite <- Hjoin.
      * exists (join "/" (x :: rr) +:+ "/"). split.
        -- rewrite <- Hjoin, KeyFacts.join_app by done.
           by rewrite !app_assoc.
        -- right. apply PyStrMore.endswith_spec. by eexists.
Qed.

Lemma key_and_file_name_witness :
  ∃ pre, PyStr.strip " scans/A/img1.jpg " = pre +:+ "A" +:+ "/" +:+ "img1.jpg".
Proof.
  destruct (key_and_file_name " scans/A/img1.jpg ") as (_ & _ & _ & _ & Hdec).
  destruct Hdec as (pre & Hpre & _); [reflexivity|].
  exists pre. exact Hpre.
Defined.

(** ** The groups as a partition of the input *)

Lemma group_paths_snoc paths p :
  group_paths (paths ++ [p]) = group_path (group_paths paths) p.
Proof. unfold group_paths. by rewrite fold_left_app. Qed.

Lemma group_path_members (grouped : gmap string (list string)) p :
  concat (map_to_list (group_path grouped p)).*2
  ≡ₚ p :: concat (map_to_list grouped).*2.
Proof.
  unfold group_path. destruct (doc_and_filename_from_path p) as [doc fname].
  destruct (grouped !! doc) as [g|] eqn:E; cbn [default].
  - rewrite <- insert_delete_eq, map_to_list_insert by apply lookup_delete_eq.
    rewrite <- (map_to_list_delete grouped doc g E).
    cbn [fmap list_fmap snd concat].
    rewrite <- (assoc_L (++)), (assoc_L (++) g).
    rewrite (Permutation_app_comm g [p]), <- (assoc_L (++)). done.
  - by rewrite map_to_list_insert by done.
Qed.

Lemma group_paths_lookup_some paths d :
  is_Some (group_paths paths !! d) ↔ ∃ p, p ∈ paths ∧ doc_key p = d.
Proof.
  rewrite group_paths_lookup.
  destruct (filter _ paths) as [|p g] eqn:E.
  - split; [by intros [? ?]|]. intros (p & Hp & Hd).
    assert (p ∈ filter (λ p, doc_key p = d) paths) as Hin
      by by apply list_elem_of_filter.
    rewrite E in Hin. by apply elem_of_nil in Hin.
  - split; [|by eauto]. intros _.
    assert (p ∈ filter (λ p, doc_key p = d) paths) as Hin
      by (rewrite E; left).
    apply list_elem_of_filter in Hin as [? ?]. eauto.
Qed.

Lemma group_paths_members (paths : list string) :
  concat (map_to_list (group_paths paths)).*2 ≡ₚ paths.
Proof.
  induction paths as [|p paths IH] using rev_ind.
  - unfold group_paths. cbn [fold_left]. by rewrite map_to_list_empty.
  - rewrite group_paths_snoc, group_path_members, IH.
    by rewrite Permutation_app_comm.
Qed.

(** X5. Grouping partitions the input paths without removing
    duplicates: the members of all groups together are a rearrangement
    of the input paths, the keys of the groups are exactly the document
    keys that occur, and the group of a key is never empty and holds
    the paths with that key in input order. *)
Theorem groups_partition_input (paths : list string) :
  concat (map_to_list (group_paths paths)).*2 ≡ₚ paths
  ∧ (∀ d, is_Some (group_paths paths !! d)
          ↔ ∃ p, p ∈ paths ∧ doc_key p = d)
  ∧ (∀ d g, group_paths paths !! d = Some g →
            g ≠ [] ∧ g = filter (λ p, doc_key p = d) paths
            ∧ g `sublist_of` paths).
Proof.
  split; [|split].
  - apply group_paths_members.
  - apply group_paths_lookup_some.
  - intros d g. rewrite group_paths_lookup.
    destruct (filter _ paths) as [|p g'] eqn:E; [done|].
    intros [= <-]. split; [done|]. split; [done|].
    rewrite <- E. apply sublist_filter.
Qed.

Lemma groups_partition_input_witness :
  concat (map_to_list
            (group_paths ["A/2.jpg"; "B/1.jpg"; "A/1.jpg"; "A/2.jpg"])).*2
  ≡ₚ ["A/2.jpg"; "B/1.jpg"; "A/1.jpg"; "A/2.jpg"].
Proof.
  apply (groups_partition_input ["A/2.jpg"; "B/1.jpg"; "A/1.jpg"; "A/2.jpg"]).
Defined.

(** ** The documents of a run and the files written *)

Section RunFacts.

Context `{PyRuntime} `{IiifBuilder}.

Lemma by_key_total :
  Total (λ a b : string * list string, String.le a.1 b.1).
Proof. intros a b. apply (total String.le). Qed.

Lemma sorted_items_spec (grouped : gmap string (list string)) :
  sorted_items grouped ≡ₚ map_to_list grouped
  ∧ Sorted String.le (sorted_items grouped).*1
  ∧ NoDup (sorted_items grouped).*1.
Proof.
  unfold sorted_items. split; [apply merge_sort_Permutation|]. split.
  - apply (Sorted_fmap _ (λ a b : string * list string, String.le a.1 b.1));
      [done|].
    apply Sorted_merge_sort, by_key_total.
  - rewrite merge_sort_Permutation. apply NoDup_fst_map_to_list.
Qed.

Lemma documents_spec lines :
  Sorted String.le (documents lines)
  ∧ NoDup (documents lines)
  ∧ ∀ d, d ∈ documents lines
         ↔ ∃ p, p ∈ parse_all_manifests lines ∧ doc_key p = d.
Proof.
  unfold documents.
  destruct (sorted_items_spec (group_paths (parse_all_manifests lines)))
    as (Hperm & Hsorted & Hnodup).
  split; [done|]. split; [done|]. intros d.
  rewrite Hperm, <- group_paths_lookup_some.
  rewrite list_elem_of_fmap. split.
  - intros ([d' g] & -> & Hin%elem_of_map_to_list). eauto.
  - intros [g Hg]. exists (d, g). split; [done|].
    by apply elem_of_map_to_list.
Qed.

Lemma doc_key_no_slash p : has_char "/" (doc_key p) = false.
Proof. apply (key_and_file_name_parts p). Qed.

Lemma path_join_relative output_dir d :
  has_char "/" d = false →
  path_join output_dir (d +:+ ".json")
  = (if PyStr.is_empty output_dir || PyStr.endswith "/" output_dir
     then output_dir else output_dir +:+ "/") +:+ d +:+ ".json".
Proof.
  intros Hd. unfold path_join.
  assert (PyStr.startswith "/" (d +:+ ".json") = false) as ->.
  { destruct d as [|c d]; [done|]. rewrite app_cons. simpl in *.
    apply orb_false_iff in Hd as [Hc _]. unfold PyStr.is_char in Hc.
    destruct (decide (c = "/"%char)); [done|].
    by rewrite decide_False by done. }
  destruct (_ || _); [done|]. by rewrite app_assoc.
Qed.

Lemma path_join_inj output_dir d d' :
  has_char "/" d = false → has_char "/" d' = false →
  path_join output_dir (d +:+ ".json") = path_join output_dir (d' +:+ ".json") →
  d = d'.
Proof.
  intros Hd Hd'. rewrite !path_join_relative by done.
  intros Heq%(inj (String.app _)). by apply PyStrMore.app_inj_r in Heq.
Qed.

(** What a run of [process_docs] adds: the created manifests are those
    of a subsequence of the documents, each with a file at its path. *)
Lemma process_docs_adds net as_completed output_dir iiif_image_base
    project_segment iiif_presentation_base r0 docs r :
  process_docs net as_completed output_dir iiif_image_base project_segment
    iiif_presentation_base r0 docs = Returned r →
  ∃ made : list (string * nat * string),
    made.*1.*1 `sublist_of` docs.*1
    ∧ created_manifests r
      = created_manifests r0
        ++ ((λ m, (m.1.1, path_join output_dir (m.1.1 +:+ ".json"), m.1.2))
              <$> made)
    ∧ files r
      = files r0
        ++ ((λ m, (path_join output_dir (m.1.1 +:+ ".json"), m.2)) <$> made)
    ∧ Forall (λ m, m.2 ≠ "") made
    ∧ length (report_lines r) = length (report_lines r0) + length docs
    ∧ ∀ t, t ∈ total_failures r →
           t ∈ total_failures r0 ∨ t.1.1 ∈ docs.*1.
Proof.
  revert r0. induction docs as [|[doc items] docs IH]; intros r0.
  - intros [= <-]. exists []. cbn. rewrite !app_nil_r.
    split_and!; try done; try lia; by constructor.
  - cbn [process_docs].
    destruct (process_doc _ _ _ _ _ _ r0 (doc, items)) as [r1|] eqn:E1; [|done].
    intros (made & Hsub & Hcm & Hf & Hne & Hlen & Hfail)%IH.
    unfold process_doc in E1.
    destruct (make_manifest_for_doc _ _ _ _ _ _ _)
      as [[[manifest_json created_count] fs]|]; [|done].
    assert (∀ t, t ∈ total_failures r0
                     ++ map (λ '(p, msg), (doc, p, msg)) fs →
                 t ∈ total_failures r0 ∨ t.1.1 = doc) as Hext.
    { intros t [?|Hin]%elem_of_app; [by left|right].
      apply list_elem_of_In, in_map_iff in Hin as ([p msg] & <- & _). done. }
    assert (∀ t, t ∈ total_failures r →
                 t ∈ total_failures r1 ∨ t.1.1 ∈ docs.*1 →
                 t ∈ total_failures r1 ∨ t.1.1 ∈ ((doc, items) :: docs).*1)
      as Hweak.
    { intros t _ [?|?]; [by left|right; by right]. }
    destruct manifest_json as [[|c s]|]; injection E1 as <-;
      cbn [files created_manifests report_lines total_failures] in *.
    + exists made. rewrite Hlen, length_app. cbn.
      repeat split; try done; try lia; [by apply sublist_cons|].
      intros t Ht. destruct (Hfail t Ht) as [Hin|Hin]; [|right; by right].
      destruct (Hext t Hin) as [?| ->]; [by left|right; left].
    + exists ((doc, created_count, String c s) :: made).
      rewrite Hcm, Hf, Hlen, !length_app, <- !(assoc_L (++)). cbn.
      repeat split; try done; try lia;
        [by apply sublist_skip|by constructor|].
      intros t Ht. destruct (Hfail t Ht) as [Hin|Hin]; [|right; by right].
      destruct (Hext t Hin) as [?| ->]; [by left|right; left].
    + exists made. rewrite Hlen, length_app. cbn.
      repeat split; try done; try lia; [by apply sublist_cons|].
      intros t Ht. destruct (Hfail t Ht) as [Hin|Hin]; [|right; by right].
      destruct (Hext t Hin) as [?| ->]; [by left|right; left].
Qed.

End RunFacts.

(** X6. The documents main works through are the document keys of the
    parsed paths, each once, in ascending order of the key strings. *)
Theorem documents_sorted_and_distinct (lines : list string) :
  Sorted String.le (documents lines)
  ∧ NoDup (documents lines)
  ∧ ∀ d, d ∈ documents lines
         ↔ ∃ p, p ∈ parse_all_manifests lines ∧ doc_key p = d.
Proof. apply documents_spec. Qed.

Lemma documents_sorted_and_distinct_witness :
  "A" ∈ documents ["B/1.jpg"; "0a1f  A/2.jpg"; "A/1.jpg"].
Proof.
  apply (documents_sorted_and_distinct ["B/1.jpg"; "0a1f  A/2.jpg"; "A/1.jpg"]).
  exists "A/1.jpg". split; [|reflexivity].
  apply list_elem_of_In. vm_compute. auto.
Defined.

(** X7. When main ends without an exception: a manifest file is written
    exactly for the created manifests, in the same order, each at the
    output directory joined with the document key and .json, with a
    content that is not empty; no path is written twice; the created
    documents come in ascending key order; there is one report line per
    document; and every failure belongs to a document of the run. *)
Theorem run_outputs `{PyRuntime} `{IiifBuilder}
    (net : string → nat → string → response)
    (as_completed : string → list (string * string * json)
                    → list (string * string * json))
    (lines : list string)
    (output_dir iiif_image_base project_segment iiif_presentation_base
       : string) (r : run) :
  main net as_completed lines output_dir iiif_image_base project_segment
    iiif_presentation_base = Returned r →
  (created_manifests r).*1.*1 `sublist_of` documents lines
  ∧ (files r).*1 = (created_manifests r).*1.*2
  ∧ Forall (λ c, c.1.2 = path_join output_dir (c.1.1 +:+ ".json"))
      (created_manifests r)
  ∧ NoDup (files r).*1
  ∧ Forall (λ f, f.2 ≠ "") (files r)
  ∧ length (report_lines r) = length (documents lines)
  ∧ Forall (λ t, t.1.1 ∈ documents lines) (total_failures r).
Proof.
  unfold main.
  intros (made & Hsub & Hcm & Hf & Hne & Hlen & Hfail)%process_docs_adds.
  cbn [created_manifests files report_lines total_failures app] in *.
  fold (documents lines) in Hsub, Hfail.
  destruct (documents_spec lines) as (_ & Hnodup & Hdocs).
  assert ((created_manifests r).*1.*1 = made.*1.*1) as Hkeys.
  { rewrite Hcm, <- !list_fmap_compose. by apply list_fmap_ext. }
  split_and!.
  - by rewrite Hkeys.
  - rewrite Hcm, Hf, <- !list_fmap_compose. by apply list_fmap_ext.
  - rewrite Hcm. apply Forall_fmap, Forall_forall. by intros [[d n] s] _.
  - rewrite Hf.
    assert (((λ m : string * nat * string,
                (path_join output_dir (m.1.1 +:+ ".json"), m.2)) <$> made).*1
            = (λ d, path_join output_dir (d +:+ ".json")) <$> made.*1.*1)
      as -> by (rewrite <- !list_fmap_compose; by apply list_fmap_ext).
    apply NoDup_fmap_2_strong; [|by eapply sublist_NoDup].
    intros d d' Hd Hd'. apply path_join_inj.
    + apply (elem_of_sublist _ _ _ Hd), Hdocs in Hsub as (p & _ & <-).
      apply doc_key_no_slash.
    + apply (elem_of_sublist _ _ _ Hd'), Hdocs in Hsub as (p & _ & <-).
      apply doc_key_no_slash.
  - rewrite Hf. apply Forall_fmap. eapply Forall_impl; [exact Hne|done].
  - rewrite Hlen. unfold documents. by rewrite length_fmap.
  - apply Forall_forall. intros t Ht.
    destruct (Hfail t Ht) as [Hin|Hin]; [by apply elem_of_nil in Hin|done].
Qed.

Lemma run_outputs_witness :
  ∃ r,
    @main plain_python lenient_builder net_img1_down (λ _, id)
      ["B/img1.jpg"; "A/img2.jpg"; "A/img1.jpg"] "out"
      "https://iiif.ub.unibe.ch/image/v3/" "ceresa" "" = Returned r
    ∧ NoDup (files r).*1.
Proof.
  assert (∃ r,
            @main plain_python lenient_builder net_img1_down (λ _, id)
              ["B/img1.jpg"; "A/img2.jpg"; "A/img1.jpg"] "out"
              "https://iiif.ub.unibe.ch/image/v3/" "ceresa" "" = Returned r)
    as [r Hr] by (eexists; vm_compute; reflexivity).
  exists r. split; [exact Hr|].
  apply (@run_outputs plain_python lenient_builder net_img1_down (λ _, id)
           ["B/img1.jpg"; "A/img2.jpg"; "A/img1.jpg"] "out"
           "https://iiif.ub.unibe.ch/image/v3/" "ceresa" "" r Hr).
Defined.

(** ** Accounting for the items of a document *)

Section AccountingFacts.

Context `{PyRuntime} `{IiifBuilder}.

Lemma collect_is_Some (completed : list (string * string * json)) p :
  is_Some (collect completed !! p) ↔ p ∈ completed.*1.*1.
Proof.
  unfold collect.
  assert (∀ results : gmap string (json * string),
            is_Some (fold_left (λ results '(p, service_id, info),
                                  <[p := (info, service_id)]> results)
                       completed results !! p)
            ↔ p ∈ completed.*1.*1 ∨ is_Some (results !! p)) as Hgen.
  { induction completed as [|[[q sid] info] l IH]; intros results.
    - cbn. rewrite elem_of_nil. tauto.
    - cbn [fold_left]. rewrite IH, !fmap_cons, elem_of_cons. cbn [fst].
      destruct (decide (p = q)) as [->|Hne].
      + rewrite lookup_insert_eq. split; [|by eauto]. intros _. by left; left.
      + rewrite lookup_insert_ne by done. tauto. }
  rewrite Hgen, lookup_empty. split; [|by left].
  intros [?|[? ?]]; done.
Qed.

Lemma run_jobs_paths net (jobs : list (string * string)) :
  (run_jobs net jobs).*1.*1 = jobs.*1.
Proof.
  unfold run_jobs. revert net. induction jobs as [|[p sid] jobs IH]; intros net.
  - done.
  - cbn. f_equal. apply (IH (λ i, net (S i))).
Qed.

Lemma job_paths iiif_image_base project_segment (items : list string) p :
  p ∈ (omap (job_of iiif_image_base project_segment) items).*1
  ↔ p ∈ items ∧ is_Some (job_of iiif_image_base project_segment p).
Proof.
  rewrite list_elem_of_fmap. split.
  - intros ([q sid] & Hq & (q' & Hin & Hj)%list_elem_of_omap).
    unfold job_of in *.
    destruct (build_service_id _ _ q') eqn:E; [|done].
    simplify_eq/=. split; [done|]. rewrite E. eauto.
  - intros [Hin [[q sid] Hj]]. exists (q, sid).
    assert (q = p) as ->.
    { unfold job_of in Hj. destruct (build_service_id _ _ p); by simplify_eq. }
    split; [done|]. apply list_elem_of_omap. eauto.
Qed.

Lemma process_item_accounts results st p st' :
  process_item results st p = Returned st' →
  length (failures st') + canvases_created st'
  = length (failures st) + canvases_created st
    + match results !! p with Some _ => 1 | None => 0 end.
Proof.
  unfold process_item.
  destruct (results !! p) as [[info sid]|]; [|intros [= <-]; lia].
  destruct info as [| | | | | |kvs]; try done.
  destruct (Py.truthy _).
  { intros [= <-]. cbn. rewrite length_app. simpl. lia. }
  destruct (build_canvas _ _ _ _ _ _ _) as [m [[]|e]]; intros [= <-]; cbn.
  - lia.
  - rewrite length_app. simpl. lia.
Qed.

Lemma process_all_accounts results st items st' :
  process_all results st items = Returned st' →
  length (failures st') + canvases_created st'
  = length (failures st) + canvases_created st
    + length (filter (λ p, is_Some (results !! p)) items).
Proof.
  revert st. induction items as [|p items IH]; intros st; cbn [process_all].
  - intros [= <-]. cbn. lia.
  - destruct (process_item results st p) as [st1|] eqn:E1; [|done].
    intros ->%IH. rewrite (process_item_accounts _ _ _ _ E1), filter_cons.
    destruct (results !! p); [rewrite decide_True by eauto|
                              rewrite decide_False by (by intros [? ?])];
      simpl; lia.
Qed.

Lemma resolved_or_failed iiif_image_base project_segment
    (results : gmap string (json * string)) (items : list string) :
  (∀ p, p ∈ items →
        is_Some (results !! p)
        ↔ is_Some (job_of iiif_image_base project_segment p)) →
  length (omap (resolution_failure iiif_image_base project_segment) items)
  + length (filter (λ p, is_Some (results !! p)) items)
  = length items.
Proof.
  induction items as [|p items IH]; intros Hres; [done|].
  cbn [omap list_omap]. rewrite filter_cons.
  specialize (IH (λ q Hq, Hres q (list_elem_of_further _ _ _ Hq))).
  pose proof (Hres p (list_elem_of_here _ _)) as Hp.
  unfold resolution_failure at 1. unfold job_of in Hp.
  destruct (build_service_id iiif_image_base project_segment p).
  - rewrite decide_True by (apply Hp; eauto).
    fold (omap (resolution_failure iiif_image_base project_segment) items).
    simpl. lia.
  - rewrite decide_False by (rewrite Hp; by intros [? ?]).
    fold (omap (resolution_failure iiif_image_base project_segment) items).
    simpl. lia.
Qed.

Lemma assemble_accounts net as_completed doc items iiif_image_base
    project_segment iiif_presentation_base st :
  (∀ l, as_completed l ≡ₚ l) →
  assemble net as_completed doc items iiif_image_base project_segment
    iiif_presentation_base = Returned st →
  length (failures st) + canvases_created st = length items.
Proof.
  intros Hperm. unfold assemble.
  destruct (init_manifest doc _) as [m [[]|e]]; [|done].
  rewrite submit_fold. cbn [app].
  intros ->%process_all_accounts. cbn [failures canvases_created].
  rewrite Nat.add_0_r, resolved_or_failed.
  - unfold sorted. by rewrite merge_sort_Permutation.
  - intros p Hp. rewrite collect_is_Some, Hperm, run_jobs_paths, job_paths.
    tauto.
Qed.

End AccountingFacts.

(** X8. Every item of a document is accounted for exactly once: when
    each future completes once and the assembler returns, the number of
    failure records plus the number of canvases counted is the number
    of items, duplicates included; make_manifest_for_doc returns that
    count and those failures, with one more failure when serialization
    fails. *)
Theorem every_item_accounted `{PyRuntime} `{IiifBuilder}
    (net : nat → string → response)
    (as_completed : list (string * string * json)
                    → list (string * string * json))
    (doc : string) (items : list string)
    (iiif_image_base project_segment iiif_presentation_base : string)
    (manifest_json : option string) (created_count : nat)
    (fs : list (string * string)) :
  (∀ l, as_completed l ≡ₚ l) →
  make_manifest_for_doc net as_completed doc items iiif_image_base
    project_segment iiif_presentation_base
  = Returned (manifest_json, created_count, fs) →
  created_count + length fs
  = length items + match manifest_json with Some _ => 0 | None => 1 end
  ∧ created_count ≤ length items.
Proof.
  intros Hperm. unfold make_manifest_for_doc.
  destruct (assemble _ _ _ _ _ _ _) as [st|] eqn:Hst; [|done].
  apply assemble_accounts in Hst; [|done].
  destruct (json_dumps _); intros [= <- <- <-]; rewrite ?length_app; simpl; lia.
Qed.

Lemma every_item_accounted_witness :
  ∃ fs,
    @make_manifest_for_doc plain_python strict_builder (net_img1_down "A")
      reverse "A" ["A/img1.jpg"; "A/img2.jpg"; "https://h/A/img3.jpg"]
      "iiif.example.org" "" ""
    = Returned (Some "{}", 1, fs)
    ∧ 1 + length fs = 3 + 0.
Proof.
  assert (∃ fs,
            @make_manifest_for_doc plain_python strict_builder
              (net_img1_down "A") reverse "A"
              ["A/img1.jpg"; "A/img2.jpg"; "https://h/A/img3.jpg"]
              "iiif.example.org" "" ""
            = Returned (Some "{}", 1, fs)) as [fs Hfs]
    by (eexists; vm_compute; reflexivity).
  exists fs. split; [exact Hfs|].
  apply (@every_item_accounted plain_python strict_builder (net_img1_down "A")
           reverse "A" ["A/img1.jpg"; "A/img2.jpg"; "https://h/A/img3.jpg"]
           "iiif.example.org" "" "" (Some "{}") 1 fs).
  - intros l. apply reverse_Permutation.
  - exact Hfs.
Defined.

(** X9. The count that make_manifest_for_doc reports is the number of
    canvases of the manifest that went through the whole try body;
    canvases left half-built by an exception are in the manifest but
    not in the count, so the count never exceeds the number of
    canvases. *)
Theorem count_is_complete_canvases `{PyRuntime} `{IiifBuilder}
    (net : nat → string → response)
    (as_completed : list (string * string * json)
                    → list (string * string * json))
    (doc : string) (items : list string)
    (iiif_image_base project_segment iiif_presentation_base : string)
    (st : assembly) :
  assemble net as_completed doc items iiif_image_base project_segment
    iiif_presentation_base = Returned st →
  canvases_created st
  = length (filter (λ cv, complete cv = true) (m_items (the_manifest st)))
  ∧ canvases_created st ≤ length (m_items (the_manifest st)).
Proof.
  intros Hst%assemble_counts. unfold counts_complete in Hst.
  split; [done|]. rewrite Hst. apply length_filter.
Qed.

Lemma count_is_complete_canvases_witness :
  ∃ st,
    @assemble plain_python strict_builder net_good id "A"
      ["https://h/A/img2.jpg"; "A/img1.jpg"] "iiif.example.org" "ceresa" ""
    = Returned st
    ∧ canvases_created st ≤ length (m_items (the_manifest st)).
Proof.
  assert (∃ st,
            @assemble plain_python strict_builder net_good id "A"
              ["https://h/A/img2.jpg"; "A/img1.jpg"] "iiif.example.org"
              "ceresa" "" = Returned st) as [st Hst]
    by (eexists; vm_compute; reflexivity).
  exists st. split; [exact Hst|].
  apply (@count_is_complete_canvases plain_python strict_builder net_good id
           "A" ["https://h/A/img2.jpg"; "A/img1.jpg"] "iiif.example.org"
           "ceresa" "" st Hst).
Defined.

(** ** The order of the input does not matter *)

Section InputOrderFacts.

Context `{PyRuntime} `{IiifBuilder}.

Lemma sorted_Permutation items items' :
  items ≡ₚ items' → sorted items = sorted items'.
Proof.
  intros Hp. apply sorted_unique.
  - unfold sorted. apply Sorted_merge_sort, _.
  - unfold sorted. by rewrite merge_sort_Permutation.
Qed.

Lemma make_manifest_Permutation net as_completed doc items items'
    iiif_image_base project_segment iiif_presentation_base :
  items ≡ₚ items' →
  make_manifest_for_doc net as_completed doc items iiif_image_base
    project_segment iiif_presentation_base
  = make_manifest_for_doc net as_completed doc items' iiif_image_base
      project_segment iiif_presentation_base.
Proof.
  intros Hp. unfold make_manifest_for_doc, assemble.
  by rewrite (sorted_Permutation items items').
Qed.

Lemma parse_Permutation lines lines' :
  lines ≡ₚ lines' → parse_all_manifests lines ≡ₚ parse_all_manifests lines'.
Proof.
  induction 1 as [|ln l l' _ IH|x y l|l1 l2 l3 _ IH1 _ IH2].
  - done.
  - change (ln :: l) with ([ln] ++ l). change (ln :: l') with ([ln] ++ l').
    by rewrite !ParserFacts.parse_app, IH.
  - change (y :: x :: l) with ([y] ++ [x] ++ l).
    change (x :: y :: l) with ([x] ++ [y] ++ l).
    rewrite !ParserFacts.parse_app, !(assoc_L (++)).
    by rewrite (Permutation_app_comm (parse_all_manifests [y])).
  - by etrans.
Qed.

Lemma sorted_items_by_key (grouped : gmap string (list string)) :
  sorted_items grouped
  = (λ k, (k, default [] (grouped !! k))) <$> (sorted_items grouped).*1.
Proof.
  destruct (sorted_items_spec grouped) as (Hperm & _ & _).
  rewrite <- list_fmap_compose.
  rewrite <- (list_fmap_id (sorted_items grouped)) at 1.
  apply Forall_fmap_ext_1, Forall_forall. intros [k v] Hin.
  rewrite Hperm in Hin. apply elem_of_map_to_list in Hin.
  cbn. by rewrite Hin.
Qed.

Lemma group_paths_Permutation paths paths' d :
  paths ≡ₚ paths' →
  default [] (group_paths paths !! d) ≡ₚ default [] (group_paths paths' !! d).
Proof.
  intros Hp. rewrite !group_paths_lookup.
  assert (filter (λ p, doc_key p = d) paths
          ≡ₚ filter (λ p, doc_key p = d) paths') as Hf by by rewrite Hp.
  destruct (filter _ paths) as [|x l], (filter _ paths') as [|x' l']; done.
Qed.

Lemma documents_Permutation lines lines' :
  lines ≡ₚ lines' → documents lines = documents lines'.
Proof.
  intros Hp.
  destruct (documents_spec lines) as (Hs & _ & Hd).
  destruct (documents_spec lines') as (Hs' & Hn' & Hd').
  destruct (documents_spec lines) as (_ & Hn & _).
  apply (Sorted_unique String.le); [done..|].
  apply NoDup_Permutation; [done..|]. intros d.
  rewrite Hd, Hd'. by setoid_rewrite (parse_Permutation _ _ Hp).
Qed.

Lemma process_docs_Permutation net as_completed output_dir iiif_image_base
    project_segment iiif_presentation_base r
    (f f' : string → list string) (keys : list string) :
  (∀ k, f k ≡ₚ f' k) →
  process_docs net as_completed output_dir iiif_image_base project_segment
    iiif_presentation_base r ((λ k, (k, f k)) <$> keys)
  = process_docs net as_completed output_dir iiif_image_base project_segment
      iiif_presentation_base r ((λ k, (k, f' k)) <$> keys).
Proof.
  intros Hf. revert r. induction keys as [|k keys IH]; intros r; [done|].
  cbn [fmap list_fmap process_docs].
  assert (process_doc net as_completed output_dir iiif_image_base
            project_segment iiif_presentation_base r (k, f k)
          = process_doc net as_completed output_dir iiif_image_base
              project_segment iiif_presentation_base r (k, f' k)) as ->.
  { unfold process_doc.
    by rewrite (make_manifest_Permutation _ _ _ (f k) (f' k)). }
  destruct (process_doc _ _ _ _ _ _ r (k, f' k)); [|done]. apply IH.
Qed.

Lemma main_Permutation net as_completed lines lines' output_dir
    iiif_image_base project_segment iiif_presentation_base :
  lines ≡ₚ lines' →
  main net as_completed lines output_dir iiif_image_base project_segment
    iiif_presentation_base
  = main net as_completed lines' output_dir iiif_image_base project_segment
      iiif_presentation_base.
Proof.
  intros Hp. unfold main.
  rewrite (sorted_items_by_key (group_paths (parse_all_manifests lines))).
  rewrite (sorted_items_by_key (group_paths (parse_all_manifests lines'))).
  fold (documents lines) (documents lines').
  rewrite (documents_Permutation lines lines') by done.
  apply process_docs_Permutation. intros k.
  by apply group_paths_Permutation, parse_Permutation.
Qed.

End InputOrderFacts.

(** X10. The items of a document may be passed in any order: a
    rearranged item list gives the same manifest, the same count and
    the same failures. *)
Theorem item_order_irrelevant `{PyRuntime} `{IiifBuilder}
    (net : nat → string → response)
    (as_completed : list (string * string * json)
                    → list (string * string * json))
    (doc : string) (items items' : list string)
    (iiif_image_base project_segment iiif_presentation_base : string) :
  items ≡ₚ items' →
  make_manifest_for_doc net as_completed doc items iiif_image_base
    project_segment iiif_presentation_base
  = make_manifest_for_doc net as_completed doc items' iiif_image_base
      project_segment iiif_presentation_base.
Proof. apply make_manifest_Permutation. Qed.

Lemma item_order_irrelevant_witness :
  @make_manifest_for_doc plain_python lenient_builder net_good id "A"
    ["A/img2.jpg"; "A/img1.jpg"] "https://i/" "" ""
  = @make_manifest_for_doc plain_python lenient_builder net_good id "A"
      ["A/img1.jpg"; "A/img2.jpg"] "https://i/" "" "".
Proof.
  apply (@item_order_irrelevant plain_python lenient_builder net_good id "A"
           ["A/img2.jpg"; "A/img1.jpg"] ["A/img1.jpg"; "A/img2.jpg"]).
  apply perm_swap.
Defined.

(** X11. The lines of the input file may come in any order: a
    rearranged input gives the same files, the same created manifests,
    the same report lines and the same failures, or the same
    exception. *)
Theorem line_order_irrelevant `{PyRuntime} `{IiifBuilder}
    (net : string → nat → string → response)
    (as_completed : string → list (string * string * json)
                    → list (string * string * json))
    (lines lines' : list string)
    (output_dir iiif_image_base project_segment iiif_presentation_base
       : string) :
  lines ≡ₚ lines' →
  main net as_completed lines output_dir iiif_image_base project_segment
    iiif_presentation_base
  = main net as_completed lines' output_dir iiif_image_base project_segment
      iiif_presentation_base.
Proof. apply main_Permutation. Qed.

Lemma line_order_irrelevant_witness :
  @main plain_python lenient_builder (λ _, net_good) (λ _, id)
    ["B/img1.jpg"; "A/img1.jpg"] "out" "https://i/" "" ""
  = @main plain_python lenient_builder (λ _, net_good) (λ _, id)
      ["A/img1.jpg"; "B/img1.jpg"] "out" "https://i/" "" "".
Proof.
  apply (@line_order_irrelevant plain_python lenient_builder (λ _, net_good)
           (λ _, id) ["B/img1.jpg"; "A/img1.jpg"] ["A/img1.jpg"; "B/img1.jpg"]).
  apply perm_swap.
Defined.

(** ** When no exception leaves make_manifest_for_doc *)

Section ReturnFacts.

Context `{PyRuntime} `{IiifBuilder}.

Lemma collect_lookup_elem (completed : list (string * string * json))
    p info sid :
  collect completed !! p = Some (info, sid) → (p, sid, info) ∈ completed.
Proof.
  unfold collect.
  assert (∀ results : gmap string (json * string),
            fold_left (λ results '(p, service_id, info),
                         <[p := (info, service_id)]> results)
              completed results !! p = Some (info, sid) →
            (p, sid, info) ∈ completed ∨ results !! p = Some (info, sid))
    as Hgen.
  { induction completed as [|[[q sid'] info'] l IH]; intros results.
    - by right.
    - cbn [fold_left]. intros [Hin|Hl]%IH; [left; by right|].
      destruct (decide (p = q)) as [->|Hne].
      + rewrite lookup_insert_eq in Hl. injection Hl as -> ->. left. left.
      + rewrite lookup_insert_ne in Hl by done. by right. }
  intros [?|Hl]%Hgen; [done|]. by rewrite lookup_empty in Hl.
Qed.

Lemma run_jobs_elem net (jobs : list (string * string)) p sid info :
  (p, sid, info) ∈ run_jobs net jobs →
  ∃ i, info = fetch_info_json (net i) sid.
Proof.
  unfold run_jobs. intros (i & [q sid'] & Heq & _)%elem_of_lookup_imap_1.
  injection Heq as -> -> ->. by exists i.
Qed.

Lemma fetch_of_objects get sid :
  (∀ url v, get url = Body v → ∃ kvs, v = JDict kvs) →
  ∃ kvs, fetch_info_json get sid = JDict kvs.
Proof.
  intros Hobj. unfold fetch_info_json.
  destruct (get _) as [v|e status] eqn:E; [by eapply Hobj|by eexists].
Qed.

Lemma process_all_returns (results : gmap string (json * string)) st items :
  (∀ p info sid, results !! p = Some (info, sid) → ∃ kvs, info = JDict kvs) →
  ∃ st', process_all results st items = Returned st'.
Proof.
  intros Hdict. revert st. induction items as [|p items IH]; intros st.
  - by eexists.
  - cbn [process_all].
    assert (∃ st1, process_item results st p = Returned st1) as [st1 ->].
    { unfold process_item.
      destruct (results !! p) as [[info sid]|] eqn:E; [|by eexists].
      destruct (Hdict _ _ _ E) as [kvs ->].
      destruct (Py.truthy _); [by eexists|].
      destruct (build_canvas _ _ _ _ _ _ _) as [m [[]|e]]; by eexists. }
    apply IH.
Qed.

Lemma init_manifest_returns doc m0 :
  (∀ c, c ∈ [set_id Manifest (ExtendBase (doc +:+ ".json"));
             add_label Manifest "en" doc; add_behavior "paged"] →
        raises (m_base m0) c = None) →
  ∃ m, init_manifest doc m0 = (m, Returned ()).
Proof.
  intros Hinit. unfold init_manifest, bind, on_manifest.
  destruct m0 as [base mc its]. cbn [m_base m_calls m_items] in *.
  rewrite (Hinit (set_id Manifest _)) by (rewrite !elem_of_cons; auto).
  cbn [m_base m_calls m_items].
  rewrite (Hinit (add_label Manifest _ _)) by (rewrite !elem_of_cons; auto).
  cbn [m_base m_calls m_items].
  rewrite (Hinit (add_behavior _)) by (rewrite !elem_of_cons; auto).
  by eexists.
Qed.

Lemma make_manifest_returns net as_completed doc items iiif_image_base
    project_segment iiif_presentation_base :
  (∀ c, c ∈ [set_id Manifest (ExtendBase (doc +:+ ".json"));
             add_label Manifest "en" doc; add_behavior "paged"] →
        raises (base_url iiif_presentation_base) c = None) →
  (∀ i url v, net i url = Body v → ∃ kvs, v = JDict kvs) →
  (∀ l, as_completed l ≡ₚ l) →
  ∃ result,
    make_manifest_for_doc net as_completed doc items iiif_image_base
      project_segment iiif_presentation_base = Returned result.
Proof.
  intros Hinit Hobj Hperm. unfold make_manifest_for_doc, assemble.
  edestruct (init_manifest_returns doc) as [m ->]; [exact Hinit|].
  destruct (fold_left _ _ _) as [fs js].
  edestruct process_all_returns as [st ->].
  - intros p info sid Hl%collect_lookup_elem. rewrite Hperm in Hl.
    apply run_jobs_elem in Hl as [i ->]. apply fetch_of_objects, Hobj.
  - destruct (json_dumps _); by eexists.
Qed.

Lemma assemble_returns net as_completed doc items iiif_image_base
    project_segment iiif_presentation_base :
  (∀ c, c ∈ [set_id Manifest (ExtendBase (doc +:+ ".json"));
             add_label Manifest "en" doc; add_behavior "paged"] →
        raises (base_url iiif_presentation_base) c = None) →
  (∀ i url v, net i url = Body v → ∃ kvs, v = JDict kvs) →
  (∀ l, as_completed l ≡ₚ l) →
  ∃ st,
    assemble net as_completed doc items iiif_image_base project_segment
      iiif_presentation_base = Returned st.
Proof.
  intros Hinit Hobj Hperm. unfold assemble.
  edestruct (init_manifest_returns doc) as [m ->]; [exact Hinit|].
  destruct (fold_left _ _ _) as [fs js].
  apply process_all_returns.
  intros p info sid Hl%collect_lookup_elem. rewrite Hperm in Hl.
  apply run_jobs_elem in Hl as [i ->]. apply fetch_of_objects, Hobj.
Qed.

Lemma run_jobs_job net (jobs : list (string * string)) p sid info :
  (p, sid, info) ∈ run_jobs net jobs → (p, sid) ∈ jobs.
Proof.
  unfold run_jobs. intros (i & [q sid'] & Heq & Hl)%elem_of_lookup_imap_1.
  injection Heq as -> -> _. by apply list_elem_of_lookup_2 in Hl.
Qed.

Lemma job_resolved iiif_image_base project_segment (items : list string)
    p sid :
  (p, sid) ∈ omap (job_of iiif_image_base project_segment) items →
  build_service_id iiif_image_base project_segment p = Returned sid.
Proof.
  intros (q & _ & Hj)%list_elem_of_omap. unfold job_of in Hj.
  destruct (build_service_id _ _ q) eqn:E; by simplify_eq.
Qed.

(** What one turn of the second loop leaves: a failure under the path,
    or a canvas that went through the whole [try] body. *)
Lemma process_item_records results st p st' :
  process_item results st p = Returned st' →
  ∃ later new,
    failures st' = failures st ++ later
    ∧ m_items (the_manifest st') = m_items (the_manifest st) ++ new
    ∧ later.*1 ++ (c_src <$> filter (λ cv, complete cv = true) new)
      = match results !! p with Some _ => [p] | None => [] end
    ∧ (∀ cv, cv ∈ new → complete cv = false →
             ∃ e, (c_src cv, "manifest/canvas creation error: " +:+ e)
                  ∈ later)
    ∧ (∀ kvs sid, results !! p = Some (JDict kvs, sid) →
                  Py.truthy (Py.get_none kvs "error") = true →
                  (p, fetch_failure_message kvs sid) ∈ later).
Proof.
  unfold process_item.
  destruct (results !! p) as [[info sid]|] eqn:Hres.
  2:{ intros [= <-]. exists [], []. rewrite !app_nil_r.
      split_and!; try done. intros cv Hcv. by apply elem_of_nil in Hcv. }
  destruct info as [| | | | | |kvs]; try done.
  destruct (Py.truthy (Py.get_none kvs "error")) eqn:Herr.
  { intros [= <-]. eexists [_], []. cbn. rewrite app_nil_r.
    split_and!; try done.
    - intros cv Hcv. by apply elem_of_nil in Hcv.
    - intros kvs' sid' [= <- <-] _. apply list_elem_of_here. }
  rewrite build_canvas_run.
  destruct (raises (m_base (the_manifest st)) add_canvas_to_items).
  { intros [= <-]. eexists [_], []. cbn. rewrite app_nil_r.
    split_and!; try done.
    - intros cv Hcv. by apply elem_of_nil in Hcv.
    - intros kvs' sid' [= <- <-]. by rewrite Herr. }
  cbv zeta. destruct (first_raise _ _) as [[k e]|] eqn:E; intros [= <-];
    cbn [the_manifest failures with_canvas m_items].
  - apply first_raise_bound in E.
    eexists [_], [_]. split; [done|]. split; [done|].
    rewrite filter_cons, filter_nil, part_of_body_incomplete by done.
    rewrite decide_False by done. split; [done|]. split.
    + intros cv ->%list_elem_of_singleton _. exists e. apply list_elem_of_here.
    + intros kvs' sid' [= <- <-]. by rewrite Herr.
  - eexists [], [_]. rewrite app_nil_r. split; [done|]. split; [done|].
    rewrite filter_cons, filter_nil, whole_body_complete.
    rewrite decide_True by done. split; [done|]. split.
    + intros cv ->%list_elem_of_singleton. by rewrite whole_body_complete.
    + intros kvs' sid' [= <- <-]. by rewrite Herr.
Qed.

Lemma process_all_records results st items st' :
  process_all results st items = Returned st' →
  ∃ later new,
    failures st' = failures st ++ later
    ∧ m_items (the_manifest st') = m_items (the_manifest st) ++ new
    ∧ later.*1 ++ (c_src <$> filter (λ cv, complete cv = true) new)
      ≡ₚ filter (λ p, is_Some (results !! p)) items
    ∧ (∀ cv, cv ∈ new → complete cv = false →
             ∃ e, (c_src cv, "manifest/canvas creation error: " +:+ e)
                  ∈ later)
    ∧ (∀ p kvs sid, p ∈ items → results !! p = Some (JDict kvs, sid) →
                    Py.truthy (Py.get_none kvs "error") = true →
                    (p, fetch_failure_message kvs sid) ∈ later).
Proof.
  revert st. induction items as [|p items IH]; intros st; cbn [process_all].
  - intros [= <-]. exists [], []. rewrite !app_nil_r.
    split_and!; try done.
    + intros cv Hcv. by apply elem_of_nil in Hcv.
    + intros p kvs sid Hp. by apply elem_of_nil in Hp.
  - destruct (process_item results st p) as [st1|] eqn:E1; [|done].
    apply process_item_records in E1
      as (later1 & new1 & Hf1 & Hi1 & Hp1 & Hc1 & He1).
    intros (later & new & Hf & Hi & Hp & Hc & He)%IH.
    exists (later1 ++ later), (new1 ++ new).
    rewrite Hf, Hf1, Hi, Hi1, <- !(assoc_L (++)).
    split; [done|]. split; [done|]. split; [|split].
    + rewrite fmap_app, filter_app, fmap_app, filter_cons.
      transitivity
        ((later1.*1 ++ (c_src <$> filter (λ cv, complete cv = true) new1))
           ++ later.*1 ++ (c_src <$> filter (λ cv, complete cv = true) new)).
      { rewrite <- !(assoc_L (++)). apply Permutation_app_head.
        rewrite !(assoc_L (++)). apply Permutation_app_tail.
        apply Permutation_app_comm. }
      rewrite Hp1, Hp. destruct (results !! p) as [r|].
      * by rewrite decide_True by eauto.
      * by rewrite decide_False by (by intros [? ?]).
    + intros cv [Hcv|Hcv]%elem_of_app Hcomplete.
      * destruct (Hc1 cv Hcv Hcomplete) as [e He']. exists e.
        apply elem_of_app. by left.
      * destruct (Hc cv Hcv Hcomplete) as [e He']. exists e.
        apply elem_of_app. by right.
    + intros q kvs sid [->|Hq]%elem_of_cons Hres Herr; apply elem_of_app.
      * left. by apply He1.
      * right. by apply (He q).
Qed.

Lemma resolved_or_failed_paths iiif_image_base project_segment
    (results : gmap string (json * string)) (items : list string) :
  (∀ p, p ∈ items →
        is_Some (results !! p)
        ↔ is_Some (job_of iiif_image_base project_segment p)) →
  (omap (resolution_failure iiif_image_base project_segment) items).*1
  ++ filter (λ p, is_Some (results !! p)) items
  ≡ₚ items.
Proof.
  induction items as [|p items IH]; intros Hres; [done|].
  cbn [omap list_omap]. rewrite filter_cons.
  specialize (IH (λ q Hq, Hres q (list_elem_of_further _ _ _ Hq))).
  pose proof (Hres p (list_elem_of_here _ _)) as Hp.
  unfold resolution_failure at 1. unfold job_of in Hp.
  destruct (build_service_id iiif_image_base project_segment p).
  - rewrite decide_True by (apply Hp; eauto).
    fold (omap (resolution_failure iiif_image_base project_segment) items).
    rewrite <- Permutation_middle. by constructor.
  - rewrite decide_False by (rewrite Hp; by intros [? ?]).
    fold (omap (resolution_failure iiif_image_base project_segment) items).
    cbn. by constructor.
Qed.

Lemma assemble_records net as_completed doc items iiif_image_base
    project_segment iiif_presentation_base st :
  (∀ l, as_completed l ≡ₚ l) →
  assemble net as_completed doc items iiif_image_base project_segment
    iiif_presentation_base = Returned st →
  (failures st).*1
  ++ (c_src <$> filter (λ cv, complete cv = true) (m_items (the_manifest st)))
  ≡ₚ items
  ∧ (∀ p e, p ∈ items →
            build_service_id iiif_image_base project_segment p = Raised e →
            (p, "service id build failed: " +:+ e) ∈ failures st)
  ∧ (∀ p sid str_e status,
       p ∈ items →
       build_service_id iiif_image_base project_segment p = Returned sid →
       (∀ i, net i (info_url_of sid) = Failed str_e status) →
       str_e ≠ "" →
       (p, "info.json fetch failed for " +:+ info_url_of sid +:+ ": "
           +:+ str_e) ∈ failures st)
  ∧ (∀ cv, cv ∈ m_items (the_manifest st) → complete cv = false →
           ∃ e, (c_src cv, "manifest/canvas creation error: " +:+ e)
                ∈ failures st).
Proof.
  intros Hperm. unfold assemble.
  destruct (init_manifest doc _) as [m [[]|e]] eqn:Hinit; [|done].
  apply init_manifest_run in Hinit as (_ & Hi0 & _). cbn [m_items] in Hi0.
  rewrite submit_fold. cbn [app].
  set (jobs := omap (job_of iiif_image_base project_segment) (sorted items)).
  set (results := collect (as_completed (run_jobs net jobs))).
  assert (∀ p, is_Some (results !! p)
               ↔ p ∈ sorted items
                 ∧ is_Some (job_of iiif_image_base project_segment p))
    as Hkeys.
  { intros p. unfold results, jobs.
    by rewrite collect_is_Some, Hperm, run_jobs_paths, job_paths. }
  assert (∀ p, p ∈ sorted items ↔ p ∈ items) as Hin.
  { intros p. unfold sorted. by rewrite merge_sort_Permutation. }
  intros (later & new & Hf & Hi & Hp & Hc & He)%process_all_records.
  cbn [failures the_manifest] in Hf, Hi. rewrite Hi0 in Hi. cbn [app] in Hi.
  rewrite Hf, Hi. split; [|split; [|split]].
  - rewrite fmap_app, <- (assoc_L (++)), Hp, resolved_or_failed_paths.
    + unfold sorted. apply merge_sort_Permutation.
    + intros p Hps. rewrite Hkeys. tauto.
  - intros p e' Hitem Hraise. apply elem_of_app. left.
    apply list_elem_of_omap. exists p. split; [by apply Hin|].
    unfold resolution_failure. by rewrite Hraise.
  - intros p sid str_e status Hitem Hsid Hnet Hne. apply elem_of_app. right.
    assert (is_Some (results !! p)) as [[info sid'] Hl].
    { apply Hkeys. split; [by apply Hin|]. unfold job_of. rewrite Hsid. eauto. }
    pose proof Hl as Hl'. apply collect_lookup_elem in Hl'.
    rewrite Hperm in Hl'. pose proof (run_jobs_job _ _ _ _ _ Hl') as Hjob.
    apply job_resolved in Hjob. rewrite Hsid in Hjob. injection Hjob as <-.
    apply run_jobs_elem in Hl' as [i ->].
    unfold fetch_info_json in Hl. fold (info_url_of sid) in Hl.
    rewrite Hnet in Hl.
    assert (Py.truthy
              (Py.get_none
                 [("error", JStr str_e); ("status_code", status);
                  ("info_url", JStr (info_url_of sid))] "error") = true)
      as Htruthy by (by destruct str_e).
    apply (He p _ _ (proj2 (Hin p) Hitem) Hl Htruthy).
  - intros cv Hcv Hcomplete. destruct (Hc cv Hcv Hcomplete) as [e' He'].
    exists e'. apply elem_of_app. by right.
Qed.

End ReturnFacts.

(** X12. No exception leaves make_manifest_for_doc when the three calls
    that set up the manifest do not raise and every body the image
    service answers with is a JSON object.  What it returns holds a
    failure for everything that went wrong: each item is, exactly
    once, either the path of a failure or the source of a canvas that
    went through the whole try body; a path that does not resolve has
    its "service id build failed" record, a path whose requests fail
    has its "info.json fetch failed" record with the URL and the
    message, a canvas that was left half-built has a "manifest/canvas
    creation error" record under its path, and an exception of
    json_dumps adds the manifest_dumps record. *)
Theorem failures_are_returned `{PyRuntime} `{IiifBuilder}
    (net : nat → string → response)
    (as_completed : list (string * string * json)
                    → list (string * string * json))
    (doc : string) (items : list string)
    (iiif_image_base project_segment iiif_presentation_base : string) :
  (∀ c, c ∈ [set_id Manifest (ExtendBase (doc +:+ ".json"));
             add_label Manifest "en" doc; add_behavior "paged"] →
        raises (base_url iiif_presentation_base) c = None) →
  (∀ i url v, net i url = Body v → ∃ kvs, v = JDict kvs) →
  (∀ l, as_completed l ≡ₚ l) →
  ∃ st,
    assemble net as_completed doc items iiif_image_base project_segment
      iiif_presentation_base = Returned st
    ∧ make_manifest_for_doc net as_completed doc items iiif_image_base
        project_segment iiif_presentation_base
      = Returned
          match json_dumps (the_manifest st) with
          | Returned text => (Some text, canvases_created st, failures st)
          | Raised e =>
              (None, canvases_created st,
               failures st
                 ++ [("manifest_dumps", "json_dumps failed: " +:+ e)])
          end
    ∧ (failures st).*1
      ++ (c_src <$> filter (λ cv, complete cv = true)
                      (m_items (the_manifest st)))
      ≡ₚ items
    ∧ (∀ p e, p ∈ items →
              build_service_id iiif_image_base project_segment p = Raised e →
              (p, "service id build failed: " +:+ e) ∈ failures st)
    ∧ (∀ p sid str_e status,
         p ∈ items →
         build_service_id iiif_image_base project_segment p = Returned sid →
         (∀ i, net i (info_url_of sid) = Failed str_e status) →
         str_e ≠ "" →
         (p, "info.json fetch failed for " +:+ info_url_of sid +:+ ": "
             +:+ str_e) ∈ failures st)
    ∧ (∀ cv, cv ∈ m_items (the_manifest st) → complete cv = false →
             ∃ e, (c_src cv, "manifest/canvas creation error: " +:+ e)
                  ∈ failures st).
Proof.
  intros Hinit Hobj Hperm.
  destruct (assemble_returns net as_completed doc items iiif_image_base
              project_segment iiif_presentation_base Hinit Hobj Hperm)
    as [st Hst].
  exists st. split; [exact Hst|]. split.
  - unfold make_manifest_for_doc. rewrite Hst.
    by destruct (json_dumps (the_manifest st)).
  - by apply (assemble_records net as_completed doc items iiif_image_base
                project_segment iiif_presentation_base).
Qed.

Lemma failures_are_returned_witness :
  ∃ st,
    @assemble plain_python (width_checking_builder "width is not positive")
      (net_no_width "A") reverse "A"
      ["A/img0.jpg"; "https://h/A/img1.jpg"; "https://h/A/img2.jpg"]
      "" "" "" = Returned st
    ∧ failures st
      = [("A/img0.jpg",
          "service id build failed: "
          +:+ "No IIIF_IMAGE_BASE provided and path is not a URL: A/img0.jpg");
         ("https://h/A/img1.jpg",
          "manifest/canvas creation error: " +:+ "width is not positive")]
    ∧ (failures st).*1
      ++ (c_src <$> filter (λ cv, complete cv = true)
                      (m_items (the_manifest st)))
      ≡ₚ ["A/img0.jpg"; "https://h/A/img1.jpg"; "https://h/A/img2.jpg"].
Proof.
  destruct (@failures_are_returned plain_python
              (width_checking_builder "width is not positive")
              (net_no_width "A") reverse "A"
              ["A/img0.jpg"; "https://h/A/img1.jpg"; "https://h/A/img2.jpg"]
              "" "" "") as (st & Hst & _ & Hall & _).
  - intros c Hc. rewrite !elem_of_cons in Hc.
    destruct Hc as [->|[->|[->|Hc]]]; [done..|].
    by apply elem_of_nil in Hc.
  - intros i url v. unfold net_no_width.
    destruct (PyStr.endswith _ url); intros [= <-]; by eexists.
  - intros l. apply reverse_Permutation.
  - exists st. split; [exact Hst|]. split; [|exact Hall].
    vm_compute in Hst. injection Hst as <-. reflexivity.
Defined.

(** ** The paths the parser gives *)

Section ParsedPaths.

Import Re ReFacts ParserFacts.

Lemma parse_one_blank ln :
  nonblank ln = false → parse_all_manifests [ln] = [].
Proof.
  unfold nonblank. intros Hb%negb_false_iff.
  unfold parse_all_manifests. simpl. unfold parse_line.
  rewrite blank_body. apply strip_empty_iff in Hb. by rewrite Hb.
Qed.

Lemma parse_one_nonblank ln :
  nonblank ln = true → ∃ p, parse_all_manifests [ln] = [p] ∧ p ≠ "".
Proof.
  unfold nonblank. intros Hb%negb_true_iff.
  unfold parse_all_manifests. simpl. unfold parse_line.
  rewrite blank_body.
  destruct (PyStr.is_empty (PyStr.strip ln)) eqn:E.
  { apply strip_empty_iff in E. congruence. }
  destruct (match_items line_re _) as [gs|] eqn:Hm.
  - destruct (captures_line_re _ _ (match_items_sound _ _ _ Hm))
      as (hex & path & -> & Hline).
    exists path. split; [done|].
    by destruct Hline as (? & ? & ? & _ & _ & _ & _ & _ & _ & _ & ? & _).
  - eexists. split; [done|].
    rewrite strip_rstrip by apply newline_is_space.
    intros E'. by rewrite E' in E.
Qed.

Lemma parse_counts lines :
  length (parse_all_manifests lines)
  = length (filter (λ ln, nonblank ln) lines)
  ∧ Forall (λ p, p ≠ "") (parse_all_manifests lines).
Proof.
  induction lines as [|ln lines [IHn IHf]]; [by split; [|constructor]|].
  change (ln :: lines) with ([ln] ++ lines).
  rewrite parse_app, filter_app, !length_app, filter_cons, filter_nil.
  destruct (nonblank ln) eqn:E.
  - destruct (parse_one_nonblank ln E) as (p & -> & Hp).
    rewrite decide_True by done. split; [simpl; lia|]. by constructor.
  - rewrite (parse_one_blank ln E), decide_False by (by intros []). by split.
Qed.

(** A checksum that is followed by nothing but two or more whitespace
    characters: the pattern gives up one of them to the path group. *)
Lemma line_re_blank_path ws0 hex ws c :
  all_chars space ws0 = true →
  all_chars hexdigit hex = true → hex ≠ "" →
  all_chars space ws = true → ws ≠ "" →
  space c = true → dot c = true →
  match_items line_re (ws0 +:+ hex +:+ ws +:+ String c "")
  = Some [hex; String c ""].
Proof.
  intros H0 H1 N1 H2 N2 Hc Hd.
  assert (∀ a, a ≠ "" → 1 ≤ String.length a) as Hlen.
  { intros [|??] ?; [done|simpl; lia]. }
  unfold line_re.
  apply (greedy_step (Item space 0 Greedy false) _ ws0 _ [hex; String c ""]);
    [done|done| |simpl; lia|].
  { by apply (span_first _ hexdigit); [apply hexdigit_not_space|..]. }
  apply (greedy_step (Item hexdigit 1 Greedy true) _ hex _ [String c ""]);
    [done|done| |simpl; auto|].
  { apply (span_first _ space); [|done..].
    intros d Hd'. destruct (hexdigit d) eqn:E; [|done].
    apply hexdigit_not_space in E. unfold space in *. congruence. }
  cbn [match_items cls capturing].
  assert (span space (ws +:+ String c "") = S (String.length ws)) as ->.
  { rewrite span_all; [rewrite app_length; simpl; lia|].
    rewrite all_chars_app, H2. simpl. by rewrite Hc. }
  unfold counts. cbn [how at_least].
  replace (S (S (String.length ws)) - 1) with (S (String.length ws)) by lia.
  rewrite seq_S, reverse_snoc. cbn [first_some].
  replace (1 + String.length ws) with (String.length (ws +:+ String c ""))
    by (rewrite app_length; simpl; lia).
  rewrite drop_length. cbn [span seq first_some Nat.sub].
  destruct (String.length ws) as [|n] eqn:En.
  { destruct ws; [done|discriminate]. }
  rewrite seq_S, reverse_snoc. cbn [first_some].
  replace (1 + n) with (String.length ws) by lia.
  rewrite drop_app_length. cbn [span]. rewrite Hd. cbn.
  by change (at_end "") with true.
Qed.

End ParsedPaths.

(** X13. The parser gives one path for each line that is not blank, so
    the number of paths main announces is the number of such lines, and
    no path it gives is the empty string. *)
Theorem one_path_per_nonblank_line (lines : list string) :
  length (parse_all_manifests lines)
  = length (filter (λ ln, nonblank ln) lines)
  ∧ Forall (λ p, p ≠ "") (parse_all_manifests lines).
Proof. apply parse_counts. Qed.

(** X14. A line that holds a checksum and after it only whitespace, two
    characters or more, is read as a checksum line: the path it gives
    is the last whitespace character of the line before its newlines.
    Such a path is filed under the document "root", with an empty file
    name. *)
Theorem checksum_then_blanks (ws0 hex ws : string) (c : ascii) (nl : string) :
  all_chars Re.space ws0 = true →
  all_chars Re.hexdigit hex = true → hex ≠ "" →
  all_chars Re.space ws = true → ws ≠ "" →
  Re.space c = true → PyStr.is_char "010" c = false →
  all_chars (PyStr.is_char "010") nl = true →
  parse_all_manifests [ws0 +:+ hex +:+ ws +:+ String c nl] = [String c ""]
  ∧ doc_and_filename_from_path (String c "") = ("root", "").
Proof.
  intros H0 H1 N1 H2 N2 Hc Hn Hnl.
  assert (PyStr.strip (String c "") = "") as Hstrip.
  { unfold PyStr.strip, PyStr.strip_with. simpl.
    unfold Re.space in Hc. by rewrite Hc. }
  split.
  - unfold parse_all_manifests. simpl. unfold parse_line.
    assert (PyStr.rstrip (PyStr.is_char "010")
              (ws0 +:+ hex +:+ ws +:+ String c nl)
            = ws0 +:+ hex +:+ ws +:+ String c "") as ->.
    { change (String c nl) with (String c "" +:+ nl).
      rewrite <- !app_assoc.
      rewrite rstrip_app_keep.
      - rewrite ParserFacts.all_rstrip_empty by done. by rewrite app_empty_r.
      - apply ParserFacts.rstrip_app_r; [|done].
        by rewrite rstrip_keep.
      - intros E%(f_equal String.length). rewrite !app_length in E.
        simpl in E. lia. }
    destruct (PyStr.is_empty _) eqn:E.
    { apply ParserFacts.strip_empty_iff in E.
      rewrite !ReFacts.all_chars_app in E.
      destruct hex as [|d hex]; [done|]. simpl in *.
      apply andb_true_iff in H1 as [Hd%ParserFacts.hexdigit_not_space _].
      unfold Re.space in Hd. rewrite Hd in E. simpl in E.
      by rewrite andb_false_r in E. }
    rewrite line_re_blank_path; try done.
    unfold Re.dot. by rewrite Hn.
  - unfold doc_and_filename_from_path. by rewrite Hstrip.
Qed.

Lemma checksum_then_blanks_witness :
  parse_all_manifests ["d41d8cd98f00b204  " +:+ String "010" ""] = [" "]
  ∧ doc_and_filename_from_path " " = ("root", "").
Proof.
  apply (checksum_then_blanks "" "d41d8cd98f00b204" " " " "
           (String "010" "")); try reflexivity; discriminate.
Defined.

(** ** A run in which nothing fails *)

Section CleanRunFacts.

Context `{PyRuntime} `{IiifBuilder}.

Lemma process_item_clean results st p kvs sid :
  (∀ base c, raises base c = None) →
  results !! p = Some (JDict kvs, sid) →
  Py.truthy (Py.get_none kvs "error") = false →
  ∃ cv,
    process_item results st p
    = Returned {| failures := failures st;
                  canvases_created := canvases_created st + 1;
                  the_manifest := with_canvas (the_manifest st) cv |}
    ∧ c_src cv = p ∧ complete cv = true.
Proof.
  intros Hq Hres Herr. unfold process_item. rewrite Hres, Herr.
  rewrite build_canvas_run, Hq. cbv zeta.
  rewrite first_raise_none by (intros; apply Hq).
  eexists. split; [done|]. split; [done|]. apply whole_body_complete.
Qed.

Lemma process_all_clean results st items :
  (∀ base c, raises base c = None) →
  (∀ p, p ∈ items →
        ∃ kvs sid, results !! p = Some (JDict kvs, sid)
                   ∧ Py.truthy (Py.get_none kvs "error") = false) →
  ∃ st' new,
    process_all results st items = Returned st'
    ∧ failures st' = failures st
    ∧ canvases_created st' = canvases_created st + length items
    ∧ m_items (the_manifest st') = m_items (the_manifest st) ++ new
    ∧ c_src <$> new = items
    ∧ Forall (λ cv, complete cv = true) new.
Proof.
  intros Hq. revert st. induction items as [|p items IH]; intros st Hres.
  - exists st, []. rewrite app_nil_r. cbn. split_and!; try done; lia.
  - destruct (Hres p) as (kvs & sid & Hp & Herr); [left|].
    destruct (process_item_clean results st p kvs sid Hq Hp Herr)
      as (cv & Hcv & Hsrc & Hcomplete).
    cbn [process_all]. rewrite Hcv.
    edestruct IH as (st' & new & -> & Hf & Hn & Hi & Hs & Hc).
    { intros q Hq'. apply Hres. by right. }
    exists st', (cv :: new).
    cbn [failures canvases_created the_manifest with_canvas m_items]
      in Hf, Hn, Hi.
    split_and!; try done.
    + cbn [length]. lia.
    + by rewrite Hi, <- (assoc_L (++)).
    + cbn. by rewrite Hsrc, Hs.
    + by constructor.
Qed.

Lemma all_resolve iiif_image_base project_segment (items : list string) :
  (∀ p, p ∈ items →
        ∃ service_id,
          build_service_id iiif_image_base project_segment p
          = Returned service_id) →
  omap (resolution_failure iiif_image_base project_segment) items = []
  ∧ (omap (job_of iiif_image_base project_segment) items).*1 = items.
Proof.
  induction items as [|p items IH]; intros Hres; [done|].
  destruct (Hres p) as [sid Hp]; [left|].
  destruct IH as [IH1 IH2]; [intros q ?; apply Hres; by right|].
  cbn [omap list_omap]. unfold resolution_failure at 1, job_of at 1.
  rewrite Hp.
  fold (omap (resolution_failure iiif_image_base project_segment) items).
  fold (omap (job_of iiif_image_base project_segment) items).
  split; [done|]. cbn. by rewrite IH2.
Qed.

Lemma assemble_clean net as_completed doc items iiif_image_base
    project_segment iiif_presentation_base :
  (∀ p, p ∈ items →
        ∃ service_id,
          build_service_id iiif_image_base project_segment p
          = Returned service_id) →
  (∀ base c, raises base c = None) →
  (∀ i url, ∃ kvs, net i url = Body (JDict kvs)
                   ∧ Py.truthy (Py.get_none kvs "error") = false) →
  (∀ l, as_completed l ≡ₚ l) →
  ∃ st,
    assemble net as_completed doc items iiif_image_base project_segment
      iiif_presentation_base = Returned st
    ∧ failures st = []
    ∧ canvases_created st = length items
    ∧ c_src <$> m_items (the_manifest st) = sorted items
    ∧ Forall (λ cv, complete cv = true) (m_items (the_manifest st)).
Proof.
  intros Hres Hq Hnet Hperm. unfold assemble.
  edestruct (init_manifest_returns doc) as [m Hm]; [intros; apply Hq|].
  rewrite Hm. apply init_manifest_run in Hm as (_ & Hi & _).
  cbn [m_items] in Hi.
  rewrite submit_fold. cbn [app].
  destruct (all_resolve iiif_image_base project_segment (sorted items))
    as [-> Hjobs].
  { intros p Hp. apply Hres. unfold sorted in Hp.
    by rewrite merge_sort_Permutation in Hp. }
  edestruct (process_all_clean
               (collect (as_completed
                  (run_jobs net
                     (omap (job_of iiif_image_base project_segment)
                        (sorted items)))))
               {| failures := []; canvases_created := 0; the_manifest := m |}
               (sorted items) Hq)
    as (st' & new & -> & Hf & Hn & Hit & Hs & Hc).
  - intros p Hp.
    assert (is_Some (collect (as_completed
                       (run_jobs net
                          (omap (job_of iiif_image_base project_segment)
                             (sorted items)))) !! p)) as [[info sid] Hl].
    { rewrite collect_is_Some, Hperm, run_jobs_paths, Hjobs. done. }
    pose proof Hl as Hl'. apply collect_lookup_elem in Hl'.
    rewrite Hperm in Hl'. apply run_jobs_elem in Hl' as [i ->].
    unfold fetch_info_json in *.
    destruct (Hnet i (PyStr.rstrip (PyStr.is_char "/") sid +:+ "/info.json"))
      as (kvs & Hbody & Herr).
    rewrite Hbody in Hl. eauto.
  - exists st'. cbn in Hf, Hn, Hit. rewrite Hi in Hit. cbn in Hit.
    split_and!; try done.
    + rewrite Hn. unfold sorted.
      by rewrite merge_sort_Permutation.
    + by rewrite Hit.
    + by rewrite Hit.
Qed.

(** The failures of the second loop come after those of the first, and
    name paths in the order of the loop. *)
Lemma process_all_failures results st items st' :
  process_all results st items = Returned st' →
  ∃ later,
    failures st' = failures st ++ later
    ∧ later.*1 `sublist_of` items
    ∧ Forall (λ f, PyStr.startswith "info.json fetch failed for " f.2 = true
                   ∨ PyStr.startswith "manifest/canvas creation error: " f.2
                     = true) later.
Proof.
  revert st. induction items as [|p items IH]; intros st; cbn [process_all].
  - intros [= <-]. exists []. by rewrite app_nil_r.
  - destruct (process_item results st p) as [st1|] eqn:E1; [|done].
    intros (later & Hl & Hs & Hm)%IH.
    assert (failures st1 = failures st
            ∨ ∃ msg, failures st1 = failures st ++ [(p, msg)]
                     ∧ (PyStr.startswith "info.json fetch failed for " msg
                        = true
                        ∨ PyStr.startswith "manifest/canvas creation error: "
                            msg = true)) as [Hst|(msg & Hst & Hmsg)].
    { unfold process_item in E1.
      destruct (results !! p) as [[info sid]|]; [|left; by simplify_eq].
      destruct info as [| | | | | |kvs]; try done.
      destruct (Py.truthy _).
      - right. simplify_eq. eexists. split; [done|]. left.
        apply startswith_spec. eauto.
      - destruct (build_canvas _ _ _ _ _ _ _) as [m [[]|e]]; simplify_eq.
        + by left.
        + right. eexists. split; [done|]. right.
          apply startswith_spec. eauto. }
    + exists later. rewrite Hl, Hst. split; [done|].
      split; [by apply sublist_cons|done].
    + exists ((p, msg) :: later). rewrite Hl, Hst, <- (assoc_L (++)).
      split; [done|]. split; [cbn; by apply sublist_skip|by constructor].
Qed.

Lemma resolution_failures_sublist iiif_image_base project_segment
    (items : list string) :
  (omap (resolution_failure iiif_image_base project_segment) items).*1
  `sublist_of` items.
Proof.
  induction items as [|p items IH]; [done|].
  cbn [omap list_omap]. unfold resolution_failure at 1.
  destruct (build_service_id _ _ p).
  - by apply sublist_cons.
  - cbn. by apply sublist_skip.
Qed.

End CleanRunFacts.

(** X15. A run in which nothing fails: when every item resolves to a
    service id, every request is answered by a JSON object without a
    truthy "error", and no builder call raises, the assembler returns
    with no failure, a count equal to the number of items, and one
    canvas per item, in sorted path order, each built by the whole try
    body; if serialization succeeds, make_manifest_for_doc returns the
    text with that count and an empty failure list. *)
Theorem clean_run `{PyRuntime} `{IiifBuilder}
    (net : nat → string → response)
    (as_completed : list (string * string * json)
                    → list (string * string * json))
    (doc : string) (items : list string)
    (iiif_image_base project_segment iiif_presentation_base : string) :
  (∀ p, p ∈ items →
        ∃ service_id,
          build_service_id iiif_image_base project_segment p
          = Returned service_id) →
  (∀ base c, raises base c = None) →
  (∀ i url, ∃ kvs, net i url = Body (JDict kvs)
                   ∧ Py.truthy (Py.get_none kvs "error") = false) →
  (∀ l, as_completed l ≡ₚ l) →
  ∃ st,
    assemble net as_completed doc items iiif_image_base project_segment
      iiif_presentation_base = Returned st
    ∧ failures st = []
    ∧ canvases_created st = length items
    ∧ c_src <$> m_items (the_manifest st) = sorted items
    ∧ Forall (λ cv, complete cv = true) (m_items (the_manifest st))
    ∧ ∀ manifest_json,
        json_dumps (the_manifest st) = Returned manifest_json →
        make_manifest_for_doc net as_completed doc items iiif_image_base
          project_segment iiif_presentation_base
        = Returned (Some manifest_json, length items, []).
Proof.
  intros Hres Hq Hnet Hperm.
  destruct (assemble_clean net as_completed doc items iiif_image_base
              project_segment iiif_presentation_base Hres Hq Hnet Hperm)
    as (st & Hst & Hf & Hn & Hs & Hc).
  exists st. split_and!; try done.
  intros manifest_json Hj. unfold make_manifest_for_doc.
  by rewrite Hst, Hj, Hf, Hn.
Qed.

Lemma clean_run_witness :
  ∃ st,
    @assemble plain_python lenient_builder net_good reverse "A"
      ["A/img2.jpg"; "https://h/A/img1.jpg"] "https://iiif.example.org/"
      "ceresa" "" = Returned st
    ∧ failures st = []
    ∧ canvases_created st = 2
    ∧ c_src <$> m_items (the_manifest st)
      = ["A/img2.jpg"; "https://h/A/img1.jpg"].
Proof.
  destruct (@clean_run plain_python lenient_builder net_good reverse "A"
              ["A/img2.jpg"; "https://h/A/img1.jpg"]
              "https://iiif.example.org/" "ceresa" "")
    as (st & Hst & Hf & Hn & Hs & _).
  - intros p Hp. rewrite !elem_of_cons in Hp.
    destruct Hp as [->|[->|Hp]]; [eexists; vm_compute; reflexivity..|].
    by apply elem_of_nil in Hp.
  - reflexivity.
  - intros i url. eexists. split; reflexivity.
  - intros l. apply reverse_Permutation.
  - exists st. split; [exact Hst|]. split; [exact Hf|]. split; [exact Hn|].
    rewrite Hs. vm_compute. reflexivity.
Defined.

(** X16. When no call on a canvas or below it raises, the canvases of
    the manifest have the ids canvas/p1, canvas/p2, ... in order, which
    are pairwise distinct, and the count is the number of canvases,
    whatever requests or resolutions fail. *)
Theorem canvas_ids_distinct `{PyRuntime} `{IiifBuilder}
    (net : nat → string → response)
    (as_completed : list (string * string * json)
                    → list (string * string * json))
    (doc : string) (items : list string)
    (iiif_image_base project_segment iiif_presentation_base : string)
    (st : assembly) :
  (∀ base c, c ≠ add_canvas_to_items → raises base c = None) →
  assemble net as_completed doc items iiif_image_base project_segment
    iiif_presentation_base = Returned st →
  NoDup (canvas_id_arg <$> m_items (the_manifest st))
  ∧ canvas_id_arg <$> m_items (the_manifest st)
    = nth_canvas_id <$> seq 1 (length (m_items (the_manifest st)))
  ∧ canvases_created st = length (m_items (the_manifest st)).
Proof.
  intros Hq Hst.
  destruct (indices_contiguous_without_setter_failure net as_completed doc
              items iiif_image_base project_segment iiif_presentation_base
              st Hq Hst) as [Hids Hlen].
  rewrite Hlen. split_and!; try done. rewrite Hids.
  apply NoDup_fmap_2; [|apply NoDup_seq].
  intros n m [= Hnm]. apply pretty_nat_inj. revert Hnm.
  change (PyStr.of_nat n) with (pretty n).
  change (PyStr.of_nat m) with (pretty m).
  generalize (pretty n) (pretty m). intros a b Hab.
  repeat (rewrite app_cons in Hab; injection Hab as Hab). done.
Qed.

Lemma canvas_ids_distinct_witness :
  ∃ st,
    @assemble plain_python lenient_builder (net_img1_down "A") id "A"
      ["A/img3.jpg"; "A/img1.jpg"; "A/img2.jpg"] "https://iiif.example.org"
      "" "" = Returned st
    ∧ NoDup (canvas_id_arg <$> m_items (the_manifest st))
    ∧ canvases_created st = 2.
Proof.
  assert (∃ st,
            @assemble plain_python lenient_builder (net_img1_down "A") id "A"
              ["A/img3.jpg"; "A/img1.jpg"; "A/img2.jpg"]
              "https://iiif.example.org" "" "" = Returned st
            ∧ canvases_created st = 2) as (st & Hst & Hn)
    by (eexists; split; vm_compute; reflexivity).
  exists st. split; [exact Hst|]. split; [|exact Hn].
  apply (@canvas_ids_distinct plain_python lenient_builder
           (net_img1_down "A") id "A"
           ["A/img3.jpg"; "A/img1.jpg"; "A/img2.jpg"]
           "https://iiif.example.org" "" "" st); [reflexivity|exact Hst].
Defined.

(** X17. The failure list is written in two passes: first the paths
    that did not resolve, then the failed requests and the canvases
    that raised; within each pass the paths come in sorted order, so a
    path of the second pass may sort before one of the first. *)
Theorem failures_in_two_passes `{PyRuntime} `{IiifBuilder}
    (net : nat → string → response)
    (as_completed : list (string * string * json)
                    → list (string * string * json))
    (doc : string) (items : list string)
    (iiif_image_base project_segment iiif_presentation_base : string)
    (st : assembly) :
  assemble net as_completed doc items iiif_image_base project_segment
    iiif_presentation_base = Returned st →
  ∃ later,
    failures st
    = omap (resolution_failure iiif_image_base project_segment) (sorted items)
        ++ later
    ∧ (omap (resolution_failure iiif_image_base project_segment)
         (sorted items)).*1 `sublist_of` sorted items
    ∧ later.*1 `sublist_of` sorted items
    ∧ Forall (λ f, PyStr.startswith "info.json fetch failed for " f.2 = true
                   ∨ PyStr.startswith "manifest/canvas creation error: " f.2
                     = true) later.
Proof.
  unfold assemble.
  destruct (init_manifest doc _) as [m [[]|e]]; [|done].
  rewrite submit_fold. cbn [app].
  intros (later & Hl & Hs & Hm)%process_all_failures.
  exists later. cbn [failures] in Hl.
  split_and!; try done. apply resolution_failures_sublist.
Qed.

Lemma failures_in_two_passes_witness :
  ∃ st later,
    @assemble plain_python lenient_builder (net_img1_down "A") id "A"
      ["https://h/A/img1.jpg"; "z/img0.jpg"] "" "" ""
    = Returned st
    ∧ failures st
      = omap (resolution_failure "" "")
          (sorted ["https://h/A/img1.jpg"; "z/img0.jpg"])
        ++ later
    ∧ (failures st).*1 = ["z/img0.jpg"; "https://h/A/img1.jpg"].
Proof.
  assert (∃ st,
            @assemble plain_python lenient_builder (net_img1_down "A") id "A"
              ["https://h/A/img1.jpg"; "z/img0.jpg"] "" "" ""
            = Returned st
            ∧ (failures st).*1 = ["z/img0.jpg"; "https://h/A/img1.jpg"])
    as (st & Hst & Hfs) by (eexists; split; vm_compute; reflexivity).
  destruct (@failures_in_two_passes plain_python lenient_builder
              (net_img1_down "A") id "A"
              ["https://h/A/img1.jpg"; "z/img0.jpg"] "" "" ""
              st Hst) as (later & Hl & _ & _ & _).
  exists st, later. split; [exact Hst|]. split; [exact Hl|exact Hfs].
Defined.

(** ** A whole run in which nothing fails *)

Section CleanMainFacts.

Context `{PyRuntime} `{IiifBuilder}.

Lemma process_docs_clean net as_completed output_dir iiif_image_base
    project_segment iiif_presentation_base r0 docs :
  (∀ d p, d ∈ docs → p ∈ d.2 →
          ∃ service_id,
            build_service_id iiif_image_base project_segment p
            = Returned service_id) →
  (∀ base c, raises base c = None) →
  (∀ doc i url, ∃ kvs, net doc i url = Body (JDict kvs)
                       ∧ Py.truthy (Py.get_none kvs "error") = false) →
  (∀ doc l, as_completed doc l ≡ₚ l) →
  (∀ m, ∃ text, json_dumps m = Returned text ∧ text ≠ "") →
  ∃ r,
    process_docs net as_completed output_dir iiif_image_base project_segment
      iiif_presentation_base r0 docs = Returned r
    ∧ total_failures r = total_failures r0
    ∧ (created_manifests r).*1.*1 = (created_manifests r0).*1.*1 ++ docs.*1
    ∧ (created_manifests r).*2
      = (created_manifests r0).*2 ++ (length <$> docs.*2)
    ∧ length (files r) = length (files r0) + length docs.
Proof.
  intros Hres Hq Hnet Hperm Hdumps. revert r0 Hres.
  induction docs as [|[doc items] docs IH]; intros r0 Hres.
  - exists r0. cbn. rewrite !app_nil_r. split_and!; try done; lia.
  - cbn [process_docs]. unfold process_doc at 1.
    destruct (assemble_clean (net doc) (as_completed doc) doc items
                iiif_image_base project_segment iiif_presentation_base)
      as (st & Hst & Hf & Hn & _); [|done|apply Hnet|apply Hperm|].
    { intros p Hp. apply (Hres (doc, items)); [left|done]. }
    unfold make_manifest_for_doc. rewrite Hst.
    destruct (Hdumps (the_manifest st)) as (text & -> & Htext).
    destruct text as [|c s]; [done|]. rewrite Hf, Hn. cbn [map].
    rewrite app_nil_r.
    edestruct (IH {| files :=
                       files r0
                         ++ [(path_join output_dir (doc +:+ ".json"),
                              String c s)];
                     created_manifests :=
                       created_manifests r0
                         ++ [(doc, path_join output_dir (doc +:+ ".json"),
                              length items)];
                     report_lines :=
                       report_lines r0
                         ++ ["- " +:+ doc +:+ ": created "
                             +:+ PyStr.of_nat (length items)
                             +:+ " canvases -> "
                             +:+ path_join output_dir (doc +:+ ".json")];
                     total_failures := total_failures r0 |})
      as (r & -> & Hfs & Hcm & Hcn & Hfl).
    { intros d p Hd. apply Hres. by right. }
    exists r. cbn [files created_manifests total_failures] in *.
    rewrite Hcm, Hcn, Hfl, !fmap_app, !length_app, <- !(assoc_L (++)).
    cbn. split_and!; try done; lia.
Qed.

Lemma sum_lengths (l : list (list string)) :
  sum_list (length <$> l) = length (concat l).
Proof.
  induction l as [|x l IH]; [done|]. cbn. by rewrite length_app, IH.
Qed.

Lemma main_clean net as_completed lines output_dir iiif_image_base
    project_segment iiif_presentation_base :
  (∀ p, p ∈ parse_all_manifests lines →
        ∃ service_id,
          build_service_id iiif_image_base project_segment p
          = Returned service_id) →
  (∀ base c, raises base c = None) →
  (∀ doc i url, ∃ kvs, net doc i url = Body (JDict kvs)
                       ∧ Py.truthy (Py.get_none kvs "error") = false) →
  (∀ doc l, as_completed doc l ≡ₚ l) →
  (∀ m, ∃ text, json_dumps m = Returned text ∧ text ≠ "") →
  ∃ r,
    main net as_completed lines output_dir iiif_image_base project_segment
      iiif_presentation_base = Returned r
    ∧ total_failures r = []
    ∧ (created_manifests r).*1.*1 = documents lines
    ∧ length (files r) = length (documents lines)
    ∧ sum_list (created_manifests r).*2
      = length (filter (λ ln, nonblank ln) lines).
Proof.
  intros Hres Hq Hnet Hperm Hdumps. unfold main.
  pose proof (sorted_items_spec (group_paths (parse_all_manifests lines)))
    as (Hsorted & _).
  pose proof (group_paths_members (parse_all_manifests lines)) as Hmem.
  edestruct (process_docs_clean net as_completed output_dir iiif_image_base
               project_segment iiif_presentation_base
               {| files := []; created_manifests := []; report_lines := [];
                  total_failures := [] |}
               (sorted_items (group_paths (parse_all_manifests lines))))
    as (r & Hr & Hfs & Hcm & Hcn & Hfl); try done.
  { intros d p Hd Hp. apply Hres. rewrite <- Hmem, <- Hsorted.
    apply list_elem_of_In, in_concat. exists d.2.
    split; [|by apply list_elem_of_In].
    apply list_elem_of_In, list_elem_of_fmap. by exists d. }
  exists r. cbn in Hfs, Hcm, Hcn, Hfl. unfold documents.
  split_and!; try done.
  - by rewrite Hfl, length_fmap.
  - rewrite Hcn, sum_lengths, Hsorted, Hmem.
    apply (parse_counts lines).
Qed.

End CleanMainFacts.

(** X18. A whole run in which nothing fails: when every parsed path
    resolves, every request is answered by a JSON object without a
    truthy "error", no builder call raises and every serialization
    gives a text that is not empty, main ends without an exception and
    without a failure, creates a manifest for every document and writes
    as many files, and the canvas counts it reports add up to the
    number of lines of the input that are not blank.  (Writing the
    files is taken to succeed.) *)
Theorem clean_run_of_main `{PyRuntime} `{IiifBuilder}
    (net : string → nat → string → response)
    (as_completed : string → list (string * string * json)
                    → list (string * string * json))
    (lines : list string)
    (output_dir iiif_image_base project_segment iiif_presentation_base
       : string) :
  (∀ p, p ∈ parse_all_manifests lines →
        ∃ service_id,
          build_service_id iiif_image_base project_segment p
          = Returned service_id) →
  (∀ base c, raises base c = None) →
  (∀ doc i url, ∃ kvs, net doc i url = Body (JDict kvs)
                       ∧ Py.truthy (Py.get_none kvs "error") = false) →
  (∀ doc l, as_completed doc l ≡ₚ l) →
  (∀ m, ∃ text, json_dumps m = Returned text ∧ text ≠ "") →
  ∃ r,
    main net as_completed lines output_dir iiif_image_base project_segment
      iiif_presentation_base = Returned r
    ∧ total_failures r = []
    ∧ (created_manifests r).*1.*1 = documents lines
    ∧ length (files r) = length (documents lines)
    ∧ sum_list (created_manifests r).*2
      = length (filter (λ ln, nonblank ln) lines).
Proof. apply main_clean. Qed.

Lemma clean_run_of_main_witness :
  ∃ r,
    @main plain_python lenient_builder (λ _, net_good) (λ _, reverse)
      ["0a1b  B/img2.jpg"; ""; "A/img1.jpg"; "ffff A/img0.jpg"] "out"
      "https://iiif.example.org/" "ceresa" "" = Returned r
    ∧ total_failures r = []
    ∧ (created_manifests r).*1.*1 = ["A"; "B"]
    ∧ sum_list (created_manifests r).*2 = 3.
Proof.
  destruct (@clean_run_of_main plain_python lenient_builder (λ _, net_good)
              (λ _, reverse)
              ["0a1b  B/img2.jpg"; ""; "A/img1.jpg"; "ffff A/img0.jpg"] "out"
              "https://iiif.example.org/" "ceresa" "")
    as (r & Hr & Hf & Hd & _ & Hn).
  - intros p Hp.
    assert (parse_all_manifests
              ["0a1b  B/img2.jpg"; ""; "A/img1.jpg"; "ffff A/img0.jpg"]
            = ["B/img2.jpg"; "A/img1.jpg"; "A/img0.jpg"]) as Hparse
      by (vm_compute; reflexivity).
    rewrite Hparse, !elem_of_cons in Hp.
    destruct Hp as [->|[->|[->|Hp]]]; [eexists; vm_compute; reflexivity..|].
    by apply elem_of_nil in Hp.
  - reflexivity.
  - intros doc i url. eexists. split; reflexivity.
  - intros doc l. apply reverse_Permutation.
  - intros m. eexists. split; [reflexivity|discriminate].
  - exists r. split; [exact Hr|]. split; [exact Hf|].
    split; [rewrite Hd; vm_compute; reflexivity|].
    rewrite Hn. vm_compute. reflexivity.
Defined.

(** ** When no exception ends the run *)

Section MainReturnFacts.

Context `{PyRuntime} `{IiifBuilder}.

Lemma process_docs_returns net as_completed output_dir iiif_image_base
    project_segment iiif_presentation_base r0 docs :
  (∀ base c, (∃ e, c = set_id Manifest (ExtendBase e)) ∨ (∃ l v, c = add_label Manifest l v)
             ∨ (∃ b, c = add_behavior b) →
             raises base c = None) →
  (∀ doc i url v, net doc i url = Body v → ∃ kvs, v = JDict kvs) →
  (∀ doc l, as_completed doc l ≡ₚ l) →
  ∃ r,
    process_docs net as_completed output_dir iiif_image_base project_segment
      iiif_presentation_base r0 docs = Returned r.
Proof.
  intros Hinit Hobj Hperm. revert r0.
  induction docs as [|[doc items] docs IH]; intros r0; [by eexists|].
  cbn [process_docs]. unfold process_doc at 1.
  destruct (make_manifest_returns (net doc) (as_completed doc) doc items
              iiif_image_base project_segment iiif_presentation_base)
    as [[[manifest_json created_count] fs] ->];
    [|apply Hobj|apply Hperm|].
  { intros c Hc. apply Hinit. rewrite !elem_of_cons in Hc.
    destruct Hc as [->|[->|[->|Hc]]]; [eauto 6..|].
    by apply elem_of_nil in Hc. }
  destruct manifest_json as [[|c s]|]; apply IH.
Qed.

End MainReturnFacts.

(** X19. No exception of the generator ends main when the calls that
    set up a manifest do not raise and every body the image service
    answers with is a JSON object: whatever else fails, every document
    is worked through and gets its report line.  (Writing the files is
    taken to succeed.) *)
Theorem run_reaches_the_report `{PyRuntime} `{IiifBuilder}
    (net : string → nat → string → response)
    (as_completed : string → list (string * string * json)
                    → list (string * string * json))
    (lines : list string)
    (output_dir iiif_image_base project_segment iiif_presentation_base
       : string) :
  (∀ base c, (∃ e, c = set_id Manifest (ExtendBase e)) ∨ (∃ l v, c = add_label Manifest l v)
             ∨ (∃ b, c = add_behavior b) →
             raises base c = None) →
  (∀ doc i url v, net doc i url = Body v → ∃ kvs, v = JDict kvs) →
  (∀ doc l, as_completed doc l ≡ₚ l) →
  ∃ r,
    main net as_completed lines output_dir iiif_image_base project_segment
      iiif_presentation_base = Returned r
    ∧ length (report_lines r) = length (documents lines).
Proof.
  intros Hinit Hobj Hperm. unfold main.
  edestruct (process_docs_returns net as_completed output_dir iiif_image_base
               project_segment iiif_presentation_base) as [r Hr]; try done.
  exists r. split; [exact Hr|].
  apply process_docs_adds in Hr as (_ & _ & _ & _ & _ & Hlen & _).
  unfold documents. by rewrite Hlen, length_fmap.
Qed.

Lemma run_reaches_the_report_witness :
  ∃ r,
    @main plain_python strict_builder net_img1_down (λ _, reverse)
      ["A/img1.jpg"; "A/img2.jpg"; "B/img2.jpg"] "out" "x" "ceresa" ""
    = Returned r
    ∧ length (report_lines r) = 2.
Proof.
  destruct (@run_reaches_the_report plain_python strict_builder net_img1_down
              (λ _, reverse) ["A/img1.jpg"; "A/img2.jpg"; "B/img2.jpg"] "out"
              "x" "ceresa" "") as (r & Hr & Hlen).
  - intros base c [[a ->]|[(l & v & ->)|[b ->]]]; reflexivity.
  - intros doc i url v. unfold net_img1_down.
    destruct (PyStr.endswith _ url); [discriminate|].
    intros [= <-]. by eexists.
  - intros doc l. apply reverse_Permutation.
  - exists r. split; [exact Hr|]. rewrite Hlen. vm_compute. reflexivity.
Defined.
